(** * VRuntimeFilterSlots: the runtime-filter coordinator of a hash-join build side

    A shallow embedding of [be/src/exprs/runtime_filter_slots.h].

    The coordinator holds a vector of shared pointers to filter objects and
    mutates those objects in place.  Filter objects therefore live in a heap
    indexed by address, the group is a list of addresses, and every member
    function is a computation over the heap.  Calls into collaborators whose
    effect is opaque to the coordinator (sending a size report, allocating a
    bloom filter, appending a batch, publishing) are recorded in a trace, in
    call order. *)

From stdpp Require Import gmap strings pretty list.

Abbreviation addr := nat (only parsing).

(** ** Data of the collaborators *)

(** Modelled from the spec: [RuntimeFilterType] is declared in
    exprs/runtime_filter.h, which is outside this unit.  The coordinator names
    [IN_FILTER], [BLOOM_FILTER] and [IN_OR_BLOOM_FILTER]; the data model adds
    the value-range kind (the min/max filter of the comment above
    [disable_meaningless_filters]). *)
Inductive RuntimeFilterType : Type :=
  | IN_FILTER
  | MINMAX_FILTER
  | BLOOM_FILTER
  | IN_OR_BLOOM_FILTER.

Global Instance RuntimeFilterType_eq_dec : EqDecision RuntimeFilterType.
Proof. solve_decision. Defined.

(** Modelled from the spec: [Status] is declared in common/status.h.  The
    coordinator builds [Status::OK()] and [Status::Aborted(fmt, id)] itself;
    any other failure is produced by a collaborator and passed through. *)
Inductive Status : Type :=
  | OK
  | Aborted (msg : string)
  | Failure (msg : string).

Global Instance Status_eq_dec : EqDecision Status.
Proof. solve_decision. Defined.

Definition ok (s : Status) : bool :=
  match s with OK => true | _ => false end.

(** Modelled from the spec: the filter object behind an [IRuntimeFilter]
    pointer, with the attributes of the data model: identity, target
    expression, declared and effective type, the two flags, whether a global
    size agreement is needed, the agreed size, and the reference to the
    shared internal state. *)
Record IRuntimeFilter : Type := mkIRuntimeFilter {
  _filter_id : Z;
  _expr_order : Z;
  _runtime_filter_type : RuntimeFilterType;
  _real_type : RuntimeFilterType;
  _ignored : bool;
  _disabled : bool;
  _need_sync_filter_size : bool;
  _synced_size : N;
  _shared_context : addr
}.

Global Instance IRuntimeFilter_eq_dec : EqDecision IRuntimeFilter.
Proof. solve_decision. Defined.

Definition with_ignored (f : IRuntimeFilter) : IRuntimeFilter :=
  mkIRuntimeFilter (_filter_id f) (_expr_order f) (_runtime_filter_type f)
    (_real_type f) true (_disabled f) (_need_sync_filter_size f)
    (_synced_size f) (_shared_context f).

Definition with_disabled (f : IRuntimeFilter) : IRuntimeFilter :=
  mkIRuntimeFilter (_filter_id f) (_expr_order f) (_runtime_filter_type f)
    (_real_type f) (_ignored f) true (_need_sync_filter_size f)
    (_synced_size f) (_shared_context f).

Definition with_real_type (ty : RuntimeFilterType) (f : IRuntimeFilter)
  : IRuntimeFilter :=
  mkIRuntimeFilter (_filter_id f) (_expr_order f) (_runtime_filter_type f)
    ty (_ignored f) (_disabled f) (_need_sync_filter_size f)
    (_synced_size f) (_shared_context f).

Definition with_shared_context (c : addr) (f : IRuntimeFilter)
  : IRuntimeFilter :=
  mkIRuntimeFilter (_filter_id f) (_expr_order f) (_runtime_filter_type f)
    (_real_type f) (_ignored f) (_disabled f) (_need_sync_filter_size f)
    (_synced_size f) c.

(** Modelled from the spec: a column of build-side values and a block of
    columns addressed by position (vec/core/block.h). *)
Definition Column : Type := list Z.
Definition Block : Type := list Column.

(** Modelled from the spec: an expression context remembers the position, in
    the block it was last evaluated against, of its result column
    (vec/exprs/vexpr_context.h). *)
Record VExprContext : Type := mkVExprContext {
  _last_result_column_id : Z
}.

(** Modelled from the spec: the execution-wide configuration exposes the
    cardinality threshold above which a hybrid filter becomes a bloom filter
    (runtime/runtime_state.h).  Its C++ type is not visible from this unit;
    it is a cardinality, compared with an unsigned size. *)
Record RuntimeState : Type := mkRuntimeState {
  runtime_filter_max_in_num : N
}.

(** Modelled from the spec: the shared exchange slot, a mapping from filter
    identity to a reference to shared internal state
    (vec/runtime/shared_hash_table_controller.h). *)
Record SharedHashTableContext : Type := mkSharedHashTableContext {
  runtime_filters : gmap Z addr
}.

(** ** Calls into the collaborators *)

Inductive Event : Type :=
  | EvSetFinishDependency (rf : addr) (dependency : addr)
  | EvSendFilterSize (rf : addr) (local_size : N)
  | EvChangeToBloomFilter (rf : addr)
  | EvInitBloomFilter (rf : addr) (size : N)
  | EvInsertBatch (rf : addr) (column : Column) (weight : N)
  | EvPublish (rf : addr) (publish_local : bool).

Global Instance Event_eq_dec : EqDecision Event.
Proof. solve_decision. Defined.

(** The result of a fallible collaborator call is chosen by the environment.
    It may depend on everything the collaborators have been asked so far. *)
Record Collaborators : Type := mkCollaborators {
  send_filter_size_result : list Event -> addr -> N -> Status;
  change_to_bloom_filter_result : list Event -> addr -> Status;
  init_bloom_filter_result : list Event -> addr -> N -> Status;
  publish_result : list Event -> addr -> bool -> Status
}.

(** ** The world the coordinator runs in *)

Record World : Type := mkWorld {
  heap : gmap addr IRuntimeFilter;
  shared : gmap addr SharedHashTableContext;
  trace : list Event;
  env : Collaborators
}.

Definition set_heap (h : gmap addr IRuntimeFilter) (w : World) : World :=
  mkWorld h (shared w) (trace w) (env w).

Definition set_shared (s : gmap addr SharedHashTableContext) (w : World)
  : World :=
  mkWorld (heap w) s (trace w) (env w).

Definition set_trace (t : list Event) (w : World) : World :=
  mkWorld (heap w) (shared w) t (env w).

(** A computation either returns or stops at a violated contract: a null
    pointer is dereferenced, or an index is out of range. *)
Inductive Fault : Type :=
  | NullFilter (p : addr)
  | NullContext (c : addr)
  | ExprOutOfRange (i : Z)
  | ColumnOutOfRange (i : Z).

Inductive Outcome (A : Type) : Type :=
  | Ret (a : A)
  | Crash (f : Fault).
Arguments Ret {A} a.
Arguments Crash {A} f.

Definition M (A : Type) : Type := World -> Outcome A * World.

Definition ret {A} (a : A) : M A := fun w => (Ret a, w).

Definition bind {A B} (m : M A) (k : A -> M B) : M B :=
  fun w =>
    match m w with
    | (Ret a, w1) => k a w1
    | (Crash f, w1) => (Crash f, w1)
    end.

Definition crash {A} (f : Fault) : M A := fun w => (Crash f, w).

Notation "x <- m ;; k" := (bind m (fun x => k))
  (at level 100, m at next level, right associativity,
   format "'[v' x  <-  m  ;;  '/' k ']'").
Notation "m ;;; k" := (bind m (fun _ => k))
  (at level 100, right associativity).

Definition emit (e : Event) : M unit :=
  fun w => (Ret tt, set_trace (trace w ++ [e]) w).

(** [a || b] and [a && b] of C++ evaluate [b] only when needed. *)
Definition orM (a b : M bool) : M bool :=
  x <- a ;; if x then ret true else b.

Definition andM (a b : M bool) : M bool :=
  x <- a ;; if x then b else ret false.

(** A range-for loop whose body may [continue] to the next element, carrying
    the locals of the enclosing function, or [return] a status from it. *)
Inductive Flow (S : Type) : Type :=
  | Next (s : S)
  | Return (st : Status).
Arguments Next {S} s.
Arguments Return {S} st.

Fixpoint for_each {A S} (body : A -> S -> M (Flow S)) (l : list A) (s : S)
  : M (Flow S) :=
  match l with
  | [] => ret (Next s)
  | a :: l' =>
      r <- body a s ;;
      match r with
      | Next s' => for_each body l' s'
      | Return st => ret (Return st)
      end
  end.

(** Modelled from the spec: the macro [RETURN_IF_ERROR] (common/status.h),
    here inside a loop body: the first status that is not OK leaves the
    function and is returned to the caller. *)
Definition RETURN_IF_ERROR {S} (stmt : M Status) (k : M (Flow S))
  : M (Flow S) :=
  st <- stmt ;; if ok st then k else ret (Return st).

(** Conversion of an [int] to [size_t], as done when an [int] indexes a
    vector. *)
Definition to_size_t (i : Z) : Z := i mod 2 ^ 64.

(** ** Member functions of a filter handle

    [IRuntimeFilter] is declared in exprs/runtime_filter.h, outside this
    unit; its member functions follow the interface the specification gives
    for a filter handle.  Each of them dereferences the handle first. *)

Module IRuntimeFilter.

(** [this->]: the object behind the pointer; a null pointer has none. *)
Definition deref (this : addr) : M IRuntimeFilter :=
  fun w =>
    match heap w !! this with
    | Some f => (Ret f, w)
    | None => (Crash (NullFilter this), w)
    end.

(** [*this = f], for a pointer that has just been dereferenced. *)
Definition assign (this : addr) (f : IRuntimeFilter) : M unit :=
  fun w => (Ret tt, set_heap (<[this := f]> (heap w)) w).

(** Modelled from the spec: the identity accessor. *)
Definition filter_id (this : addr) : M Z :=
  f <- deref this ;; ret (_filter_id f).

(** Modelled from the spec: the index of the target build expression. *)
Definition expr_order (this : addr) : M Z :=
  f <- deref this ;; ret (_expr_order f).

(** Modelled from the spec: the declared type. *)
Definition type (this : addr) : M RuntimeFilterType :=
  f <- deref this ;; ret (_runtime_filter_type f).

(** Modelled from the spec: the effective type. *)
Definition get_real_type (this : addr) : M RuntimeFilterType :=
  f <- deref this ;; ret (_real_type f).

(** Modelled from the spec: the [ignored] flag. *)
Definition get_ignored (this : addr) : M bool :=
  f <- deref this ;; ret (_ignored f).

(** Modelled from the spec: the [disabled] flag. *)
Definition get_disabled (this : addr) : M bool :=
  f <- deref this ;; ret (_disabled f).

(** Modelled from the spec: [set_ignored()] sets the [ignored] flag and
    nothing else. *)
Definition set_ignored (this : addr) : M unit :=
  f <- deref this ;; assign this (with_ignored f).

(** Modelled from the spec: [set_disabled()] sets the [disabled] flag and
    nothing else. *)
Definition set_disabled (this : addr) : M unit :=
  f <- deref this ;; assign this (with_disabled f).

(** Modelled from the spec: whether a global size agreement is needed. *)
Definition need_sync_filter_size (this : addr) : M bool :=
  f <- deref this ;; ret (_need_sync_filter_size f).

(** Modelled from the spec: the globally agreed size. *)
Definition get_synced_size (this : addr) : M N :=
  f <- deref this ;; ret (_synced_size f).

(** Modelled from the spec: [get_shared_context_ref()] read as a value, the
    reference to the shared internal state. *)
Definition get_shared_context_ref (this : addr) : M addr :=
  f <- deref this ;; ret (_shared_context f).

(** Modelled from the spec: [get_shared_context_ref() = c], the reference
    replaced by [c]. *)
Definition set_shared_context_ref (this : addr) (c : addr) : M unit :=
  f <- deref this ;; assign this (with_shared_context c f).

(** Modelled from the spec: registration of the completion dependency, a
    call whose effect lies with the collaborator. *)
Definition set_finish_dependency (this : addr) (dependency : addr)
  : M unit :=
  _ <- deref this ;; emit (EvSetFinishDependency this dependency).

(** Modelled from the spec: the size report, a one-way send that may
    fail. *)
Definition send_filter_size (this : addr) (state : RuntimeState)
    (local_size : N) : M Status :=
  _ <- deref this ;;
  fun w =>
    (Ret (send_filter_size_result (env w) (trace w) this local_size),
     set_trace (trace w ++ [EvSendFilterSize this local_size]) w).

(** Modelled from the spec: the hybrid-to-bloom transition, which may fail;
    when it succeeds the effective type is the bloom filter. *)
Definition change_to_bloom_filter (this : addr) : M Status :=
  f <- deref this ;;
  st <- (fun w =>
           (Ret (change_to_bloom_filter_result (env w) (trace w) this),
            set_trace (trace w ++ [EvChangeToBloomFilter this]) w)) ;;
  if ok st
  then (assign this (with_real_type BLOOM_FILTER f) ;;; ret st)
  else ret st.

(** Modelled from the spec: allocation of the bloom filter for [size]
    values, which may fail. *)
Definition init_bloom_filter (this : addr) (size : N) : M Status :=
  _ <- deref this ;;
  fun w =>
    (Ret (init_bloom_filter_result (env w) (trace w) this size),
     set_trace (trace w ++ [EvInitBloomFilter this size]) w).

(** Modelled from the spec: the values of [column] appended to the
    filter. *)
Definition insert_batch (this : addr) (column : Column) (weight : N)
  : M unit :=
  _ <- deref this ;; emit (EvInsertBatch this column weight).

(** Modelled from the spec: the handle's own publish operation, which may
    fail. *)
Definition publish (this : addr) (state : RuntimeState)
    (publish_local : bool) : M Status :=
  _ <- deref this ;;
  fun w =>
    (Ret (publish_result (env w) (trace w) this publish_local),
     set_trace (trace w ++ [EvPublish this publish_local]) w).

End IRuntimeFilter.

(** ** The coordinator *)

Record VRuntimeFilterSlots : Type := mkVRuntimeFilterSlots {
  _build_expr_context : list VExprContext;
  _runtime_filters : list addr
}.

(** [v[i]] on a vector: the element at the position, a violated contract
    when there is none. *)
Definition vector_at {A} (fault : Z -> Fault) (v : list A) (i : Z) : M A :=
  let position := to_size_t i in
  if (position <? Z.of_nat (length v))%Z
  then match v !! Z.to_nat position with
       | Some a => ret a
       | None => crash (fault i)
       end
  else crash (fault i).

(** Modelled from the spec: [Block::get_by_position(position).column]
    (vec/core/block.h); a position without a column is a violated
    contract. *)
Definition get_by_position (block : Block) (position : Z) : M Column :=
  vector_at ColumnOutOfRange block position.

(** Modelled from the spec: [VExprContext::get_last_result_column_id()]. *)
Definition get_last_result_column_id (ctx : VExprContext) : Z :=
  _last_result_column_id ctx.

(** [context->runtime_filters[id] = ref] and [context->runtime_filters.find(id)]. *)
Definition runtime_filters_assign (context : addr) (id : Z) (ref : addr)
  : M unit :=
  fun w =>
    match shared w !! context with
    | Some c =>
        (Ret tt,
         set_shared
           (<[context := mkSharedHashTableContext (<[id := ref]> (runtime_filters c))]>
              (shared w)) w)
    | None => (Crash (NullContext context), w)
    end.

Definition runtime_filters_find (context : addr) (id : Z) : M (option addr) :=
  fun w =>
    match shared w !! context with
    | Some c => (Ret (runtime_filters c !! id), w)
    | None => (Crash (NullContext context), w)
    end.

Module VRuntimeFilterSlots.

Definition continue {S} (s : S) : M (Flow S) := ret (Next s).

(** The status a function returns after its last loop. *)
Definition finish (r : Flow unit) (st : Status) : M Status :=
  match r with
  | Next _ => ret st
  | Return e => ret e
  end.

Definition empty (this : VRuntimeFilterSlots) : M bool :=
  ret (bool_decide (_runtime_filters this = [])).

Definition send_filter_size (this : VRuntimeFilterSlots)
    (state : RuntimeState) (hash_table_size : N) (dependency : addr)
  : M Status :=
  e <- empty this ;;
  if e then ret OK else
  r1 <- for_each (fun runtime_filter (_ : unit) =>
          b <- IRuntimeFilter.need_sync_filter_size runtime_filter ;;
          if b
          then (IRuntimeFilter.set_finish_dependency runtime_filter dependency ;;;
                continue tt)
          else continue tt)
        (_runtime_filters this) tt ;;
  match r1 with
  | Return e => ret e
  | Next _ =>
      r2 <- for_each (fun runtime_filter (_ : unit) =>
              b <- IRuntimeFilter.need_sync_filter_size runtime_filter ;;
              if b
              then RETURN_IF_ERROR
                     (IRuntimeFilter.send_filter_size runtime_filter state
                        hash_table_size)
                     (continue tt)
              else continue tt)
            (_runtime_filters this) tt ;;
      finish r2 OK
  end.

Definition get_real_size (filter : addr) (hash_table_size : N) : M N :=
  b <- IRuntimeFilter.need_sync_filter_size filter ;;
  if b then IRuntimeFilter.get_synced_size filter else ret hash_table_size.

(** First loop of [disable_meaningless_filters]: duplicate IN filters. *)
Definition disable_duplicate_in_filters (this : VRuntimeFilterSlots)
  : M (Flow (gset Z)) :=
  for_each (fun filter (has_in_filter : gset Z) =>
      skip <- orM (IRuntimeFilter.get_ignored filter)
                  (IRuntimeFilter.get_disabled filter) ;;
      if skip then continue has_in_filter else
      real <- IRuntimeFilter.get_real_type filter ;;
      if bool_decide (real <> IN_FILTER) then continue has_in_filter else
      skip <- andM (b <- IRuntimeFilter.need_sync_filter_size filter ;;
                    ret (negb b))
                   (ty <- IRuntimeFilter.type filter ;;
                    ret (bool_decide (ty = IN_OR_BLOOM_FILTER))) ;;
      if skip then continue has_in_filter else
      order <- IRuntimeFilter.expr_order filter ;;
      if bool_decide (order ∈ has_in_filter)
      then (IRuntimeFilter.set_disabled filter ;;; continue has_in_filter)
      else continue ({[order]} ∪ has_in_filter))
    (_runtime_filters this) ∅.

(** Second loop: filters on an expression that has an IN filter. *)
Definition disable_dominated_filters (this : VRuntimeFilterSlots)
    (has_in_filter : gset Z) : M (Flow unit) :=
  for_each (fun filter (_ : unit) =>
      skip <- orM (IRuntimeFilter.get_ignored filter)
                  (IRuntimeFilter.get_disabled filter) ;;
      if skip then continue tt else
      skip <- orM (real <- IRuntimeFilter.get_real_type filter ;;
                   ret (bool_decide (real = IN_FILTER)))
                  (order <- IRuntimeFilter.expr_order filter ;;
                   ret (negb (bool_decide (order ∈ has_in_filter)))) ;;
      if skip then continue tt else
      IRuntimeFilter.set_disabled filter ;;; continue tt)
    (_runtime_filters this) tt.

Definition disable_meaningless_filters (this : VRuntimeFilterSlots)
    (state : RuntimeState) : M Status :=
  r1 <- disable_duplicate_in_filters this ;;
  match r1 with
  | Return e => ret e
  | Next has_in_filter =>
      r2 <- disable_dominated_filters this has_in_filter ;;
      finish r2 OK
  end.

Definition ignore_all_filters (this : VRuntimeFilterSlots) : M Status :=
  r <- for_each (fun filter (_ : unit) =>
         IRuntimeFilter.set_ignored filter ;;; continue tt)
       (_runtime_filters this) tt ;;
  finish r OK.

Definition disable_all_filters (this : VRuntimeFilterSlots) : M Status :=
  r <- for_each (fun filter (_ : unit) =>
         IRuntimeFilter.set_disabled filter ;;; continue tt)
       (_runtime_filters this) tt ;;
  finish r OK.

Definition init_filters (this : VRuntimeFilterSlots) (state : RuntimeState)
    (local_hash_table_size : N) : M Status :=
  r <- for_each (fun filter (_ : unit) =>
         ig <- IRuntimeFilter.get_ignored filter ;;
         if ig then continue tt else
         over <- andM (ty <- IRuntimeFilter.type filter ;;
                       ret (bool_decide (ty = IN_OR_BLOOM_FILTER)))
                      (size <- get_real_size filter local_hash_table_size ;;
                       ret (runtime_filter_max_in_num state <? size)%N) ;;
         RETURN_IF_ERROR
           (if over then IRuntimeFilter.change_to_bloom_filter filter
            else ret OK)
           (real <- IRuntimeFilter.get_real_type filter ;;
            if bool_decide (real = BLOOM_FILTER)
            then RETURN_IF_ERROR
                   (size <- get_real_size filter local_hash_table_size ;;
                    IRuntimeFilter.init_bloom_filter filter size)
                   (continue tt)
            else continue tt))
       (_runtime_filters this) tt ;;
  finish r OK.

Definition insert (this : VRuntimeFilterSlots) (block : Block) : M unit :=
  for_each (fun filter (_ : unit) =>
      order <- IRuntimeFilter.expr_order filter ;;
      ctx <- vector_at ExprOutOfRange (_build_expr_context this) order ;;
      let result_column_id := get_last_result_column_id ctx in
      column <- get_by_position block result_column_id ;;
      skip <- orM (IRuntimeFilter.get_ignored filter)
                  (IRuntimeFilter.get_disabled filter) ;;
      if skip then continue tt else
      IRuntimeFilter.insert_batch filter column 1 ;;; continue tt)
    (_runtime_filters this) tt ;;;
  ret tt.

Definition publish (this : VRuntimeFilterSlots) (state : RuntimeState)
    (publish_local : bool) : M Status :=
  r <- for_each (fun filter (_ : unit) =>
         RETURN_IF_ERROR
           (IRuntimeFilter.publish filter state publish_local)
           (continue tt))
       (_runtime_filters this) tt ;;
  finish r OK.

Definition copy_to_shared_context (this : VRuntimeFilterSlots)
    (context : addr) : M unit :=
  for_each (fun filter (_ : unit) =>
      id <- IRuntimeFilter.filter_id filter ;;
      ref <- IRuntimeFilter.get_shared_context_ref filter ;;
      runtime_filters_assign context id ref ;;; continue tt)
    (_runtime_filters this) tt ;;;
  ret tt.

Definition copy_from_shared_context (this : VRuntimeFilterSlots)
    (context : addr) : M Status :=
  r <- for_each (fun filter (_ : unit) =>
         filter_id <- IRuntimeFilter.filter_id filter ;;
         found <- runtime_filters_find context filter_id ;;
         match found with
         | None =>
             ret (Return (Aborted ("invalid runtime filter id: "
                                     +:+ pretty filter_id)))
         | Some second =>
             IRuntimeFilter.set_shared_context_ref filter second ;;;
             continue tt
         end)
       (_runtime_filters this) tt ;;
  finish r OK.

End VRuntimeFilterSlots.

(** ** Sequences of coordinator calls *)

Inductive Operation : Type :=
  | SendFilterSize (state : RuntimeState) (hash_table_size : N)
      (dependency : addr)
  | GetRealSize (filter : addr) (hash_table_size : N)
  | DisableMeaninglessFilters (state : RuntimeState)
  | IgnoreAllFilters
  | DisableAllFilters
  | InitFilters (state : RuntimeState) (local_hash_table_size : N)
  | Insert (block : Block)
  | Publish (state : RuntimeState) (publish_local : bool)
  | CopyToSharedContext (context : addr)
  | CopyFromSharedContext (context : addr)
  | Empty.

Definition discard {A} (m : M A) : M unit := m ;;; ret tt.

Definition perform (this : VRuntimeFilterSlots) (op : Operation) : M unit :=
  match op with
  | SendFilterSize state n dependency =>
      discard (VRuntimeFilterSlots.send_filter_size this state n dependency)
  | GetRealSize filter n =>
      discard (VRuntimeFilterSlots.get_real_size filter n)
  | DisableMeaninglessFilters state =>
      discard (VRuntimeFilterSlots.disable_meaningless_filters this state)
  | IgnoreAllFilters => discard (VRuntimeFilterSlots.ignore_all_filters this)
  | DisableAllFilters => discard (VRuntimeFilterSlots.disable_all_filters this)
  | InitFilters state n =>
      discard (VRuntimeFilterSlots.init_filters this state n)
  | Insert block => VRuntimeFilterSlots.insert this block
  | Publish state publish_local =>
      discard (VRuntimeFilterSlots.publish this state publish_local)
  | CopyToSharedContext context =>
      VRuntimeFilterSlots.copy_to_shared_context this context
  | CopyFromSharedContext context =>
      discard (VRuntimeFilterSlots.copy_from_shared_context this context)
  | Empty => discard (VRuntimeFilterSlots.empty this)
  end.

(** The world after a sequence of calls, each by some coordinator over the
    same heap; a call that stops at a violated contract leaves the world as
    it was at that point. *)
Fixpoint run (calls : list (VRuntimeFilterSlots * Operation)) (w : World)
  : World :=
  match calls with
  | [] => w
  | (this, op) :: calls' => run calls' (perform this op w).2
  end.

(** The part of the trace a computation adds. *)
Definition emitted {A} (m : M A) (w : World) : list Event :=
  drop (length (trace w)) (trace (m w).2).

(** ** Reading a handle in a world *)

Definition active (f : IRuntimeFilter) : bool :=
  negb (_ignored f) && negb (_disabled f).

Definition flagged (f : IRuntimeFilter) : bool :=
  _ignored f || _disabled f.

Definition valid (w : World) (l : list addr) : Prop :=
  Forall (fun p => is_Some (heap w !! p)) l.

(** ** What no call ever undoes *)

(** [grows f f']: [f'] is a later state of the filter object [f]. Identity,
    target expression, declared type and size negotiation are fixed; a flag
    that is set stays set. *)
Record grows (f f' : IRuntimeFilter) : Prop := mkGrows {
  grows_filter_id : _filter_id f' = _filter_id f;
  grows_expr_order : _expr_order f' = _expr_order f;
  grows_type : _runtime_filter_type f' = _runtime_filter_type f;
  grows_need_sync : _need_sync_filter_size f' = _need_sync_filter_size f;
  grows_synced_size : _synced_size f' = _synced_size f;
  grows_ignored : _ignored f = true -> _ignored f' = true;
  grows_disabled : _disabled f = true -> _disabled f' = true
}.

(** [evolves w w']: [w'] is a later world of [w]. *)
Record evolves (w w' : World) : Prop := mkEvolves {
  evolves_env : env w' = env w;
  evolves_trace : exists t, trace w' = trace w ++ t;
  evolves_heap :
    forall p f, heap w !! p = Some f ->
                exists f', heap w' !! p = Some f' /\ grows f f';
  evolves_null : forall p, heap w !! p = None -> heap w' !! p = None
}.

(** A computation is steady when it only moves the world forward. *)
Definition steady {A} (m : M A) : Prop := forall w, evolves w (m w).2.


(** ** Sample worlds *)

(** Collaborators that never fail. *)
Definition always_ok : Collaborators :=
  mkCollaborators (fun _ _ _ => OK) (fun _ _ => OK) (fun _ _ _ => OK)
    (fun _ _ _ => OK).

(** A world whose heap holds the given filters at addresses 0, 1, ...; no
    shared context, nothing called yet. *)
Definition world_of (filters : list IRuntimeFilter) (e : Collaborators)
  : World :=
  mkWorld (map_seq 0 filters) ∅ [] e.

(** An active filter without size negotiation. *)
Definition plain_filter (id order : Z) (ty real : RuntimeFilterType)
  : IRuntimeFilter :=
  mkIRuntimeFilter id order ty real false false false 0 0.

(** ** Kinds of calls *)

Definition is_registration (e : Event) : Prop :=
  match e with EvSetFinishDependency _ _ => True | _ => False end.

Definition is_insert_batch_on (p : addr) (e : Event) : Prop :=
  match e with EvInsertBatch q _ _ => q = p | _ => False end.

(** ** The column lookup of [insert], by itself *)

(** What the two lookups at the head of the loop body of [insert] yield for
    a handle on expression [order]: the result column, or the contract found
    violated. *)
Definition result_column (this : VRuntimeFilterSlots) (block : Block)
    (order : Z) : Fault + Column :=
  if (to_size_t order <? Z.of_nat (length (_build_expr_context this)))%Z
  then match _build_expr_context this !! Z.to_nat (to_size_t order) with
       | Some ctx =>
           let id := get_last_result_column_id ctx in
           if (to_size_t id <? Z.of_nat (length block))%Z
           then match block !! Z.to_nat (to_size_t id) with
                | Some column => inr column
                | None => inl (ColumnOutOfRange id)
                end
           else inl (ColumnOutOfRange id)
       | None => inl (ExprOutOfRange order)
       end
  else inl (ExprOutOfRange order).

(** The world [w] with a shared context holding [slot] at address
    [context]. *)
Definition sharing (context : addr) (slot : gmap Z addr) (w : World) : World :=
  set_shared (<[context := mkSharedHashTableContext slot]> (shared w)) w.

(** ** What [init_filters] computes for one filter object *)

(** The size [get_real_size] resolves for a filter object. *)
Definition real_size (f : IRuntimeFilter) (hash_table_size : N) : N :=
  if _need_sync_filter_size f then _synced_size f else hash_table_size.

(** The condition under which [init_filters] calls
    [change_to_bloom_filter]. *)
Definition over_threshold (state : RuntimeState) (f : IRuntimeFilter)
    (hash_table_size : N) : bool :=
  bool_decide (_runtime_filter_type f = IN_OR_BLOOM_FILTER)
  && (runtime_filter_max_in_num state <? real_size f hash_table_size)%N.

(** ** What [disable_meaningless_filters] decides for one filter object *)

(** The filters the first loop counts: not ignored, not disabled, of
    effective type IN, and not a hybrid filter without size sync (which the
    loop passes over). *)
Definition counted (f : IRuntimeFilter) : bool :=
  active f
  && bool_decide (_real_type f = IN_FILTER)
  && negb (negb (_need_sync_filter_size f)
           && bool_decide (_runtime_filter_type f = IN_OR_BLOOM_FILTER)).

(** The filters the second loop disables, given the set the first loop
    built. *)
Definition dominated (has_in_filter : gset Z) (f : IRuntimeFilter) : bool :=
  active f
  && negb (bool_decide (_real_type f = IN_FILTER))
  && bool_decide (_expr_order f ∈ has_in_filter).

(** The set [has_in_filter] after the first loop has gone through the
    handles [l], starting from [s]. *)
Fixpoint seen (w : World) (l : list addr) (s : gset Z) : gset Z :=
  match l with
  | [] => s
  | q :: l' =>
      seen w l'
        (match heap w !! q with
         | Some f => if counted f then {[_expr_order f]} ∪ s else s
         | None => s
         end)
  end.

(** Whether the handle [q] is counted and targets expression [e]. *)
Definition counts_on (w : World) (e : Z) (q : addr) : bool :=
  match heap w !! q with
  | Some f => counted f && bool_decide (_expr_order f = e)
  | None => false
  end.

(** The handles of [l] that are counted and target expression [e], in the
    order of [l]. *)
Definition counted_on (w : World) (e : Z) (l : list addr) : list addr :=
  filter (fun q => counts_on w e q = true) l.

(** ** Reading further attributes of a handle in a world *)

(** Whether the handle [q] needs size sync; a null handle does not. *)
Definition needs_sync (w : World) (q : addr) : bool :=
  match heap w !! q with
  | Some f => _need_sync_filter_size f
  | None => false
  end.

(** The handles of [l] that need size sync, in the order of [l]. *)
Definition sync_handles (w : World) (l : list addr) : list addr :=
  filter (fun q => needs_sync w q = true) l.

(** The batch [insert] appends for the handle [q], if any: none for a null,
    ignored or disabled handle, or one whose column is not found. *)
Definition batch_of (this : VRuntimeFilterSlots) (block : Block) (w : World)
    (q : addr) : option Event :=
  match heap w !! q with
  | Some f =>
      if flagged f then None
      else match result_column this block (_expr_order f) with
           | inr column => Some (EvInsertBatch q column 1)
           | inl _ => None
           end
  | None => None
  end.

(** ** Relations a computation may keep between the worlds around it *)

(** [keeps R m]: whatever [m] yields, the world after is [R]-related to the
    world before. *)
Definition keeps {A} (R : World -> World -> Prop) (m : M A) : Prop :=
  forall w, R w (m w).2.

(** A part of the world is the same after as before. *)
Definition unchanged {B} (part : World -> B) (w w' : World) : Prop :=
  part w' = part w.

(** Every filter object is still there with its declared and its effective
    type. *)
Definition same_types (w w' : World) : Prop :=
  forall p f, heap w !! p = Some f ->
    exists f', heap w' !! p = Some f' /\
               _runtime_filter_type f' = _runtime_filter_type f /\
               _real_type f' = _real_type f.

(** Every filter object is still there with its declared type, and its
    effective type is what it was or, for a hybrid filter, the bloom
    filter. *)
Definition type_ordered (w w' : World) : Prop :=
  forall p f, heap w !! p = Some f ->
    exists f', heap w' !! p = Some f' /\
               _runtime_filter_type f' = _runtime_filter_type f /\
               (_real_type f' = _real_type f \/
                (_runtime_filter_type f = IN_OR_BLOOM_FILTER /\
                 _real_type f' = BLOOM_FILTER)).
(** * Properties *)

(** ** The monad *)

Lemma bind_Ret {A B} (m : M A) (k : A -> M B) w a w1 :
  m w = (Ret a, w1) -> bind m k w = k a w1.
Proof. intros E. unfold bind. now rewrite E. Qed.

Lemma deref_Some w p f :
  heap w !! p = Some f -> IRuntimeFilter.deref p w = (Ret f, w).
Proof. intros E. unfold IRuntimeFilter.deref. now rewrite E. Qed.

(** ** What no call ever undoes *)

Lemma grows_refl f : grows f f.
Proof. now constructor. Qed.

Lemma grows_trans f1 f2 f3 : grows f1 f2 -> grows f2 f3 -> grows f1 f3.
Proof.
  intros [] []. constructor; try congruence; auto.
Qed.

Lemma evolves_refl w : evolves w w.
Proof.
  constructor; auto.
  - exists []. now rewrite app_nil_r.
  - intros p f E. exists f. split; [assumption | apply grows_refl].
Qed.

Lemma evolves_trans w1 w2 w3 : evolves w1 w2 -> evolves w2 w3 -> evolves w1 w3.
Proof.
  intros [E1 [t1 T1] H1 N1] [E2 [t2 T2] H2 N2]. constructor.
  - congruence.
  - exists (t1 ++ t2). rewrite T2, T1. now rewrite app_assoc.
  - intros p f Hp. destruct (H1 _ _ Hp) as (f1 & Hp1 & G1).
    destruct (H2 _ _ Hp1) as (f2 & Hp2 & G2).
    exists f2. split; [assumption | eapply grows_trans; eassumption].
  - auto.
Qed.

Lemma steady_ret {A} (a : A) : steady (ret a).
Proof. intros w. apply evolves_refl. Qed.

Lemma steady_crash {A} e : steady (@crash A e).
Proof. intros w. apply evolves_refl. Qed.

Lemma steady_bind {A B} (m : M A) (k : A -> M B) :
  steady m -> (forall a, steady (k a)) -> steady (bind m k).
Proof.
  intros Hm Hk w. unfold bind. specialize (Hm w).
  destruct (m w) as [[a | e] w1]; simpl in *.
  - eapply evolves_trans; [exact Hm | apply Hk].
  - exact Hm.
Qed.

Lemma steady_for_each {A S} (body : A -> S -> M (Flow S)) l :
  (forall a s, steady (body a s)) -> forall s, steady (for_each body l s).
Proof.
  intros Hb. induction l as [| a l IH]; intros s; simpl.
  - apply steady_ret.
  - apply steady_bind; [apply Hb |].
    intros [s' | st]; [apply IH | apply steady_ret].
Qed.

Lemma steady_deref p : steady (IRuntimeFilter.deref p).
Proof.
  intros w. unfold IRuntimeFilter.deref.
  destruct (heap w !! p); apply evolves_refl.
Qed.

Lemma steady_emit e : steady (emit e).
Proof.
  intros w. constructor; simpl; auto.
  - now exists [e].
  - intros p f E. exists f. split; [assumption | apply grows_refl].
Qed.

(** Storing a later state of the object a pointer was just read from. *)
Lemma steady_update p (g : IRuntimeFilter -> IRuntimeFilter) :
  (forall f, grows f (g f)) ->
  steady (f <- IRuntimeFilter.deref p ;; IRuntimeFilter.assign p (g f)).
Proof.
  intros Hg w. unfold bind, IRuntimeFilter.deref, IRuntimeFilter.assign.
  destruct (heap w !! p) as [f |] eqn:E; simpl; [| apply evolves_refl].
  constructor; simpl; auto.
  - exists []. now rewrite app_nil_r.
  - intros q fq Hq. destruct (decide (p = q)) as [-> | Hne].
    + rewrite lookup_insert_eq. exists (g f). split; [reflexivity |].
      replace fq with f by congruence. apply Hg.
    + rewrite lookup_insert_ne by assumption.
      exists fq. split; [assumption | apply grows_refl].
  - intros q Hq. rewrite lookup_insert_ne; [assumption |]. congruence.
Qed.

Lemma steady_oracle (result : World -> Status) (e : Event) :
  steady (fun w => (Ret (result w), set_trace (trace w ++ [e]) w)).
Proof.
  intros w. constructor; simpl; auto.
  - now exists [e].
  - intros p f E. exists f. split; [assumption | apply grows_refl].
Qed.

Lemma grows_with_ignored f : grows f (with_ignored f).
Proof. now constructor. Qed.

Lemma grows_with_disabled f : grows f (with_disabled f).
Proof. now constructor. Qed.

Lemma grows_with_real_type ty f : grows f (with_real_type ty f).
Proof. now constructor. Qed.

Lemma grows_with_shared_context c f : grows f (with_shared_context c f).
Proof. now constructor. Qed.

Lemma steady_assign_later p f g :
  (forall f, grows f (g f)) ->
  forall w, heap w !! p = Some f ->
            evolves w (IRuntimeFilter.assign p (g f) w).2.
Proof.
  intros Hg w E. constructor; simpl; auto.
  - exists []. now rewrite app_nil_r.
  - intros q fq Hq. destruct (decide (p = q)) as [-> | Hne].
    + rewrite lookup_insert_eq. exists (g f). split; [reflexivity |].
      replace fq with f by congruence. apply Hg.
    + rewrite lookup_insert_ne by assumption.
      exists fq. split; [assumption | apply grows_refl].
  - intros q Hq. rewrite lookup_insert_ne; [assumption |]. congruence.
Qed.

Lemma steady_change_to_bloom_filter p :
  steady (IRuntimeFilter.change_to_bloom_filter p).
Proof.
  intros w. unfold IRuntimeFilter.change_to_bloom_filter, bind at 1.
  unfold IRuntimeFilter.deref.
  destruct (heap w !! p) as [f |] eqn:E; [| apply evolves_refl].
  unfold bind at 1.
  set (w1 := set_trace (trace w ++ [EvChangeToBloomFilter p]) w).
  assert (H1 : evolves w w1) by apply (steady_oracle (fun _ => OK)).
  destruct (ok _); [| exact H1].
  eapply evolves_trans; [exact H1 |].
  unfold bind, ret. simpl.
  apply (steady_assign_later p f (with_real_type BLOOM_FILTER)).
  - apply grows_with_real_type.
  - exact E.
Qed.

Lemma steady_runtime_filters_assign c id ref :
  steady (runtime_filters_assign c id ref).
Proof.
  intros w. unfold runtime_filters_assign.
  destruct (shared w !! c); [| apply evolves_refl].
  constructor; simpl; auto.
  - exists []. now rewrite app_nil_r.
  - intros p f E. exists f. split; [assumption | apply grows_refl].
Qed.

Lemma steady_runtime_filters_find c id : steady (runtime_filters_find c id).
Proof.
  intros w. unfold runtime_filters_find.
  destruct (shared w !! c); apply evolves_refl.
Qed.

Lemma steady_vector_at {A} fault (v : list A) i : steady (vector_at fault v i).
Proof.
  unfold vector_at. destruct (_ <? _)%Z; [| apply steady_crash].
  destruct (v !! _); [apply steady_ret | apply steady_crash].
Qed.

Create HintDb steady.

#[local] Hint Resolve steady_ret steady_crash steady_deref steady_emit
  steady_oracle steady_change_to_bloom_filter steady_runtime_filters_assign
  steady_runtime_filters_find steady_vector_at : steady.

(** Steadiness follows the shape of the program. *)
Ltac steady_step :=
  match goal with
  | |- steady (bind (IRuntimeFilter.deref ?p)
                 (fun f => IRuntimeFilter.assign ?p _)) =>
      apply (steady_update p); intros;
      first [ apply grows_with_ignored | apply grows_with_disabled
            | apply grows_with_shared_context ]
  | |- steady (bind _ _) => apply steady_bind; [| intros ?]
  | |- steady (for_each _ _ _) => apply steady_for_each; intros ? ?
  | |- steady (if ?b then _ else _) => destruct b
  | |- steady (match ?x with _ => _ end) => destruct x
  | |- steady _ => solve [auto with steady]
  end.

Lemma steady_perform this op : steady (perform this op).
Proof.
  destruct op; unfold perform, discard;
    unfold VRuntimeFilterSlots.send_filter_size,
      VRuntimeFilterSlots.get_real_size,
      VRuntimeFilterSlots.disable_meaningless_filters,
      VRuntimeFilterSlots.disable_duplicate_in_filters,
      VRuntimeFilterSlots.disable_dominated_filters,
      VRuntimeFilterSlots.ignore_all_filters,
      VRuntimeFilterSlots.disable_all_filters,
      VRuntimeFilterSlots.init_filters,
      VRuntimeFilterSlots.get_real_size,
      VRuntimeFilterSlots.insert,
      VRuntimeFilterSlots.publish,
      VRuntimeFilterSlots.copy_to_shared_context,
      VRuntimeFilterSlots.copy_from_shared_context,
      VRuntimeFilterSlots.empty,
      VRuntimeFilterSlots.finish, VRuntimeFilterSlots.continue,
      RETURN_IF_ERROR, orM, andM, get_by_position,
      IRuntimeFilter.filter_id, IRuntimeFilter.expr_order,
      IRuntimeFilter.type, IRuntimeFilter.get_real_type,
      IRuntimeFilter.get_ignored, IRuntimeFilter.get_disabled,
      IRuntimeFilter.set_ignored, IRuntimeFilter.set_disabled,
      IRuntimeFilter.need_sync_filter_size, IRuntimeFilter.get_synced_size,
      IRuntimeFilter.get_shared_context_ref,
      IRuntimeFilter.set_shared_context_ref,
      IRuntimeFilter.set_finish_dependency,
      IRuntimeFilter.send_filter_size, IRuntimeFilter.init_bloom_filter,
      IRuntimeFilter.insert_batch, IRuntimeFilter.publish;
    repeat steady_step.
Qed.

Lemma evolves_run calls : forall w, evolves w (run calls w).
Proof.
  induction calls as [| [this op] calls IH]; intros w; simpl.
  - apply evolves_refl.
  - eapply evolves_trans; [apply steady_perform | apply IH].
Qed.

(** ** Flags *)

(** C7: the [ignored] and [disabled] flags of every handle are monotonic
    across every sequence of coordinator calls (size negotiation,
    materialization, pruning, the two overrides, ingestion, publication,
    export and import, by any coordinator over the same heap): a flag that is
    set on a handle is still set after the sequence, and reading it through
    the handle yields true. *)
Theorem C7_flags_monotonic :
  forall (calls : list (VRuntimeFilterSlots * Operation)) (w : World)
         (p : addr) (f : IRuntimeFilter),
    heap w !! p = Some f ->
    exists f',
      heap (run calls w) !! p = Some f' /\
      (_ignored f = true ->
       _ignored f' = true /\
       IRuntimeFilter.get_ignored p (run calls w) = (Ret true, run calls w)) /\
      (_disabled f = true ->
       _disabled f' = true /\
       IRuntimeFilter.get_disabled p (run calls w) = (Ret true, run calls w)).
Proof.
  intros calls w p f Hp.
  destruct (evolves_heap _ _ (evolves_run calls w) p f Hp) as (f' & Hp' & G).
  exists f'. split; [exact Hp' |]. split; intros Hset.
  - pose proof (grows_ignored _ _ G Hset) as Hi. split; [exact Hi |].
    unfold IRuntimeFilter.get_ignored.
    rewrite (bind_Ret _ _ _ _ _ (deref_Some _ _ _ Hp')).
    unfold ret. now rewrite Hi.
  - pose proof (grows_disabled _ _ G Hset) as Hd. split; [exact Hd |].
    unfold IRuntimeFilter.get_disabled.
    rewrite (bind_Ret _ _ _ _ _ (deref_Some _ _ _ Hp')).
    unfold ret. now rewrite Hd.
Qed.

Lemma C7_flags_monotonic_witness :
  let this := mkVRuntimeFilterSlots [mkVExprContext 0] [0; 1] in
  let f := mkIRuntimeFilter 7 0 IN_OR_BLOOM_FILTER IN_FILTER true false true 4500 0 in
  let w := world_of [f; plain_filter 8 0 MINMAX_FILTER MINMAX_FILTER] always_ok in
  let calls :=
    [(this, SendFilterSize (mkRuntimeState 1000) 1500 9);
     (this, InitFilters (mkRuntimeState 1000) 1500);
     (this, DisableMeaninglessFilters (mkRuntimeState 1000));
     (this, Insert [[1; 2; 3]%Z]);
     (this, Publish (mkRuntimeState 1000) true)] in
  heap w !! 0 = Some f /\
  exists f',
    heap (run calls w) !! 0 = Some f' /\
    (_ignored f = true ->
     _ignored f' = true /\
     IRuntimeFilter.get_ignored 0 (run calls w) = (Ret true, run calls w)) /\
    (_disabled f = true ->
     _disabled f' = true /\
     IRuntimeFilter.get_disabled 0 (run calls w) = (Ret true, run calls w)).
Proof.
  intros this f w calls. split; [reflexivity |].
  apply (C7_flags_monotonic calls w 0 f). reflexivity.
Defined.

(** ** Effective size *)

(** C8: [get_real_size] is pure: it leaves the world as it is, and for every
    handle and every local cardinality it returns the handle's synced size
    when the handle needs size sync, and the local cardinality otherwise. *)
Theorem C8_get_real_size :
  forall (filter : addr) (f : IRuntimeFilter) (hash_table_size : N)
         (w : World),
    heap w !! filter = Some f ->
    VRuntimeFilterSlots.get_real_size filter hash_table_size w =
      (Ret (if _need_sync_filter_size f then _synced_size f
            else hash_table_size), w).
Proof.
  intros filter f n w Hp.
  unfold VRuntimeFilterSlots.get_real_size,
    IRuntimeFilter.need_sync_filter_size, IRuntimeFilter.get_synced_size.
  unfold bind, ret. rewrite (deref_Some _ _ _ Hp).
  destruct (_need_sync_filter_size f); [| reflexivity].
  now rewrite (deref_Some _ _ _ Hp).
Qed.

Lemma C8_get_real_size_witness :
  let f := mkIRuntimeFilter 7 0 IN_OR_BLOOM_FILTER IN_FILTER false false true 4500 0 in
  let w := world_of [f] always_ok in
  heap w !! 0 = Some f /\
  VRuntimeFilterSlots.get_real_size 0 1500 w = (Ret 4500%N, w).
Proof.
  intros f w. split; [reflexivity |].
  apply (C8_get_real_size 0 f 1500 w). reflexivity.
Defined.

(** ** The empty group *)

(** C9: on a group holding no handles every coordinator operation returns
    success and leaves the world, trace included, as it is; and [empty]
    returns true exactly when the group holds no handles. *)
Theorem C9_empty_group :
  forall (exprs : list VExprContext) (state : RuntimeState) (n : N)
         (dependency context : addr) (block : Block) (publish_local : bool)
         (w : World),
    let this := mkVRuntimeFilterSlots exprs [] in
    VRuntimeFilterSlots.send_filter_size this state n dependency w = (Ret OK, w) /\
    VRuntimeFilterSlots.init_filters this state n w = (Ret OK, w) /\
    VRuntimeFilterSlots.disable_meaningless_filters this state w = (Ret OK, w) /\
    VRuntimeFilterSlots.ignore_all_filters this w = (Ret OK, w) /\
    VRuntimeFilterSlots.disable_all_filters this w = (Ret OK, w) /\
    VRuntimeFilterSlots.insert this block w = (Ret tt, w) /\
    VRuntimeFilterSlots.publish this state publish_local w = (Ret OK, w) /\
    VRuntimeFilterSlots.copy_to_shared_context this context w = (Ret tt, w) /\
    VRuntimeFilterSlots.copy_from_shared_context this context w = (Ret OK, w) /\
    forall that : VRuntimeFilterSlots,
      (VRuntimeFilterSlots.empty that w).2 = w /\
      ((VRuntimeFilterSlots.empty that w).1 = Ret true <->
       _runtime_filters that = []).
Proof.
  intros. repeat split; try reflexivity.
  - unfold VRuntimeFilterSlots.empty, ret. simpl. intros H.
    injection H as H. now apply bool_decide_eq_true_1 in H.
  - unfold VRuntimeFilterSlots.empty, ret. simpl. intros ->. reflexivity.
Qed.

(** ** Running a loop body *)

Lemma bind_eq {A B} (m : M A) (k : A -> M B) w r :
  m w = r ->
  bind m k w = match r with
               | (Ret a, w1) => k a w1
               | (Crash e, w1) => (Crash e, w1)
               end.
Proof. intros <-. reflexivity. Qed.

Lemma bind_ret_l {A B} (a : A) (k : A -> M B) w : bind (ret a) k w = k a w.
Proof. reflexivity. Qed.

(** [run_body w res tac]: the goal runs [m] and then a continuation in the
    world [w]; show with [tac] that [m w = res] and go on from there. *)
Ltac run_body w res tac :=
  match goal with
  | |- context [bind ?m ?k w] =>
      let H := fresh "Hbody" in
      assert (H : m w = res); [tac | rewrite (bind_eq m k w _ H); clear H]
  end; cbn beta iota.

(** Unfold the member functions of a handle down to lookups in the heap. *)
Ltac unfold_handle :=
  unfold VRuntimeFilterSlots.get_real_size, VRuntimeFilterSlots.continue,
    RETURN_IF_ERROR, orM, andM, get_by_position, vector_at,
    IRuntimeFilter.filter_id, IRuntimeFilter.expr_order,
    IRuntimeFilter.type, IRuntimeFilter.get_real_type,
    IRuntimeFilter.get_ignored, IRuntimeFilter.get_disabled,
    IRuntimeFilter.set_ignored, IRuntimeFilter.set_disabled,
    IRuntimeFilter.need_sync_filter_size, IRuntimeFilter.get_synced_size,
    IRuntimeFilter.get_shared_context_ref,
    IRuntimeFilter.set_shared_context_ref,
    IRuntimeFilter.set_finish_dependency,
    IRuntimeFilter.send_filter_size, IRuntimeFilter.init_bloom_filter,
    IRuntimeFilter.change_to_bloom_filter,
    IRuntimeFilter.insert_batch, IRuntimeFilter.publish,
    IRuntimeFilter.assign, emit, crash, bind, ret, IRuntimeFilter.deref.

(** Run a body on a handle whose heap cell is given by [Hp]. *)
Ltac exec Hp := unfold_handle; cbn beta; rewrite ?Hp; cbn beta iota.

(** ** Size negotiation *)

Lemma emitted_app {A} (m : M A) w t :
  trace (m w).2 = trace w ++ t -> emitted m w = t.
Proof. intros E. unfold emitted. rewrite E. apply drop_app_length. Qed.

Lemma set_trace_id w : set_trace (trace w ++ []) w = w.
Proof. destruct w. unfold set_trace. simpl. now rewrite app_nil_r. Qed.

(** The registration loop: it registers the dependency on every handle that
    needs size sync, and calls nothing else. *)
Lemma registration_loop dependency l :
  forall w,
    exists t,
      Forall is_registration t /\
      let r := for_each (fun runtime_filter (_ : unit) =>
                  b <- IRuntimeFilter.need_sync_filter_size runtime_filter ;;
                  if b
                  then (IRuntimeFilter.set_finish_dependency runtime_filter
                          dependency ;;;
                        VRuntimeFilterSlots.continue tt)
                  else VRuntimeFilterSlots.continue tt) l tt w in
      r.2 = set_trace (trace w ++ t) w /\
      ((exists e, r.1 = Crash e) \/
       (r.1 = Ret (Next tt) /\
        forall p f, p ∈ l -> heap w !! p = Some f ->
                    _need_sync_filter_size f = true ->
                    EvSetFinishDependency p dependency ∈ t)).
Proof.
  induction l as [| p l IH]; intros w.
  - exists []. split; [constructor |]. cbn. split.
    + now rewrite set_trace_id.
    + right. split; [reflexivity |]. intros p f Hin. inversion Hin.
  - cbn [for_each].
    destruct (heap w !! p) as [f |] eqn:Hp.
    2:{ exists []. split; [constructor |].
        run_body w (@Crash (Flow unit) (NullFilter p), w) ltac:(now exec Hp).
        cbn. split; [now rewrite set_trace_id | left; eauto]. }
    destruct (_need_sync_filter_size f) eqn:Hs.
    + set (w1 := set_trace (trace w ++ [EvSetFinishDependency p dependency]) w).
      destruct (IH w1) as (t & Ht & Hr).
      exists (EvSetFinishDependency p dependency :: t).
      split; [constructor; [exact I | exact Ht] |].
      run_body w (Ret (Next tt), w1) ltac:(now exec Hp; rewrite Hs; cbn; rewrite Hp).
      cbn zeta in *. destruct Hr as [Hw Hr]. split.
      * rewrite Hw. unfold w1, set_trace. cbn. now rewrite <- app_assoc.
      * destruct Hr as [Hc | [Hn Hall]]; [left; exact Hc | right].
        split; [exact Hn |]. intros q fq Hin Hq Hsq.
        apply elem_of_cons in Hin. destruct Hin as [-> | Hin].
        -- apply list_elem_of_here.
        -- apply list_elem_of_further. apply (Hall q fq Hin Hq Hsq).
    + destruct (IH w) as (t & Ht & Hr).
      exists t. split; [exact Ht |].
      run_body w (Ret (Next tt), w) ltac:(now exec Hp; rewrite Hs).
      cbn zeta in *. destruct Hr as [Hw Hr]. split; [exact Hw |].
      destruct Hr as [Hc | [Hn Hall]]; [left; exact Hc | right].
      split; [exact Hn |]. intros q fq Hin Hq Hsq.
      apply elem_of_cons in Hin. destruct Hin as [-> | Hin].
      * congruence.
      * apply (Hall q fq Hin Hq Hsq).
Qed.

(** Whatever follows a run of registrations, a size report found in the
    whole lies after all of them. *)
Lemma report_after_registrations (t1 t2 before after : list Event) q n :
  Forall is_registration t1 ->
  t1 ++ t2 = before ++ EvSendFilterSize q n :: after ->
  exists rest, before = t1 ++ rest.
Proof.
  revert before. induction t1 as [| e t1 IH]; intros before Hreg E.
  - now exists before.
  - inversion Hreg as [| ? ? He Hreg']; subst.
    destruct before as [| b before]; simpl in E.
    + injection E as -> _. destruct He.
    + injection E as -> E. destruct (IH before Hreg' E) as (rest & ->).
      now exists rest.
Qed.

Lemma steady_report_loop state n l :
  steady (r2 <- for_each (fun runtime_filter (_ : unit) =>
                  b <- IRuntimeFilter.need_sync_filter_size runtime_filter ;;
                  if b
                  then RETURN_IF_ERROR
                         (IRuntimeFilter.send_filter_size runtime_filter state n)
                         (VRuntimeFilterSlots.continue tt)
                  else VRuntimeFilterSlots.continue tt) l tt ;;
          VRuntimeFilterSlots.finish r2 OK).
Proof.
  unfold VRuntimeFilterSlots.finish, VRuntimeFilterSlots.continue,
    RETURN_IF_ERROR, IRuntimeFilter.need_sync_filter_size,
    IRuntimeFilter.send_filter_size.
  repeat steady_step.
Qed.

(** C4: in [send_filter_size] the completion dependency is registered on
    every handle of the group that needs size sync before any size report is
    sent: whenever a report appears among the calls the operation makes, the
    registration of each such handle appears before it. *)
Theorem C4_registration_before_reports :
  forall (this : VRuntimeFilterSlots) (state : RuntimeState)
         (hash_table_size : N) (dependency : addr) (w : World)
         (before after : list Event) (q : addr) (n : N),
    emitted (VRuntimeFilterSlots.send_filter_size this state hash_table_size
               dependency) w
      = before ++ EvSendFilterSize q n :: after ->
    forall (p : addr) (f : IRuntimeFilter),
      p ∈ _runtime_filters this ->
      heap w !! p = Some f ->
      _need_sync_filter_size f = true ->
      EvSetFinishDependency p dependency ∈ before.
Proof.
  intros this state hs dependency w before after q n Hem p f Hin Hp Hs.
  unfold VRuntimeFilterSlots.send_filter_size in Hem.
  unfold emitted in Hem.
  unfold VRuntimeFilterSlots.empty in Hem. rewrite bind_ret_l in Hem.
  destruct (bool_decide (_runtime_filters this = [])).
  { cbn in Hem. rewrite drop_all in Hem. now destruct before. }
  destruct (registration_loop dependency (_runtime_filters this) w)
    as (t1 & Hreg & Hr).
  cbn zeta in Hr. destruct Hr as [Hw Hr].
  set (loop1 := for_each _ (_runtime_filters this) tt) in *.
  destruct (loop1 w) as [r1 w1] eqn:E1. cbn in Hw, Hr.
  rewrite (bind_eq _ _ w _ E1) in Hem.
  assert (Hbad : forall b a, t1 = b ++ EvSendFilterSize q n :: a -> False).
  { intros b a ->. apply Forall_app in Hreg as [_ Hreg].
    inversion Hreg as [| ? ? He _]. destruct He. }
  destruct Hr as [[e ->] | [-> Hall]].
  - cbn in Hem. rewrite Hw in Hem. cbn in Hem.
    rewrite drop_app_length in Hem. destruct (Hbad _ _ Hem).
  - cbn beta iota in Hem.
    match type of Hem with
    | context [trace (?m w1).2] =>
        pose proof (steady_report_loop state hs (_runtime_filters this) w1)
          as Hst; change (evolves w1 (m w1).2) in Hst;
        destruct (evolves_trace _ _ Hst) as (t2 & Ht2);
        rewrite Ht2 in Hem
    end.
    rewrite Hw in Hem. cbn in Hem. rewrite <- app_assoc in Hem.
    rewrite drop_app_length in Hem.
    destruct (report_after_registrations _ _ _ _ _ _ Hreg Hem) as (rest & ->).
    apply elem_of_app. left. apply (Hall p f Hin Hp Hs).
Qed.

Lemma C4_registration_before_reports_witness :
  let this := mkVRuntimeFilterSlots [mkVExprContext 0] [0; 1] in
  let f0 := mkIRuntimeFilter 7 0 IN_OR_BLOOM_FILTER IN_FILTER false false true 4500 0 in
  let f1 := mkIRuntimeFilter 8 0 IN_FILTER IN_FILTER false false true 4500 0 in
  let w := world_of [f0; f1] always_ok in
  let before := [EvSetFinishDependency 0 9; EvSetFinishDependency 1 9] in
  (emitted (VRuntimeFilterSlots.send_filter_size this (mkRuntimeState 1000)
              1500 9) w
     = before ++ EvSendFilterSize 0 1500 :: [EvSendFilterSize 1 1500] /\
   1 ∈ _runtime_filters this /\
   heap w !! 1 = Some f1 /\
   _need_sync_filter_size f1 = true) /\
  EvSetFinishDependency 1 9 ∈ before.
Proof.
  intros this f0 f1 w before.
  assert (H1 : emitted (VRuntimeFilterSlots.send_filter_size this
                          (mkRuntimeState 1000) 1500 9) w
               = before ++ EvSendFilterSize 0 1500 :: [EvSendFilterSize 1 1500])
    by reflexivity.
  assert (H2 : 1 ∈ _runtime_filters this)
    by (apply list_elem_of_further, list_elem_of_here).
  assert (H3 : heap w !! 1 = Some f1) by reflexivity.
  assert (H4 : _need_sync_filter_size f1 = true) by reflexivity.
  split; [repeat split; assumption |].
  exact (C4_registration_before_reports this (mkRuntimeState 1000) 1500 9 w
           before [EvSendFilterSize 1 1500] 0 1500 H1 1 f1 H2 H3 H4).
Defined.

(** ** Batch ingestion *)

(** One turn of the loop of [insert] on a handle that is not null. *)
Lemma insert_body this block p f w :
  heap w !! p = Some f ->
  (order <- IRuntimeFilter.expr_order p ;;
   ctx <- vector_at ExprOutOfRange (_build_expr_context this) order ;;
   let result_column_id := get_last_result_column_id ctx in
   column <- get_by_position block result_column_id ;;
   skip <- orM (IRuntimeFilter.get_ignored p) (IRuntimeFilter.get_disabled p) ;;
   if skip then VRuntimeFilterSlots.continue tt else
   IRuntimeFilter.insert_batch p column 1 ;;; VRuntimeFilterSlots.continue tt) w
  = match result_column this block (_expr_order f) with
    | inl e => (Crash e, w)
    | inr column =>
        if flagged f then (Ret (Next tt), w)
        else (Ret (Next tt),
              set_trace (trace w ++ [EvInsertBatch p column 1]) w)
    end.
Proof.
  intros Hp. unfold result_column. exec Hp. cbn beta iota zeta.
  unfold Block, Column in *.
  destruct (_ <? _)%Z; [| reflexivity].
  destruct (_build_expr_context this !! _) as [ctx |]; [| reflexivity].
  cbn beta iota zeta.
  destruct (_ <? _)%Z; [| reflexivity].
  destruct (block !! _) as [column |]; [| reflexivity].
  cbn beta iota. rewrite Hp. unfold flagged.
  destruct (_ignored f); cbn; [reflexivity |]. rewrite Hp.
  destruct (_disabled f); cbn; [reflexivity |]. now rewrite Hp.
Qed.

Lemma insert_body_null this block p w :
  heap w !! p = None ->
  (order <- IRuntimeFilter.expr_order p ;;
   ctx <- vector_at ExprOutOfRange (_build_expr_context this) order ;;
   let result_column_id := get_last_result_column_id ctx in
   column <- get_by_position block result_column_id ;;
   skip <- orM (IRuntimeFilter.get_ignored p) (IRuntimeFilter.get_disabled p) ;;
   if skip then VRuntimeFilterSlots.continue tt else
   IRuntimeFilter.insert_batch p column 1 ;;; VRuntimeFilterSlots.continue tt) w
  = (Crash (NullFilter p), w).
Proof. intros Hp. now exec Hp. Qed.

(** What [insert] does to the world: the heap stays, and every call it makes
    appends a batch to a handle of the group that is neither ignored nor
    disabled. *)
Lemma insert_emits this block :
  forall l w,
    exists t,
      (for_each (fun filter (_ : unit) =>
          order <- IRuntimeFilter.expr_order filter ;;
          ctx <- vector_at ExprOutOfRange (_build_expr_context this) order ;;
          let result_column_id := get_last_result_column_id ctx in
          column <- get_by_position block result_column_id ;;
          skip <- orM (IRuntimeFilter.get_ignored filter)
                      (IRuntimeFilter.get_disabled filter) ;;
          if skip then VRuntimeFilterSlots.continue tt else
          IRuntimeFilter.insert_batch filter column 1 ;;;
          VRuntimeFilterSlots.continue tt) l tt w).2
      = set_trace (trace w ++ t) w /\
      Forall (fun e => exists q fq column,
                e = EvInsertBatch q column 1 /\ q ∈ l /\
                heap w !! q = Some fq /\ flagged fq = false /\
                result_column this block (_expr_order fq) = inr column) t.
Proof.
  induction l as [| p l IH]; intros w.
  - exists []. cbn. split; [now rewrite set_trace_id | constructor].
  - cbn [for_each].
    destruct (heap w !! p) as [f |] eqn:Hp.
    2:{ exists []. run_body w (@Crash (Flow unit) (NullFilter p), w)
          ltac:(now apply insert_body_null).
        cbn. split; [now rewrite set_trace_id | constructor]. }
    pose proof (insert_body this block p f w Hp) as Hb.
    destruct (result_column this block (_expr_order f)) as [e | column] eqn:Hc.
    { exists []. run_body w (@Crash (Flow unit) e, w) ltac:(exact Hb).
      cbn. split; [now rewrite set_trace_id | constructor]. }
    destruct (flagged f) eqn:Hf.
    + destruct (IH w) as (t & Hw & Ht). exists t.
      run_body w (Ret (Next tt), w) ltac:(exact Hb).
      split; [exact Hw |].
      eapply Forall_impl; [exact Ht |]. cbn beta.
      intros e (q & fq & c & -> & Hin & Hq & Hfq & Hcq).
      exists q, fq, c. repeat split; try assumption.
      now apply list_elem_of_further.
    + set (w1 := set_trace (trace w ++ [EvInsertBatch p column 1]) w).
      destruct (IH w1) as (t & Hw & Ht).
      exists (EvInsertBatch p column 1 :: t).
      run_body w (Ret (Next tt), w1) ltac:(exact Hb).
      split.
      * transitivity (set_trace (trace w1 ++ t) w1); [exact Hw |].
        unfold w1, set_trace. cbn. now rewrite <- app_assoc.
      * constructor.
        -- exists p, f, column. repeat split; try assumption.
           apply list_elem_of_here.
        -- eapply Forall_impl; [exact Ht |]. cbn beta.
           intros e (q & fq & c & -> & Hin & Hq & Hfq & Hcq).
           exists q, fq, c. repeat split; try assumption.
           now apply list_elem_of_further.
Qed.

(** With no null pointer in the group, a handle whose column lookup fails
    makes [insert] stop at a violated lookup contract. *)
Lemma insert_stops this block :
  forall l w p f e,
    valid w l -> p ∈ l -> heap w !! p = Some f ->
    result_column this block (_expr_order f) = inl e ->
    exists e' q fq,
      (for_each (fun filter (_ : unit) =>
          order <- IRuntimeFilter.expr_order filter ;;
          ctx <- vector_at ExprOutOfRange (_build_expr_context this) order ;;
          let result_column_id := get_last_result_column_id ctx in
          column <- get_by_position block result_column_id ;;
          skip <- orM (IRuntimeFilter.get_ignored filter)
                      (IRuntimeFilter.get_disabled filter) ;;
          if skip then VRuntimeFilterSlots.continue tt else
          IRuntimeFilter.insert_batch filter column 1 ;;;
          VRuntimeFilterSlots.continue tt) l tt w).1 = Crash e' /\
      q ∈ l /\ heap w !! q = Some fq /\
      result_column this block (_expr_order fq) = inl e'.
Proof.
  induction l as [| a l IH]; intros w p f e Hv Hin Hp He.
  - inversion Hin.
  - apply Forall_cons in Hv as [[fa Ha] Hv]. cbn [for_each].
    pose proof (insert_body this block a fa w Ha) as Hb.
    destruct (result_column this block (_expr_order fa)) as [ea | column] eqn:Hc.
    { exists ea, a, fa. run_body w (@Crash (Flow unit) ea, w) ltac:(exact Hb).
      cbn. repeat split; try assumption. apply list_elem_of_here. }
    assert (Hin' : p ∈ l).
    { apply elem_of_cons in Hin as [-> | Hin]; [| exact Hin].
      rewrite Ha in Hp. injection Hp as ->. congruence. }
    destruct (flagged fa).
    + run_body w (Ret (Next tt), w) ltac:(exact Hb).
      destruct (IH w p f e Hv Hin' Hp He) as (e' & q & fq & H1 & H2 & H3 & H4).
      exists e', q, fq. repeat split; try assumption.
      now apply list_elem_of_further.
    + set (w1 := set_trace (trace w ++ [EvInsertBatch a column 1]) w).
      run_body w (Ret (Next tt), w1) ltac:(exact Hb).
      destruct (IH w1 p f e Hv Hin' Hp He) as (e' & q & fq & H1 & H2 & H3 & H4).
      exists e', q, fq. repeat split; try assumption.
      now apply list_elem_of_further.
Qed.

Lemma result_column_missing this block order :
  ((Z.of_nat (length (_build_expr_context this)) <= to_size_t order)%Z \/
   exists ctx,
     _build_expr_context this !! Z.to_nat (to_size_t order) = Some ctx /\
     (Z.of_nat (length block)
      <= to_size_t (get_last_result_column_id ctx))%Z) ->
  exists e, result_column this block order = inl e.
Proof.
  unfold result_column. intros [Hle | (ctx & Hctx & Hle)].
  - destruct (Z.ltb_spec (to_size_t order)
                (Z.of_nat (length (_build_expr_context this)))); [lia |].
    eauto.
  - destruct (_ <? _)%Z; [| eauto]. rewrite Hctx. cbn zeta.
    destruct (Z.ltb_spec (to_size_t (get_last_result_column_id ctx))
                (Z.of_nat (length block))); [lia |].
    eauto.
Qed.

Lemma result_column_fault this block order e :
  result_column this block order = inl e ->
  exists i, e = ExprOutOfRange i \/ e = ColumnOutOfRange i.
Proof.
  unfold result_column.
  repeat match goal with
         | |- context [if ?b then _ else _] => destruct b
         | |- context [match ?x !! ?i with _ => _ end] => destruct (x !! i)
         end; cbn zeta;
    repeat match goal with
         | |- context [if ?b then _ else _] => destruct b
         | |- context [match ?x !! ?i with _ => _ end] => destruct (x !! i)
         end;
    intros [= <-] || intros [=]; eauto.
Qed.

Lemma insert_eq this block w :
  VRuntimeFilterSlots.insert this block w
  = match for_each (fun filter (_ : unit) =>
            order <- IRuntimeFilter.expr_order filter ;;
            ctx <- vector_at ExprOutOfRange (_build_expr_context this) order ;;
            let result_column_id := get_last_result_column_id ctx in
            column <- get_by_position block result_column_id ;;
            skip <- orM (IRuntimeFilter.get_ignored filter)
                        (IRuntimeFilter.get_disabled filter) ;;
            if skip then VRuntimeFilterSlots.continue tt else
            IRuntimeFilter.insert_batch filter column 1 ;;;
            VRuntimeFilterSlots.continue tt) (_runtime_filters this) tt w with
    | (Ret _, w1) => (Ret tt, w1)
    | (Crash e, w1) => (Crash e, w1)
    end.
Proof. reflexivity. Qed.

(** What [insert] adds to the trace: batches for handles of the group that
    are neither ignored nor disabled and whose column was found. *)
Lemma insert_emitted this block w :
  Forall (fun e => exists q fq column,
            e = EvInsertBatch q column 1 /\ q ∈ _runtime_filters this /\
            heap w !! q = Some fq /\ flagged fq = false /\
            result_column this block (_expr_order fq) = inr column)
    (emitted (VRuntimeFilterSlots.insert this block) w).
Proof.
  destruct (insert_emits this block (_runtime_filters this) w) as (t & Hw & Ht).
  rewrite (emitted_app _ w t); [exact Ht |].
  rewrite insert_eq.
  destruct (for_each _ _ _ w) as [[r | e] w1]; cbn in *; now rewrite Hw.
Qed.

(** C10: [insert] looks the column up (the build-side expression list at the
    handle's [expr_order], then the block at that expression's last result
    position) for every handle it reaches, before it checks the flags.  So,
    in a group without null pointers, a handle whose lookup fails makes
    [insert] stop at a violated lookup contract, whatever the handle's flags
    (ignored and disabled included), and no batch is appended to that
    handle. *)
Theorem C10_lookup_before_flag_check :
  forall (this : VRuntimeFilterSlots) (block : Block) (w : World)
         (p : addr) (f : IRuntimeFilter),
    valid w (_runtime_filters this) ->
    p ∈ _runtime_filters this ->
    heap w !! p = Some f ->
    ((Z.of_nat (length (_build_expr_context this))
      <= to_size_t (_expr_order f))%Z \/
     exists ctx,
       _build_expr_context this !! Z.to_nat (to_size_t (_expr_order f))
         = Some ctx /\
       (Z.of_nat (length block)
        <= to_size_t (get_last_result_column_id ctx))%Z) ->
    (exists i,
        (VRuntimeFilterSlots.insert this block w).1 = Crash (ExprOutOfRange i) \/
        (VRuntimeFilterSlots.insert this block w).1 = Crash (ColumnOutOfRange i)) /\
    Forall (fun e => ~ is_insert_batch_on p e)
      (emitted (VRuntimeFilterSlots.insert this block) w).
Proof.
  intros this block w p f Hv Hin Hp Hmiss.
  destruct (result_column_missing this block _ Hmiss) as (e & He).
  split.
  - destruct (insert_stops this block _ w p f e Hv Hin Hp He)
      as (e' & q & fq & Hcrash & _ & _ & Hq).
    destruct (result_column_fault _ _ _ _ Hq) as (i & Hi).
    exists i. rewrite insert_eq.
    destruct (for_each _ _ _ w) as [[r | e0] w1]; cbn in *; [discriminate |].
    injection Hcrash as ->. destruct Hi as [-> | ->]; auto.
  - eapply Forall_impl; [apply insert_emitted |]. cbn beta.
    intros ev (q & fq & column & -> & _ & Hq & _ & Hc) Hon.
    cbn in Hon. subst q. rewrite Hp in Hq. injection Hq as <-.
    rewrite He in Hc. discriminate.
Qed.

Lemma C10_lookup_before_flag_check_witness :
  let this := mkVRuntimeFilterSlots [mkVExprContext 0; mkVExprContext (-1)] [0; 1] in
  let f0 := plain_filter 7 0 IN_FILTER IN_FILTER in
  let f1 := mkIRuntimeFilter 8 1 MINMAX_FILTER MINMAX_FILTER true true false 0 0 in
  let w := world_of [f0; f1] always_ok in
  let block := [[1; 2; 3]%Z] in
  (valid w (_runtime_filters this) /\
   1 ∈ _runtime_filters this /\
   heap w !! 1 = Some f1 /\
   exists ctx,
     _build_expr_context this !! Z.to_nat (to_size_t (_expr_order f1))
       = Some ctx /\
     (Z.of_nat (length block)
      <= to_size_t (get_last_result_column_id ctx))%Z) /\
  (exists i,
      (VRuntimeFilterSlots.insert this block w).1 = Crash (ExprOutOfRange i) \/
      (VRuntimeFilterSlots.insert this block w).1 = Crash (ColumnOutOfRange i)) /\
  Forall (fun e => ~ is_insert_batch_on 1 e)
    (emitted (VRuntimeFilterSlots.insert this block) w).
Proof.
  intros this f0 f1 w block.
  assert (H1 : valid w (_runtime_filters this)).
  { repeat constructor; eexists; reflexivity. }
  assert (H2 : 1 ∈ _runtime_filters this)
    by (apply list_elem_of_further, list_elem_of_here).
  assert (H3 : heap w !! 1 = Some f1) by reflexivity.
  assert (H4 : exists ctx,
             _build_expr_context this !! Z.to_nat (to_size_t (_expr_order f1))
               = Some ctx /\
             (Z.of_nat (length block)
              <= to_size_t (get_last_result_column_id ctx))%Z).
  { exists (mkVExprContext (-1)). split; [reflexivity |]. vm_compute.
    discriminate. }
  split; [repeat split; assumption |].
  exact (C10_lookup_before_flag_check this block w 1 f1 H1 H2 H3
           (or_intror H4)).
Defined.

(** ** Publication *)

Lemma publish_eq this state publish_local w :
  VRuntimeFilterSlots.publish this state publish_local w
  = match for_each (fun filter (_ : unit) =>
            RETURN_IF_ERROR
              (IRuntimeFilter.publish filter state publish_local)
              (VRuntimeFilterSlots.continue tt))
          (_runtime_filters this) tt w with
    | (Ret (Next _), w1) => (Ret OK, w1)
    | (Ret (Return e), w1) => (Ret e, w1)
    | (Crash e, w1) => (Crash e, w1)
    end.
Proof.
  unfold VRuntimeFilterSlots.publish, bind.
  destruct (for_each _ _ _ w) as [[[[] | e] | e] w1]; reflexivity.
Qed.

(** The loop of [publish]: when it runs to its end it has called the publish
    operation of every handle, in group order; it leaves early only with a
    status that is not OK. *)
Lemma publish_loop state publish_local :
  forall l w,
    let r := for_each (fun filter (_ : unit) =>
                RETURN_IF_ERROR
                  (IRuntimeFilter.publish filter state publish_local)
                  (VRuntimeFilterSlots.continue tt)) l tt w in
    match r.1 with
    | Ret (Next _) =>
        r.2 = set_trace
                (trace w ++ map (fun q => EvPublish q publish_local) l) w
    | Ret (Return st) => ok st = false
    | Crash _ => True
    end.
Proof.
  induction l as [| p l IH]; intros w; cbn zeta.
  - cbn. now rewrite set_trace_id.
  - cbn [for_each].
    destruct (heap w !! p) as [f |] eqn:Hp.
    2:{ run_body w (@Crash (Flow unit) (NullFilter p), w) ltac:(now exec Hp).
        exact I. }
    set (st := publish_result (env w) (trace w) p publish_local).
    set (w1 := set_trace (trace w ++ [EvPublish p publish_local]) w).
    destruct (ok st) eqn:Hok.
    + run_body w (Ret (Next tt), w1)
        ltac:(exec Hp; fold st; fold w1; now rewrite Hok).
      specialize (IH w1). cbn zeta in IH.
      destruct (for_each _ l tt w1) as [[[[] | e] | e] w2]; cbn in *;
        try assumption.
      rewrite IH. unfold set_trace. cbn. now rewrite <- app_assoc.
    + run_body w (Ret (@Return unit st), w1)
        ltac:(exec Hp; fold st; fold w1; now rewrite Hok).
      exact Hok.
Qed.

Lemma publish_ok this state publish_local w :
  (VRuntimeFilterSlots.publish this state publish_local w).1 = Ret OK ->
  emitted (VRuntimeFilterSlots.publish this state publish_local) w
  = map (fun q => EvPublish q publish_local) (_runtime_filters this).
Proof.
  intros Hok. apply emitted_app. revert Hok. rewrite publish_eq.
  pose proof (publish_loop state publish_local (_runtime_filters this) w) as H.
  cbn zeta in H.
  destruct (for_each _ _ _ w) as [[[[] | e] | e] w1]; cbn in *.
  - intros _. now rewrite H.
  - intros [= ->]. discriminate.
  - discriminate.
Qed.

(** C2 (amended): once the [ignored] or the [disabled] flag of a handle is
    set, then after any further sequence of coordinator calls [insert]
    appends no batch to that handle: both flags permanently suppress
    ingestion.  Publication is not suppressed: a [publish] that returns OK
    has called the publish operation of every handle of the group, that
    handle included. *)
Theorem C2_flags_suppress_ingestion_only :
  forall (calls : list (VRuntimeFilterSlots * Operation))
         (this : VRuntimeFilterSlots) (block : Block) (state : RuntimeState)
         (publish_local : bool) (w : World) (p : addr) (f : IRuntimeFilter),
    heap w !! p = Some f ->
    flagged f = true ->
    Forall (fun e => ~ is_insert_batch_on p e)
      (emitted (VRuntimeFilterSlots.insert this block) (run calls w)) /\
    (p ∈ _runtime_filters this ->
     (VRuntimeFilterSlots.publish this state publish_local (run calls w)).1
       = Ret OK ->
     EvPublish p publish_local
       ∈ emitted (VRuntimeFilterSlots.publish this state publish_local)
           (run calls w)).
Proof.
  intros calls this block state publish_local w p f Hp Hf. split.
  - destruct (evolves_heap _ _ (evolves_run calls w) p f Hp) as (f' & Hp' & G).
    assert (Hf' : flagged f' = true).
    { unfold flagged in *. apply orb_true_iff in Hf as [Hi | Hd].
      - now rewrite (grows_ignored _ _ G Hi).
      - rewrite (grows_disabled _ _ G Hd). apply orb_true_r. }
    eapply Forall_impl; [apply insert_emitted |]. cbn beta.
    intros ev (q & fq & column & -> & _ & Hq & Hfq & _) Hon.
    cbn in Hon. subst q. rewrite Hp' in Hq. injection Hq as <-. congruence.
  - intros Hin Hok. rewrite (publish_ok _ _ _ _ Hok).
    apply list_elem_of_fmap. now exists p.
Qed.

Lemma C2_flags_suppress_ingestion_only_witness :
  let this := mkVRuntimeFilterSlots [mkVExprContext 0] [0; 1] in
  let f0 := mkIRuntimeFilter 7 0 IN_FILTER IN_FILTER false true false 0 0 in
  let f1 := plain_filter 8 0 MINMAX_FILTER MINMAX_FILTER in
  let w := world_of [f0; f1] always_ok in
  let state := mkRuntimeState 1000 in
  let calls := [(this, InitFilters state 1500); (this, Insert [[4; 5]%Z])] in
  let block := [[1; 2; 3]%Z] in
  (heap w !! 0 = Some f0 /\ flagged f0 = true /\
   0 ∈ _runtime_filters this /\
   (VRuntimeFilterSlots.publish this state true (run calls w)).1 = Ret OK) /\
  Forall (fun e => ~ is_insert_batch_on 0 e)
    (emitted (VRuntimeFilterSlots.insert this block) (run calls w)) /\
  EvPublish 0 true
    ∈ emitted (VRuntimeFilterSlots.publish this state true) (run calls w).
Proof.
  intros this f0 f1 w state calls block.
  assert (H1 : heap w !! 0 = Some f0) by reflexivity.
  assert (H2 : flagged f0 = true) by reflexivity.
  assert (H3 : 0 ∈ _runtime_filters this) by apply list_elem_of_here.
  assert (H4 : (VRuntimeFilterSlots.publish this state true (run calls w)).1
               = Ret OK) by reflexivity.
  split; [repeat split; assumption |].
  destruct (C2_flags_suppress_ingestion_only calls this block state true w 0
              f0 H1 H2) as [Ha Hb].
  split; [exact Ha | exact (Hb H3 H4)].
Defined.

(** C2 as stated fails: [publish] does call the publish operation of a
    handle whose [ignored] flag is set. *)
Lemma C2_counterexample :
  ~ (forall (this : VRuntimeFilterSlots) (block : Block)
            (state : RuntimeState) (publish_local : bool) (w : World)
            (p : addr) (f : IRuntimeFilter),
        heap w !! p = Some f ->
        flagged f = true ->
        Forall (fun e => ~ is_insert_batch_on p e)
          (emitted (VRuntimeFilterSlots.insert this block) w) /\
        Forall (fun e => e <> EvPublish p publish_local)
          (emitted (VRuntimeFilterSlots.publish this state publish_local) w)).
Proof.
  intros H.
  pose (f := mkIRuntimeFilter 7 0 IN_FILTER IN_FILTER true false false 0 0).
  destruct (H (mkVRuntimeFilterSlots [mkVExprContext 0] [0]) [[1; 2; 3]%Z]
              (mkRuntimeState 1000) true (world_of [f] always_ok) 0 f
              eq_refl eq_refl) as [_ Hpub].
  change (Forall (fun e => e <> EvPublish 0 true) [EvPublish 0 true]) in Hpub.
  inversion Hpub as [| ? ? Hne _]. now apply Hne.
Qed.

(** ** Import from the shared context *)

Lemma copy_from_shared_context_eq this context w :
  VRuntimeFilterSlots.copy_from_shared_context this context w
  = match for_each (fun filter (_ : unit) =>
            filter_id <- IRuntimeFilter.filter_id filter ;;
            found <- runtime_filters_find context filter_id ;;
            match found with
            | None =>
                ret (Return (Aborted ("invalid runtime filter id: "
                                        +:+ pretty filter_id)))
            | Some second =>
                IRuntimeFilter.set_shared_context_ref filter second ;;;
                VRuntimeFilterSlots.continue tt
            end) (_runtime_filters this) tt w with
    | (Ret (Next _), w1) => (Ret OK, w1)
    | (Ret (Return e), w1) => (Ret e, w1)
    | (Crash e, w1) => (Crash e, w1)
    end.
Proof.
  unfold VRuntimeFilterSlots.copy_from_shared_context, bind.
  destruct (for_each _ _ _ w) as [[[[] | e] | e] w1]; reflexivity.
Qed.

(** The loop of [copy_from_shared_context] on a group whose first handle
    with an identity missing from the context is [p]: it stops at [p] with
    the lookup error, having replaced the reference of every handle before
    [p] and of no other. *)
Lemma import_loop context c p f l2 :
  runtime_filters c !! _filter_id f = None ->
  forall l1 w,
    shared w !! context = Some c ->
    (forall q, q ∈ l1 ->
       exists fq ref, heap w !! q = Some fq /\
                      runtime_filters c !! _filter_id fq = Some ref) ->
    heap w !! p = Some f ->
    exists h',
      for_each (fun filter (_ : unit) =>
          filter_id <- IRuntimeFilter.filter_id filter ;;
          found <- runtime_filters_find context filter_id ;;
          match found with
          | None =>
              ret (Return (Aborted ("invalid runtime filter id: "
                                      +:+ pretty filter_id)))
          | Some second =>
              IRuntimeFilter.set_shared_context_ref filter second ;;;
              VRuntimeFilterSlots.continue tt
          end) (l1 ++ p :: l2) tt w
      = (Ret (Return (Aborted ("invalid runtime filter id: "
                                 +:+ pretty (_filter_id f)))),
         set_heap h' w) /\
      (forall q, q ∉ l1 -> h' !! q = heap w !! q) /\
      (forall q fq, q ∈ l1 -> heap w !! q = Some fq ->
         exists ref, runtime_filters c !! _filter_id fq = Some ref /\
                     h' !! q = Some (with_shared_context ref fq)).
Proof.
  intros Hmiss. induction l1 as [| a l1 IH]; intros w Hc Hpre Hp.
  - exists (heap w). cbn [app for_each]. split; [| split].
    + run_body w (Ret (@Return unit
                         (Aborted ("invalid runtime filter id: "
                                     +:+ pretty (_filter_id f)))), w)
        ltac:(exec Hp; unfold runtime_filters_find; rewrite Hc; cbn;
              now rewrite Hmiss).
      now destruct w.
    + reflexivity.
    + intros q fq Hin. inversion Hin.
  - destruct (Hpre a (list_elem_of_here _ _)) as (fa & ra & Ha & Hra).
    set (w1 := set_heap (<[a := with_shared_context ra fa]> (heap w)) w).
    assert (Hne : p <> a).
    { intros ->. rewrite Ha in Hp. injection Hp as ->. congruence. }
    destruct (IH w1) as (h' & Hrun & Hout & Hin).
    { exact Hc. }
    { intros q Hq. cbn. destruct (decide (q = a)) as [-> | Hqa].
      - rewrite lookup_insert_eq. exists (with_shared_context ra fa), ra.
        split; [reflexivity | exact Hra].
      - rewrite lookup_insert_ne by congruence.
        apply Hpre. now apply list_elem_of_further. }
    { cbn. rewrite lookup_insert_ne by congruence. exact Hp. }
    exists h'. split; [| split].
    + cbn [app for_each].
      run_body w (Ret (Next tt), w1)
        ltac:(exec Ha; unfold runtime_filters_find; rewrite Hc; cbn;
              rewrite Hra; now rewrite Ha).
      exact Hrun.
    + intros q Hq. apply not_elem_of_cons in Hq as [Hqa Hq].
      rewrite (Hout q Hq). cbn. now rewrite lookup_insert_ne by congruence.
    + intros q fq Hq Hfq. destruct (decide (q = a)) as [-> | Hqa].
      * replace fq with fa by congruence. exists ra. split; [exact Hra |].
        destruct (decide (a ∈ l1)) as [Hal | Hal].
        -- destruct (Hin a (with_shared_context ra fa) Hal) as (ref & Href & Hh).
           { cbn. now rewrite lookup_insert_eq. }
           cbn in Href. rewrite Hra in Href. injection Href as <-.
           exact Hh.
        -- rewrite (Hout a Hal). cbn. now rewrite lookup_insert_eq.
      * apply elem_of_cons in Hq as [-> | Hq]; [congruence |].
        apply (Hin q fq Hq). cbn. now rewrite lookup_insert_ne by congruence.
Qed.

(** C3 (amended): when some handle's identity is absent from the shared
    context, [copy_from_shared_context] returns the lookup error that names
    the first such identity in group order.  The import is partial: the
    handles before that one have had their state reference replaced by the
    shared one; that handle and every handle that does not occur before it
    keep theirs, and nothing else in the world changes. *)
Theorem C3_import_stops_at_first_missing :
  forall (this : VRuntimeFilterSlots) (context : addr)
         (c : SharedHashTableContext) (w : World)
         (l1 l2 : list addr) (p : addr) (f : IRuntimeFilter),
    _runtime_filters this = l1 ++ p :: l2 ->
    shared w !! context = Some c ->
    (forall q, q ∈ l1 ->
       exists fq ref, heap w !! q = Some fq /\
                      runtime_filters c !! _filter_id fq = Some ref) ->
    heap w !! p = Some f ->
    runtime_filters c !! _filter_id f = None ->
    let r := VRuntimeFilterSlots.copy_from_shared_context this context w in
    r.1 = Ret (Aborted ("invalid runtime filter id: "
                          +:+ pretty (_filter_id f))) /\
    (forall q fq, q ∈ l1 -> heap w !! q = Some fq ->
       exists ref, runtime_filters c !! _filter_id fq = Some ref /\
                   heap r.2 !! q = Some (with_shared_context ref fq)) /\
    (forall q, q ∉ l1 -> heap r.2 !! q = heap w !! q) /\
    shared r.2 = shared w /\ trace r.2 = trace w.
Proof.
  intros this context c w l1 l2 p f Hl Hc Hpre Hp Hmiss r. subst r.
  rewrite copy_from_shared_context_eq, Hl.
  destruct (import_loop context c p f l2 Hmiss l1 w Hc Hpre Hp)
    as (h' & Hrun & Hout & Hin).
  rewrite Hrun. cbn. repeat split; assumption.
Qed.

Lemma C3_import_stops_at_first_missing_witness :
  let this := mkVRuntimeFilterSlots [mkVExprContext 0] [0; 1] in
  let f0 := plain_filter 7 0 IN_FILTER IN_FILTER in
  let f1 := plain_filter 8 0 MINMAX_FILTER MINMAX_FILTER in
  let c := mkSharedHashTableContext {[ 7%Z := 99 ]} in
  let w := sharing 5 {[ 7%Z := 99 ]} (world_of [f0; f1] always_ok) in
  let r := VRuntimeFilterSlots.copy_from_shared_context this 5 w in
  (_runtime_filters this = [0] ++ 1 :: [] /\
   shared w !! 5 = Some c /\
   (forall q, q ∈ [0] ->
      exists fq ref, heap w !! q = Some fq /\
                     runtime_filters c !! _filter_id fq = Some ref) /\
   heap w !! 1 = Some f1 /\
   runtime_filters c !! _filter_id f1 = None) /\
  r.1 = Ret (Aborted "invalid runtime filter id: 8") /\
  (forall q fq, q ∈ [0] -> heap w !! q = Some fq ->
     exists ref, runtime_filters c !! _filter_id fq = Some ref /\
                 heap r.2 !! q = Some (with_shared_context ref fq)) /\
  (forall q, q ∉ [0] -> heap r.2 !! q = heap w !! q) /\
  shared r.2 = shared w /\ trace r.2 = trace w.
Proof.
  intros this f0 f1 c w r.
  assert (H1 : _runtime_filters this = [0] ++ 1 :: []) by reflexivity.
  assert (H2 : shared w !! 5 = Some c) by reflexivity.
  assert (H3 : forall q, q ∈ [0] ->
             exists fq ref, heap w !! q = Some fq /\
                            runtime_filters c !! _filter_id fq = Some ref).
  { intros q Hq. apply list_elem_of_singleton in Hq as ->.
    exists f0, 99. split; reflexivity. }
  assert (H4 : heap w !! 1 = Some f1) by reflexivity.
  assert (H5 : runtime_filters c !! _filter_id f1 = None) by reflexivity.
  split; [repeat split; assumption |].
  exact (C3_import_stops_at_first_missing this 5 c w [0] [] 1 f1
           H1 H2 H3 H4 H5).
Defined.

(** C3 as stated fails: an import that fails on the second handle has
    already replaced the state reference of the first. *)
Lemma C3_counterexample :
  ~ (forall (this : VRuntimeFilterSlots) (context : addr)
            (c : SharedHashTableContext) (w : World),
        shared w !! context = Some c ->
        valid w (_runtime_filters this) ->
        (exists p f, p ∈ _runtime_filters this /\ heap w !! p = Some f /\
                     runtime_filters c !! _filter_id f = None) ->
        let r := VRuntimeFilterSlots.copy_from_shared_context this context w in
        (exists msg, r.1 = Ret (Aborted msg)) /\
        forall q fq, heap w !! q = Some fq ->
          exists fq', heap r.2 !! q = Some fq' /\
                      _shared_context fq' = _shared_context fq).
Proof.
  intros H.
  pose (f0 := plain_filter 7 0 IN_FILTER IN_FILTER).
  pose (f1 := plain_filter 8 0 MINMAX_FILTER MINMAX_FILTER).
  pose (w := sharing 5 {[ 7%Z := 99 ]} (world_of [f0; f1] always_ok)).
  destruct (H (mkVRuntimeFilterSlots [mkVExprContext 0] [0; 1]) 5
              (mkSharedHashTableContext {[ 7%Z := 99 ]}) w eq_refl)
    as [_ Hkeep].
  - repeat constructor; eexists; reflexivity.
  - exists 1, f1. split; [| split; reflexivity].
    apply list_elem_of_further, list_elem_of_here.
  - destruct (Hkeep 0 f0 eq_refl) as (f0' & Hf0' & Href).
    vm_compute in Hf0'. injection Hf0' as <-. discriminate Href.
Qed.

(** ** Running the member functions of a handle *)

Lemma bind_assoc {A B C} (m : M A) (k : A -> M B) (h : B -> M C) w :
  bind (bind m k) h w = bind m (fun a => bind (k a) h) w.
Proof. unfold bind. destruct (m w) as [[a | e] w1]; reflexivity. Qed.

Section Handle.

Variables (w : World) (p : addr) (f : IRuntimeFilter).
Hypothesis Hp : heap w !! p = Some f.

Lemma filter_id_run :
  IRuntimeFilter.filter_id p w = (Ret (_filter_id f), w).
Proof. now exec Hp. Qed.

Lemma expr_order_run :
  IRuntimeFilter.expr_order p w = (Ret (_expr_order f), w).
Proof. now exec Hp. Qed.

Lemma type_run :
  IRuntimeFilter.type p w = (Ret (_runtime_filter_type f), w).
Proof. now exec Hp. Qed.

Lemma get_real_type_run :
  IRuntimeFilter.get_real_type p w = (Ret (_real_type f), w).
Proof. now exec Hp. Qed.

Lemma get_ignored_run :
  IRuntimeFilter.get_ignored p w = (Ret (_ignored f), w).
Proof. now exec Hp. Qed.

Lemma get_disabled_run :
  IRuntimeFilter.get_disabled p w = (Ret (_disabled f), w).
Proof. now exec Hp. Qed.

Lemma need_sync_filter_size_run :
  IRuntimeFilter.need_sync_filter_size p w
  = (Ret (_need_sync_filter_size f), w).
Proof. now exec Hp. Qed.

Lemma get_real_size_run n :
  VRuntimeFilterSlots.get_real_size p n w
  = (Ret (if _need_sync_filter_size f then _synced_size f else n), w).
Proof.
  exec Hp. destruct (_need_sync_filter_size f); [| reflexivity].
  now rewrite Hp.
Qed.

Lemma set_disabled_run :
  IRuntimeFilter.set_disabled p w
  = (Ret tt, set_heap (<[p := with_disabled f]> (heap w)) w).
Proof. now exec Hp. Qed.

Lemma set_ignored_run :
  IRuntimeFilter.set_ignored p w
  = (Ret tt, set_heap (<[p := with_ignored f]> (heap w)) w).
Proof. now exec Hp. Qed.

Lemma change_to_bloom_filter_run :
  IRuntimeFilter.change_to_bloom_filter p w
  = let st := change_to_bloom_filter_result (env w) (trace w) p in
    let w1 := set_trace (trace w ++ [EvChangeToBloomFilter p]) w in
    (Ret st,
     if ok st
     then set_heap (<[p := with_real_type BLOOM_FILTER f]> (heap w1)) w1
     else w1).
Proof.
  exec Hp. cbn zeta.
  now destruct (ok (change_to_bloom_filter_result _ _ _)).
Qed.

Lemma init_bloom_filter_run size :
  IRuntimeFilter.init_bloom_filter p size w
  = (Ret (init_bloom_filter_result (env w) (trace w) p size),
     set_trace (trace w ++ [EvInitBloomFilter p size]) w).
Proof. now exec Hp. Qed.

End Handle.

(** Run the next member function call of the handle described by [Hp]. *)
Ltac call Hp :=
  first
    [ rewrite bind_assoc
    | rewrite bind_ret_l
    | rewrite (bind_eq _ _ _ _ (get_ignored_run _ _ _ Hp))
    | rewrite (bind_eq _ _ _ _ (get_disabled_run _ _ _ Hp))
    | rewrite (bind_eq _ _ _ _ (get_real_type_run _ _ _ Hp))
    | rewrite (bind_eq _ _ _ _ (type_run _ _ _ Hp))
    | rewrite (bind_eq _ _ _ _ (expr_order_run _ _ _ Hp))
    | rewrite (bind_eq _ _ _ _ (filter_id_run _ _ _ Hp))
    | rewrite (bind_eq _ _ _ _ (need_sync_filter_size_run _ _ _ Hp))
    | rewrite (bind_eq _ _ _ _ (get_real_size_run _ _ _ Hp _))
    | rewrite (bind_eq _ _ _ _ (set_disabled_run _ _ _ Hp))
    | rewrite (bind_eq _ _ _ _ (set_ignored_run _ _ _ Hp))
    | rewrite (bind_eq _ _ _ _ (change_to_bloom_filter_run _ _ _ Hp))
    | rewrite (bind_eq _ _ _ _ (init_bloom_filter_run _ _ _ Hp _)) ];
  cbn beta iota zeta delta [ok].

Ltac calls Hp := repeat call Hp.

(** ** Materialization *)

(** One turn of the loop of [init_filters] on a handle that is not null. *)
Lemma init_body state n p f w :
  heap w !! p = Some f ->
  (ig <- IRuntimeFilter.get_ignored p ;;
   if ig then VRuntimeFilterSlots.continue tt else
   over <- andM (ty <- IRuntimeFilter.type p ;;
                 ret (bool_decide (ty = IN_OR_BLOOM_FILTER)))
                (size <- VRuntimeFilterSlots.get_real_size p n ;;
                 ret (runtime_filter_max_in_num state <? size)%N) ;;
   RETURN_IF_ERROR
     (if over then IRuntimeFilter.change_to_bloom_filter p else ret OK)
     (real <- IRuntimeFilter.get_real_type p ;;
      if bool_decide (real = BLOOM_FILTER)
      then RETURN_IF_ERROR
             (size <- VRuntimeFilterSlots.get_real_size p n ;;
              IRuntimeFilter.init_bloom_filter p size)
             (VRuntimeFilterSlots.continue tt)
      else VRuntimeFilterSlots.continue tt)) w
  = if _ignored f then (Ret (Next tt), w) else
    let size := real_size f n in
    let allocate (w0 : World) :=
      let st := init_bloom_filter_result (env w0) (trace w0) p size in
      (Ret (if ok st then Next tt else Return st),
       set_trace (trace w0 ++ [EvInitBloomFilter p size]) w0) in
    if over_threshold state f n
    then
      let st := change_to_bloom_filter_result (env w) (trace w) p in
      let w1 := set_trace (trace w ++ [EvChangeToBloomFilter p]) w in
      if ok st
      then allocate
             (set_heap (<[p := with_real_type BLOOM_FILTER f]> (heap w1)) w1)
      else (Ret (Return st), w1)
    else
      if bool_decide (_real_type f = BLOOM_FILTER)
      then allocate w
      else (Ret (Next tt), w).
Proof.
  intros Hp. unfold over_threshold, real_size, andM, RETURN_IF_ERROR,
    VRuntimeFilterSlots.continue.
  call Hp. destruct (_ignored f); [reflexivity |].
  calls Hp.
  destruct (bool_decide (_runtime_filter_type f = IN_OR_BLOOM_FILTER));
    cbn [andb]; calls Hp.
  - destruct (_ <? _)%N.
    + calls Hp. cbn zeta.
      destruct (ok (change_to_bloom_filter_result _ _ _)); [| reflexivity].
      match goal with
      | |- context [set_heap (<[p := ?g]> ?h) ?w1] =>
          assert (Hp' : heap (set_heap (<[p := g]> h) w1) !! p = Some g)
            by apply lookup_insert_eq
      end.
      calls Hp'. cbn [_real_type with_real_type].
      rewrite (bool_decide_eq_true_2 _ (eq_refl BLOOM_FILTER)).
      calls Hp'. cbn.
      destruct (ok (init_bloom_filter_result _ _ _ _)); reflexivity.
    + calls Hp.
      destruct (bool_decide (_real_type f = BLOOM_FILTER)); [| reflexivity].
      calls Hp. cbn zeta.
      destruct (ok (init_bloom_filter_result _ _ _ _)); reflexivity.
  - destruct (bool_decide (_real_type f = BLOOM_FILTER)); [| reflexivity].
    calls Hp. cbn zeta.
    destruct (ok (init_bloom_filter_result _ _ _ _)); reflexivity.
Qed.

(** A turn that goes on to the next handle: what it did to the handle. *)
Lemma init_body_next state n a fa w w1 :
  heap w !! a = Some fa ->
  (ig <- IRuntimeFilter.get_ignored a ;;
   if ig then VRuntimeFilterSlots.continue tt else
   over <- andM (ty <- IRuntimeFilter.type a ;;
                 ret (bool_decide (ty = IN_OR_BLOOM_FILTER)))
                (size <- VRuntimeFilterSlots.get_real_size a n ;;
                 ret (runtime_filter_max_in_num state <? size)%N) ;;
   RETURN_IF_ERROR
     (if over then IRuntimeFilter.change_to_bloom_filter a else ret OK)
     (real <- IRuntimeFilter.get_real_type a ;;
      if bool_decide (real = BLOOM_FILTER)
      then RETURN_IF_ERROR
             (size <- VRuntimeFilterSlots.get_real_size a n ;;
              IRuntimeFilter.init_bloom_filter a size)
             (VRuntimeFilterSlots.continue tt)
      else VRuntimeFilterSlots.continue tt)) w = (Ret (Next tt), w1) ->
  exists ta fa1,
    trace w1 = trace w ++ ta /\
    heap w1 = <[a := fa1]> (heap w) /\
    (fa1 = fa \/
     (over_threshold state fa n = true /\
      fa1 = with_real_type BLOOM_FILTER fa)) /\
    (_ignored fa = false ->
     (over_threshold state fa n = true -> _real_type fa1 = BLOOM_FILTER) /\
     (_real_type fa1 = BLOOM_FILTER ->
      EvInitBloomFilter a (real_size fa n) ∈ ta)).
Proof.
  intros Ha. rewrite (init_body state n a fa w Ha).
  assert (Hid : heap w = <[a := fa]> (heap w)) by now rewrite insert_id.
  destruct (_ignored fa) eqn:Hig.
  { intros [= <-]. exists [], fa. rewrite app_nil_r.
    repeat split; auto; discriminate. }
  cbn zeta. destruct (over_threshold state fa n) eqn:Hover.
  - destruct (ok (change_to_bloom_filter_result _ _ _)); [| discriminate].
    destruct (ok (init_bloom_filter_result _ _ _ _)); [| discriminate].
    intros [= <-].
    exists [EvChangeToBloomFilter a; EvInitBloomFilter a (real_size fa n)],
      (with_real_type BLOOM_FILTER fa).
    cbn. rewrite <- app_assoc. repeat split; auto.
    intros _. apply list_elem_of_further, list_elem_of_here.
  - case_bool_decide as Hreal.
    + destruct (ok (init_bloom_filter_result _ _ _ _)); [| discriminate].
      intros [= <-]. exists [EvInitBloomFilter a (real_size fa n)], fa.
      cbn. repeat split; auto; try discriminate.
      intros _. apply list_elem_of_here.
    + intros [= <-]. exists [], fa. rewrite app_nil_r.
      repeat split; auto; try discriminate. intros Hb. now destruct Hreal.
Qed.

(** The loop of [init_filters] when it runs to its end. *)
Lemma init_loop state n :
  forall l w w',
    for_each (fun filter (_ : unit) =>
        ig <- IRuntimeFilter.get_ignored filter ;;
        if ig then VRuntimeFilterSlots.continue tt else
        over <- andM (ty <- IRuntimeFilter.type filter ;;
                      ret (bool_decide (ty = IN_OR_BLOOM_FILTER)))
                     (size <- VRuntimeFilterSlots.get_real_size filter n ;;
                      ret (runtime_filter_max_in_num state <? size)%N) ;;
        RETURN_IF_ERROR
          (if over then IRuntimeFilter.change_to_bloom_filter filter
           else ret OK)
          (real <- IRuntimeFilter.get_real_type filter ;;
           if bool_decide (real = BLOOM_FILTER)
           then RETURN_IF_ERROR
                  (size <- VRuntimeFilterSlots.get_real_size filter n ;;
                   IRuntimeFilter.init_bloom_filter filter size)
                  (VRuntimeFilterSlots.continue tt)
           else VRuntimeFilterSlots.continue tt)) l tt w
    = (Ret (Next tt), w') ->
    exists t,
      trace w' = trace w ++ t /\
      forall q g, heap w !! q = Some g ->
        exists g',
          heap w' !! q = Some g' /\
          (g' = g \/
           (over_threshold state g n = true /\
            g' = with_real_type BLOOM_FILTER g)) /\
          (q ∈ l -> _ignored g = false ->
           (over_threshold state g n = true -> _real_type g' = BLOOM_FILTER) /\
           (_real_type g' = BLOOM_FILTER ->
            EvInitBloomFilter q (real_size g n) ∈ t)).
Proof.
  induction l as [| a l IH]; intros w w' Hrun.
  - cbn in Hrun. injection Hrun as <-. exists []. rewrite app_nil_r.
    split; [reflexivity |]. intros q g Hq. exists g.
    split; [exact Hq |]. split; [now left |]. intros Hin. inversion Hin.
  - cbn [for_each] in Hrun.
    destruct (heap w !! a) as [fa |] eqn:Ha.
    2:{ rewrite (bind_eq _ _ w (Crash (NullFilter a), w)) in Hrun
          by now exec Ha.
        discriminate. }
    match type of Hrun with
    | bind ?m ?k w = _ =>
        destruct (m w) as [[[[] | st] | e] w1] eqn:Hbody;
        rewrite (bind_eq m k w _ Hbody) in Hrun; try discriminate
    end.
    destruct (init_body_next state n a fa w w1 Ha Hbody)
      as (ta & fa1 & Hta & Hheap & Hfa1 & Hdone).
    destruct (IH w1 w' Hrun) as (t' & Ht' & Hall).
    exists (ta ++ t'). split; [rewrite Ht', Hta; now rewrite app_assoc |].
    intros q g Hq. destruct (decide (q = a)) as [-> | Hne].
    + replace g with fa in * by congruence.
      destruct (Hall a fa1) as (g' & Hg' & Hrel & Hin').
      { rewrite Hheap. apply lookup_insert_eq. }
      exists g'. split; [exact Hg' |].
      assert (Hover : over_threshold state fa1 n = over_threshold state fa n).
      { destruct Hfa1 as [-> | [_ ->]]; reflexivity. }
      assert (Hbloom : _real_type fa1 = BLOOM_FILTER ->
                       _real_type g' = BLOOM_FILTER).
      { intros Hb. destruct Hrel as [-> | [_ ->]]; [exact Hb | reflexivity]. }
      split.
      * destruct Hfa1 as [-> | [Ho ->]]; [exact Hrel |].
        right. split; [exact Ho |].
        destruct Hrel as [-> | [_ ->]]; reflexivity.
      * intros _ Hig. destruct (Hdone Hig) as [Hd1 Hd2]. split.
        -- intros Ho. apply Hbloom, Hd1, Ho.
        -- intros Hb. apply elem_of_app.
           destruct (decide (_real_type fa1 = BLOOM_FILTER)) as [Hb1 | Hb1].
           ++ left. apply Hd2, Hb1.
           ++ destruct Hrel as [-> | [Ho ->]]; [contradiction |].
              rewrite Hover in Ho. destruct Hb1. apply Hd1, Ho.
    + destruct (Hall q g) as (g' & Hg' & Hrel & Hin').
      { rewrite Hheap. now rewrite lookup_insert_ne by congruence. }
      exists g'. split; [exact Hg' |]. split; [exact Hrel |].
      intros Hin Hig. apply elem_of_cons in Hin as [-> | Hin]; [congruence |].
      destruct (Hin' Hin Hig) as [H1 H2]. split; [exact H1 |].
      intros Hb. apply elem_of_app. right. apply H2, Hb.
Qed.

(** A loop leaves its function early only the way its body does. *)
Lemma for_each_return {A S} (body : A -> S -> M (Flow S)) l :
  (forall a s w st w1, body a s w = (Ret (Return st), w1) -> ok st = false) ->
  forall s w st w1,
    for_each body l s w = (Ret (Return st), w1) -> ok st = false.
Proof.
  intros Hbody. induction l as [| a l IH]; intros s w st w1; cbn [for_each].
  - discriminate.
  - unfold bind at 1.
    destruct (body a s w) as [[[s' | e] | e] w2] eqn:Hb; try discriminate.
    + apply IH.
    + intros [= -> ->]. eapply Hbody, Hb.
Qed.

Lemma init_filters_eq this state n w :
  VRuntimeFilterSlots.init_filters this state n w
  = match for_each (fun filter (_ : unit) =>
        ig <- IRuntimeFilter.get_ignored filter ;;
        if ig then VRuntimeFilterSlots.continue tt else
        over <- andM (ty <- IRuntimeFilter.type filter ;;
                      ret (bool_decide (ty = IN_OR_BLOOM_FILTER)))
                     (size <- VRuntimeFilterSlots.get_real_size filter n ;;
                      ret (runtime_filter_max_in_num state <? size)%N) ;;
        RETURN_IF_ERROR
          (if over then IRuntimeFilter.change_to_bloom_filter filter
           else ret OK)
          (real <- IRuntimeFilter.get_real_type filter ;;
           if bool_decide (real = BLOOM_FILTER)
           then RETURN_IF_ERROR
                  (size <- VRuntimeFilterSlots.get_real_size filter n ;;
                   IRuntimeFilter.init_bloom_filter filter size)
                  (VRuntimeFilterSlots.continue tt)
           else VRuntimeFilterSlots.continue tt))
        (_runtime_filters this) tt w with
    | (Ret (Next _), w1) => (Ret OK, w1)
    | (Ret (Return e), w1) => (Ret e, w1)
    | (Crash e, w1) => (Crash e, w1)
    end.
Proof.
  unfold VRuntimeFilterSlots.init_filters, bind.
  destruct (for_each _ _ _ w) as [[[[] | e] | e] w1]; reflexivity.
Qed.

(** C5: in an [init_filters] that returns OK, for every handle of the group
    that is not ignored, with [size] its resolved size (the synced size when
    it needs size sync, else the local cardinality): if its declared type is
    the hybrid one and [size] exceeds the configured threshold, its
    effective type has become the bloom filter; if its declared type is the
    hybrid one and [size] is at most the threshold, its effective type is
    what it was; and if its effective type is now the bloom filter,
    [init_bloom_filter] has been called on it with [size]. *)
Theorem C5_materialize_threshold :
  forall (this : VRuntimeFilterSlots) (state : RuntimeState)
         (local_hash_table_size : N) (w w' : World)
         (p : addr) (f : IRuntimeFilter) (size : N),
    VRuntimeFilterSlots.init_filters this state local_hash_table_size w
      = (Ret OK, w') ->
    p ∈ _runtime_filters this ->
    heap w !! p = Some f ->
    _ignored f = false ->
    (VRuntimeFilterSlots.get_real_size p local_hash_table_size w).1
      = Ret size ->
    exists f',
      heap w' !! p = Some f' /\
      (_runtime_filter_type f = IN_OR_BLOOM_FILTER ->
       (runtime_filter_max_in_num state < size)%N ->
       _real_type f' = BLOOM_FILTER) /\
      (_runtime_filter_type f = IN_OR_BLOOM_FILTER ->
       (size <= runtime_filter_max_in_num state)%N ->
       _real_type f' = _real_type f) /\
      (_real_type f' = BLOOM_FILTER ->
       EvInitBloomFilter p size
         ∈ emitted (VRuntimeFilterSlots.init_filters this state
                      local_hash_table_size) w).
Proof.
  intros this state n w w' p f size Hrun Hin Hp Hig Hsize.
  rewrite (get_real_size_run _ _ _ Hp) in Hsize. cbn in Hsize.
  injection Hsize as Hsize. fold (real_size f n) in Hsize. subst size.
  assert (Hem : forall t, trace w' = trace w ++ t ->
                emitted (VRuntimeFilterSlots.init_filters this state n) w = t).
  { intros t Ht. apply emitted_app. now rewrite Hrun. }
  rewrite init_filters_eq in Hrun.
  destruct (for_each _ _ _ w) as [[[[] | e] | e] w1] eqn:Hloop;
    try discriminate.
  2:{ injection Hrun as -> _.
      apply for_each_return in Hloop; [discriminate |].
      intros a [] w0 st w2. destruct (heap w0 !! a) as [fa |] eqn:Ha.
      - rewrite (init_body state n a fa w0 Ha).
        destruct (_ignored fa); [discriminate |]. cbn zeta.
        destruct (over_threshold state fa n).
        + destruct (ok (change_to_bloom_filter_result _ _ _)) eqn:H1.
          * destruct (ok (init_bloom_filter_result _ _ _ _)) eqn:H2;
              [discriminate | now intros [= <- _]].
          * now intros [= <- _].
        + case_bool_decide; [| discriminate].
          destruct (ok (init_bloom_filter_result _ _ _ _)) eqn:H2;
            [discriminate | now intros [= <- _]].
      - exec Ha. discriminate. }
  injection Hrun as <-.
  destruct (init_loop state n _ w w1 Hloop) as (t & Ht & Hall).
  destruct (Hall p f Hp) as (f' & Hp' & Hrel & Hdone).
  destruct (Hdone Hin Hig) as [Hover Halloc].
  exists f'. split; [exact Hp' |]. split; [| split].
  - intros Hty Hlt. apply Hover. unfold over_threshold.
    rewrite (bool_decide_eq_true_2 _ Hty). cbn.
    now apply N.ltb_lt.
  - intros Hty Hle. destruct Hrel as [-> | [Ho _]]; [reflexivity |].
    unfold over_threshold in Ho. apply andb_true_iff in Ho as [_ Ho].
    apply N.ltb_lt in Ho. lia.
  - intros Hb. rewrite (Hem t Ht). apply Halloc, Hb.
Qed.

Lemma C5_materialize_threshold_witness :
  let this := mkVRuntimeFilterSlots [mkVExprContext 0] [0; 1] in
  let f0 := mkIRuntimeFilter 7 0 IN_OR_BLOOM_FILTER IN_FILTER false false true 4500 0 in
  let f1 := plain_filter 8 0 IN_OR_BLOOM_FILTER IN_FILTER in
  let w := world_of [f0; f1] always_ok in
  let state := mkRuntimeState 1000 in
  let w' := (VRuntimeFilterSlots.init_filters this state 900 w).2 in
  (VRuntimeFilterSlots.init_filters this state 900 w = (Ret OK, w') /\
   0 ∈ _runtime_filters this /\
   heap w !! 0 = Some f0 /\
   _ignored f0 = false /\
   (VRuntimeFilterSlots.get_real_size 0 900 w).1 = Ret 4500%N) /\
  exists f',
    heap w' !! 0 = Some f' /\
    (_runtime_filter_type f0 = IN_OR_BLOOM_FILTER ->
     (runtime_filter_max_in_num state < 4500)%N ->
     _real_type f' = BLOOM_FILTER) /\
    (_runtime_filter_type f0 = IN_OR_BLOOM_FILTER ->
     (4500 <= runtime_filter_max_in_num state)%N ->
     _real_type f' = _real_type f0) /\
    (_real_type f' = BLOOM_FILTER ->
     EvInitBloomFilter 0 4500
       ∈ emitted (VRuntimeFilterSlots.init_filters this state 900) w).
Proof.
  intros this f0 f1 w state w'.
  assert (H1 : VRuntimeFilterSlots.init_filters this state 900 w = (Ret OK, w'))
    by reflexivity.
  assert (H2 : 0 ∈ _runtime_filters this) by apply list_elem_of_here.
  assert (H3 : heap w !! 0 = Some f0) by reflexivity.
  assert (H4 : _ignored f0 = false) by reflexivity.
  assert (H5 : (VRuntimeFilterSlots.get_real_size 0 900 w).1 = Ret 4500%N)
    by reflexivity.
  split; [repeat split; assumption |].
  exact (C5_materialize_threshold this state 900 w w' 0 f0 4500
           H1 H2 H3 H4 H5).
Defined.

(** ** Redundancy pruning *)

(** One turn of the first loop on a handle that is not null. *)
Lemma duplicate_body p f (s : gset Z) w :
  heap w !! p = Some f ->
  (skip <- orM (IRuntimeFilter.get_ignored p) (IRuntimeFilter.get_disabled p) ;;
   if skip then VRuntimeFilterSlots.continue s else
   real <- IRuntimeFilter.get_real_type p ;;
   if bool_decide (real <> IN_FILTER) then VRuntimeFilterSlots.continue s else
   skip <- andM (b <- IRuntimeFilter.need_sync_filter_size p ;; ret (negb b))
                (ty <- IRuntimeFilter.type p ;;
                 ret (bool_decide (ty = IN_OR_BLOOM_FILTER))) ;;
   if skip then VRuntimeFilterSlots.continue s else
   order <- IRuntimeFilter.expr_order p ;;
   if bool_decide (order ∈ s)
   then (IRuntimeFilter.set_disabled p ;;; VRuntimeFilterSlots.continue s)
   else VRuntimeFilterSlots.continue ({[order]} ∪ s)) w
  = if counted f
    then if bool_decide (_expr_order f ∈ s)
         then (Ret (Next s), set_heap (<[p := with_disabled f]> (heap w)) w)
         else (Ret (Next ({[_expr_order f]} ∪ s)), w)
    else (Ret (Next s), w).
Proof.
  intros Hp. unfold counted, active, orM, andM, VRuntimeFilterSlots.continue.
  calls Hp. destruct (_ignored f); calls Hp; [reflexivity |].
  destruct (_disabled f); calls Hp; [reflexivity |].
  cbn [negb andb].
  case_bool_decide as Hreal.
  - rewrite bool_decide_eq_false_2 by exact Hreal. reflexivity.
  - rewrite (bool_decide_eq_true_2 _ Hreal).
    calls Hp. cbn [andb].
    destruct (_need_sync_filter_size f); cbn [negb andb]; calls Hp.
    + destruct (bool_decide (_expr_order f ∈ s)); calls Hp; reflexivity.
    + destruct (bool_decide (_runtime_filter_type f = IN_OR_BLOOM_FILTER));
        cbn [negb]; calls Hp; [reflexivity |].
      destruct (bool_decide (_expr_order f ∈ s)); calls Hp; reflexivity.
Qed.

(** One turn of the second loop on a handle that is not null. *)
Lemma dominated_body p f (s : gset Z) w :
  heap w !! p = Some f ->
  (skip <- orM (IRuntimeFilter.get_ignored p) (IRuntimeFilter.get_disabled p) ;;
   if skip then VRuntimeFilterSlots.continue tt else
   skip <- orM (real <- IRuntimeFilter.get_real_type p ;;
                ret (bool_decide (real = IN_FILTER)))
               (order <- IRuntimeFilter.expr_order p ;;
                ret (negb (bool_decide (order ∈ s)))) ;;
   if skip then VRuntimeFilterSlots.continue tt else
   IRuntimeFilter.set_disabled p ;;; VRuntimeFilterSlots.continue tt) w
  = if dominated s f
    then (Ret (Next tt), set_heap (<[p := with_disabled f]> (heap w)) w)
    else (Ret (Next tt), w).
Proof.
  intros Hp. unfold dominated, active, orM, VRuntimeFilterSlots.continue.
  calls Hp. destruct (_ignored f); calls Hp; [reflexivity |].
  destruct (_disabled f); calls Hp; [reflexivity |].
  cbn [negb andb].
  destruct (bool_decide (_real_type f = IN_FILTER)); calls Hp;
    [reflexivity |].
  cbn [negb andb].
  destruct (bool_decide (_expr_order f ∈ s)); cbn [negb]; calls Hp;
    reflexivity.
Qed.

Lemma set_heap_id w : set_heap (heap w) w = w.
Proof. now destruct w. Qed.

Lemma set_heap_insert_id w p f :
  heap w !! p = Some f -> set_heap (<[p := f]> (heap w)) w = w.
Proof. intros Hp. rewrite insert_id by exact Hp. apply set_heap_id. Qed.

(** The same turn, as one update of the set and one of the heap. *)
Lemma duplicate_turn p f (s : gset Z) w :
  heap w !! p = Some f ->
  (skip <- orM (IRuntimeFilter.get_ignored p) (IRuntimeFilter.get_disabled p) ;;
   if skip then VRuntimeFilterSlots.continue s else
   real <- IRuntimeFilter.get_real_type p ;;
   if bool_decide (real <> IN_FILTER) then VRuntimeFilterSlots.continue s else
   skip <- andM (b <- IRuntimeFilter.need_sync_filter_size p ;; ret (negb b))
                (ty <- IRuntimeFilter.type p ;;
                 ret (bool_decide (ty = IN_OR_BLOOM_FILTER))) ;;
   if skip then VRuntimeFilterSlots.continue s else
   order <- IRuntimeFilter.expr_order p ;;
   if bool_decide (order ∈ s)
   then (IRuntimeFilter.set_disabled p ;;; VRuntimeFilterSlots.continue s)
   else VRuntimeFilterSlots.continue ({[order]} ∪ s)) w
  = (Ret (Next (if counted f then {[_expr_order f]} ∪ s else s)),
     set_heap
       (<[p := if counted f && bool_decide (_expr_order f ∈ s)
               then with_disabled f else f]> (heap w)) w).
Proof.
  intros Hp. rewrite (duplicate_body p f s w Hp).
  destruct (counted f); cbn [andb].
  - case_bool_decide as Hin.
    + assert (Heq : {[_expr_order f]} ∪ s = s).
      { apply set_eq. intros x. rewrite elem_of_union, elem_of_singleton.
        split; [intros [-> | Hx]; assumption | now right]. }
      now rewrite Heq.
    + now rewrite (set_heap_insert_id w p f Hp).
  - now rewrite (set_heap_insert_id w p f Hp).
Qed.

Lemma dominated_turn p f (s : gset Z) w :
  heap w !! p = Some f ->
  (skip <- orM (IRuntimeFilter.get_ignored p) (IRuntimeFilter.get_disabled p) ;;
   if skip then VRuntimeFilterSlots.continue tt else
   skip <- orM (real <- IRuntimeFilter.get_real_type p ;;
                ret (bool_decide (real = IN_FILTER)))
               (order <- IRuntimeFilter.expr_order p ;;
                ret (negb (bool_decide (order ∈ s)))) ;;
   if skip then VRuntimeFilterSlots.continue tt else
   IRuntimeFilter.set_disabled p ;;; VRuntimeFilterSlots.continue tt) w
  = (Ret (Next tt),
     set_heap (<[p := if dominated s f then with_disabled f else f]> (heap w))
       w).
Proof.
  intros Hp. rewrite (dominated_body p f s w Hp).
  destruct (dominated s f); [reflexivity |].
  now rewrite (set_heap_insert_id w p f Hp).
Qed.

Lemma seen_agree w1 w l :
  (forall q, q ∈ l -> heap w1 !! q = heap w !! q) ->
  forall s, seen w1 l s = seen w l s.
Proof.
  induction l as [| a l IH]; intros Hag s; cbn [seen]; [reflexivity |].
  rewrite (Hag a (list_elem_of_here _ _)).
  apply IH. intros q Hq. apply Hag. now apply list_elem_of_further.
Qed.

Lemma seen_spec w l :
  forall s e,
    e ∈ seen w l s <->
    e ∈ s \/
    exists q f, q ∈ l /\ heap w !! q = Some f /\ counted f = true /\
                _expr_order f = e.
Proof.
  induction l as [| a l IH]; intros s e; cbn [seen].
  - split; [now left |]. intros [H | (q & f & Hq & _)]; [exact H |].
    inversion Hq.
  - rewrite IH. split.
    + intros [Hs | (q & f & Hq & Hf & Hc & He)].
      * destruct (heap w !! a) as [fa |] eqn:Ha; [| now left].
        destruct (counted fa) eqn:Hc; [| now left].
        apply elem_of_union in Hs as [Hs | Hs]; [| now left].
        apply elem_of_singleton in Hs. right. exists a, fa.
        repeat split; auto. apply list_elem_of_here.
      * right. exists q, f. repeat split; auto.
        now apply list_elem_of_further.
    + intros [Hs | (q & f & Hq & Hf & Hc & He)].
      * left. destruct (heap w !! a) as [fa |]; [| exact Hs].
        destruct (counted fa); [| exact Hs]. apply elem_of_union. now right.
      * apply elem_of_cons in Hq as [-> | Hq].
        -- left. rewrite Hf, Hc. apply elem_of_union. left.
           now apply elem_of_singleton.
        -- right. exists q, f. repeat split; auto.
Qed.

Lemma valid_insert w l p f :
  valid w l -> valid (set_heap (<[p := f]> (heap w)) w) l.
Proof.
  unfold valid. intros Hv. eapply Forall_impl; [exact Hv |]. cbn.
  intros q [fq Hq]. destruct (decide (p = q)) as [-> | Hne].
  - rewrite lookup_insert_eq. eauto.
  - rewrite lookup_insert_ne by exact Hne. eauto.
Qed.

(** The first loop over distinct handles, none of them null. *)
Lemma duplicate_loop :
  forall l (s : gset Z) w,
    NoDup l -> valid w l ->
    exists h',
      for_each (fun filter (has_in_filter : gset Z) =>
          skip <- orM (IRuntimeFilter.get_ignored filter)
                      (IRuntimeFilter.get_disabled filter) ;;
          if skip then VRuntimeFilterSlots.continue has_in_filter else
          real <- IRuntimeFilter.get_real_type filter ;;
          if bool_decide (real <> IN_FILTER)
          then VRuntimeFilterSlots.continue has_in_filter else
          skip <- andM (b <- IRuntimeFilter.need_sync_filter_size filter ;;
                        ret (negb b))
                       (ty <- IRuntimeFilter.type filter ;;
                        ret (bool_decide (ty = IN_OR_BLOOM_FILTER))) ;;
          if skip then VRuntimeFilterSlots.continue has_in_filter else
          order <- IRuntimeFilter.expr_order filter ;;
          if bool_decide (order ∈ has_in_filter)
          then (IRuntimeFilter.set_disabled filter ;;;
                VRuntimeFilterSlots.continue has_in_filter)
          else VRuntimeFilterSlots.continue ({[order]} ∪ has_in_filter))
        l s w
      = (Ret (Next (seen w l s)), set_heap h' w) /\
      (forall q, q ∉ l -> h' !! q = heap w !! q) /\
      (forall i q f, l !! i = Some q -> heap w !! q = Some f ->
         h' !! q
         = Some (if counted f
                    && bool_decide (_expr_order f ∈ seen w (take i l) s)
                 then with_disabled f else f)).
Proof.
  induction l as [| a l IH]; intros s w Hnd Hv.
  - exists (heap w). cbn. rewrite set_heap_id. repeat split; auto.
    intros i q f Hi. destruct i; discriminate.
  - apply NoDup_cons in Hnd as [Hna Hnd].
    apply Forall_cons in Hv as [[fa Ha] Hv].
    set (fa1 := if counted fa && bool_decide (_expr_order fa ∈ s)
                then with_disabled fa else fa).
    set (s1 := if counted fa then {[_expr_order fa]} ∪ s else s).
    set (w1 := set_heap (<[a := fa1]> (heap w)) w).
    assert (Hag : forall q, q ∈ l -> heap w1 !! q = heap w !! q).
    { intros q Hq. cbn. apply lookup_insert_ne. intros ->. contradiction. }
    destruct (IH s1 w1 Hnd (valid_insert w l a fa1 Hv)) as (h' & Hrun & Hout & Hin).
    exists h'. split; [| split].
    + cbn [for_each seen]. rewrite Ha. fold s1.
      run_body w (Ret (Next s1), w1) ltac:(apply (duplicate_turn a fa s w Ha)).
      rewrite <- (seen_agree w1 w l Hag). exact Hrun.
    + intros q Hq. apply not_elem_of_cons in Hq as [Hqa Hq].
      rewrite (Hout q Hq). cbn. now apply lookup_insert_ne.
    + intros [| i] q f Hi Hq; cbn in Hi.
      * injection Hi as <-. replace f with fa by congruence.
        rewrite (Hout a Hna). cbn. now rewrite lookup_insert_eq.
      * assert (Hql : q ∈ l) by (eapply list_elem_of_lookup_2; exact Hi).
        rewrite (Hin i q f Hi) by (rewrite (Hag q Hql); exact Hq).
        cbn [take seen]. rewrite Ha. fold s1.
        rewrite (seen_agree w1 w (take i l)); [reflexivity |].
        intros q' Hq'. apply Hag. exact (subseteq_take i l q' Hq').
Qed.

(** The second loop over distinct handles, none of them null. *)
Lemma dominated_loop (s : gset Z) :
  forall l w,
    NoDup l -> valid w l ->
    exists h',
      for_each (fun filter (_ : unit) =>
          skip <- orM (IRuntimeFilter.get_ignored filter)
                      (IRuntimeFilter.get_disabled filter) ;;
          if skip then VRuntimeFilterSlots.continue tt else
          skip <- orM (real <- IRuntimeFilter.get_real_type filter ;;
                       ret (bool_decide (real = IN_FILTER)))
                      (order <- IRuntimeFilter.expr_order filter ;;
                       ret (negb (bool_decide (order ∈ s)))) ;;
          if skip then VRuntimeFilterSlots.continue tt else
          IRuntimeFilter.set_disabled filter ;;;
          VRuntimeFilterSlots.continue tt) l tt w
      = (Ret (Next tt), set_heap h' w) /\
      (forall q, q ∉ l -> h' !! q = heap w !! q) /\
      (forall q f, q ∈ l -> heap w !! q = Some f ->
         h' !! q = Some (if dominated s f then with_disabled f else f)).
Proof.
  induction l as [| a l IH]; intros w Hnd Hv.
  - exists (heap w). cbn. rewrite set_heap_id. repeat split; auto.
    intros q f Hq. inversion Hq.
  - apply NoDup_cons in Hnd as [Hna Hnd].
    apply Forall_cons in Hv as [[fa Ha] Hv].
    set (fa1 := if dominated s fa then with_disabled fa else fa).
    set (w1 := set_heap (<[a := fa1]> (heap w)) w).
    assert (Hag : forall q, q ∈ l -> heap w1 !! q = heap w !! q).
    { intros q Hq. cbn. apply lookup_insert_ne. intros ->. contradiction. }
    destruct (IH w1 Hnd (valid_insert w l a fa1 Hv)) as (h' & Hrun & Hout & Hin).
    exists h'. split; [| split].
    + cbn [for_each].
      run_body w (Ret (Next tt), w1) ltac:(apply (dominated_turn a fa s w Ha)).
      exact Hrun.
    + intros q Hq. apply not_elem_of_cons in Hq as [Hqa Hq].
      rewrite (Hout q Hq). cbn. now apply lookup_insert_ne.
    + intros q f Hq Hf. apply elem_of_cons in Hq as [-> | Hq].
      * replace f with fa by congruence.
        rewrite (Hout a Hna). cbn. now rewrite lookup_insert_eq.
      * apply (Hin q f Hq). now rewrite (Hag q Hq).
Qed.

(** Both loops: what [disable_meaningless_filters] leaves in the heap. *)
Lemma disable_meaningless_filters_run this state w :
  NoDup (_runtime_filters this) -> valid w (_runtime_filters this) ->
  exists h',
    VRuntimeFilterSlots.disable_meaningless_filters this state w
    = (Ret OK, set_heap h' w) /\
    (forall q, q ∉ _runtime_filters this -> h' !! q = heap w !! q) /\
    (forall i q f, _runtime_filters this !! i = Some q ->
       heap w !! q = Some f ->
       h' !! q
       = Some (let f1 := if counted f
                            && bool_decide
                                 (_expr_order f
                                  ∈ seen w (take i (_runtime_filters this)) ∅)
                         then with_disabled f else f in
               if dominated (seen w (_runtime_filters this) ∅) f1
               then with_disabled f1 else f1)).
Proof.
  intros Hnd Hv.
  destruct (duplicate_loop (_runtime_filters this) ∅ w Hnd Hv)
    as (h1 & Hrun1 & Hout1 & Hin1).
  assert (Hv1 : valid (set_heap h1 w) (_runtime_filters this)).
  { unfold valid. apply Forall_forall. intros q Hq.
    destruct (proj1 (list_elem_of_lookup _ _) Hq) as (i & Hi).
    destruct (proj1 (Forall_forall _ _) Hv q Hq) as (f & Hf).
    cbn. rewrite (Hin1 i q f Hi Hf). eauto. }
  destruct (dominated_loop (seen w (_runtime_filters this) ∅)
              (_runtime_filters this) (set_heap h1 w) Hnd Hv1)
    as (h2 & Hrun2 & Hout2 & Hin2).
  exists h2. split; [| split].
  - unfold VRuntimeFilterSlots.disable_meaningless_filters,
      VRuntimeFilterSlots.disable_duplicate_in_filters,
      VRuntimeFilterSlots.disable_dominated_filters.
    rewrite (bind_eq _ _ w _ Hrun1). cbn beta iota.
    rewrite (bind_eq _ _ _ _ Hrun2). reflexivity.
  - intros q Hq. rewrite (Hout2 q Hq). cbn. apply (Hout1 q Hq).
  - intros i q f Hi Hf. cbn zeta.
    apply (Hin2 q); [eapply list_elem_of_lookup_2; exact Hi |].
    cbn. apply (Hin1 i q f Hi Hf).
Qed.

Lemma filter_first {A} (P : A -> Prop) `{forall x, Decision (P x)} l x rest :
  filter P l = x :: rest ->
  exists l1 l2,
    l = l1 ++ x :: l2 /\ Forall (fun y => ~ P y) l1 /\ P x /\
    filter P l2 = rest.
Proof.
  induction l as [| a l IH]; [discriminate |].
  rewrite filter_cons. destruct (decide (P a)) as [Ha | Ha].
  - intros [= -> <-]. exists [], l. repeat split; auto.
  - intros Hf. destruct (IH Hf) as (l1 & l2 & -> & Hl1 & Hx & Hr).
    exists (a :: l1), l2. repeat split; auto.
Qed.

Lemma counted_with_disabled f : counted (with_disabled f) = false.
Proof. unfold counted, active. cbn. now rewrite andb_false_r. Qed.

Lemma dominated_with_disabled s f : dominated s (with_disabled f) = false.
Proof. unfold dominated, active. cbn. now rewrite andb_false_r. Qed.

Lemma dominated_counted s f : counted f = true -> dominated s f = false.
Proof.
  unfold counted, dominated. intros Hc.
  apply andb_true_iff in Hc as [Hc _]. apply andb_true_iff in Hc as [Ha Hr].
  rewrite Ha, Hr. reflexivity.
Qed.

Lemma counts_on_spec w e q :
  counts_on w e q = true <->
  exists f, heap w !! q = Some f /\ counted f = true /\ _expr_order f = e.
Proof.
  unfold counts_on. destruct (heap w !! q) as [f |]; split.
  - intros Hc. apply andb_true_iff in Hc as [Hc He].
    apply bool_decide_eq_true_1 in He. eauto.
  - intros (f' & [= <-] & Hc & He). rewrite Hc.
    now rewrite (bool_decide_eq_true_2 _ He).
  - discriminate.
  - intros (f & Hf & _). discriminate.
Qed.

Lemma counted_iff f :
  counted f = true <->
  active f = true /\ _real_type f = IN_FILTER /\
  (_need_sync_filter_size f = true \/
   _runtime_filter_type f <> IN_OR_BLOOM_FILTER).
Proof.
  unfold counted. rewrite !andb_true_iff, negb_true_iff, andb_false_iff,
    negb_false_iff, bool_decide_eq_true, bool_decide_eq_false.
  tauto.
Qed.

Lemma seen_before w l1 e :
  e ∈ seen w l1 ∅ <-> exists y, y ∈ l1 /\ counts_on w e y = true.
Proof.
  rewrite seen_spec. split.
  - intros [H | (q & f & Hq & Hf & Hc & He)]; [now apply not_elem_of_empty in H |].
    exists q. split; [exact Hq |]. apply counts_on_spec. eauto.
  - intros (y & Hy & Hc). apply counts_on_spec in Hc as (f & Hf & Hc & He).
    right. exists y, f. auto.
Qed.

(** Disabling a handle whose [expr_order] is already in the set, if it is
    counted at all, does not change the set the first loop builds. *)
Lemma seen_with_disabled w a fa l :
  heap w !! a = Some fa ->
  forall s : gset Z,
    (counted fa = true -> _expr_order fa ∈ s) ->
    seen (set_heap (<[a := with_disabled fa]> (heap w)) w) l s = seen w l s.
Proof.
  intros Ha. induction l as [| q l IH]; intros s Hs; cbn [seen];
    [reflexivity |].
  cbn [heap set_heap]. destruct (decide (a = q)) as [<- | Hne].
  - rewrite lookup_insert_eq, Ha, counted_with_disabled.
    destruct (counted fa) eqn:Hc; [| apply IH; exact Hs].
    assert (Heq : {[_expr_order fa]} ∪ s = s).
    { apply set_eq. intros x. rewrite elem_of_union, elem_of_singleton.
      split; [intros [-> | Hx]; auto | now right]. }
    rewrite Heq. apply IH. exact Hs.
  - rewrite lookup_insert_ne by exact Hne.
    apply IH. intros Hc.
    destruct (heap w !! q) as [fq |]; [| auto].
    destruct (counted fq); [| auto].
    apply elem_of_union. right. auto.
Qed.

(** The first loop over any group without null pointers, a handle occurring
    any number of times: a handle that is not counted is left as it is; a
    counted one is disabled at an occurrence before which its [expr_order]
    is already in the set, and left as it is at an occurrence before which
    it is not and after which the handle does not occur again. *)
Lemma duplicate_loop_any :
  forall l (s : gset Z) w,
    valid w l ->
    exists h',
      for_each (fun filter (has_in_filter : gset Z) =>
          skip <- orM (IRuntimeFilter.get_ignored filter)
                      (IRuntimeFilter.get_disabled filter) ;;
          if skip then VRuntimeFilterSlots.continue has_in_filter else
          real <- IRuntimeFilter.get_real_type filter ;;
          if bool_decide (real <> IN_FILTER)
          then VRuntimeFilterSlots.continue has_in_filter else
          skip <- andM (b <- IRuntimeFilter.need_sync_filter_size filter ;;
                        ret (negb b))
                       (ty <- IRuntimeFilter.type filter ;;
                        ret (bool_decide (ty = IN_OR_BLOOM_FILTER))) ;;
          if skip then VRuntimeFilterSlots.continue has_in_filter else
          order <- IRuntimeFilter.expr_order filter ;;
          if bool_decide (order ∈ has_in_filter)
          then (IRuntimeFilter.set_disabled filter ;;;
                VRuntimeFilterSlots.continue has_in_filter)
          else VRuntimeFilterSlots.continue ({[order]} ∪ has_in_filter))
        l s w
      = (Ret (Next (seen w l s)), set_heap h' w) /\
      (forall q, q ∉ l -> h' !! q = heap w !! q) /\
      (forall q f, heap w !! q = Some f -> counted f = false ->
         h' !! q = Some f) /\
      (forall l1 p l2 f,
         l = l1 ++ p :: l2 -> heap w !! p = Some f -> counted f = true ->
         (_expr_order f ∈ seen w l1 s -> h' !! p = Some (with_disabled f)) /\
         (_expr_order f ∉ seen w l1 s -> p ∉ l2 -> h' !! p = Some f)).
Proof.
  induction l as [| a l IH]; intros s w Hv.
  - exists (heap w). cbn. rewrite set_heap_id.
    split; [reflexivity |]. split; [auto |]. split; [auto |].
    intros l1 p l2 f Hl. destruct l1; discriminate.
  - apply Forall_cons in Hv as [[fa Ha] Hv].
    set (fa1 := if counted fa && bool_decide (_expr_order fa ∈ s)
                then with_disabled fa else fa).
    set (s1 := if counted fa then {[_expr_order fa]} ∪ s else s).
    set (w1 := set_heap (<[a := fa1]> (heap w)) w).
    assert (Hs1 : counted fa = true -> _expr_order fa ∈ s1).
    { intros Hc. unfold s1. rewrite Hc. apply elem_of_union. left.
      now apply elem_of_singleton. }
    assert (Hseen : forall l0, seen w1 l0 s1 = seen w l0 s1).
    { intros l0. unfold w1, fa1.
      destruct (counted fa && bool_decide (_expr_order fa ∈ s)).
      - apply (seen_with_disabled w a fa l0 Ha s1 Hs1).
      - now rewrite (set_heap_insert_id w a fa Ha). }
    assert (Hw1a : heap w1 !! a = Some fa1).
    { cbn. apply lookup_insert_eq. }
    assert (Hw1 : forall q, a <> q -> heap w1 !! q = heap w !! q).
    { intros q Hne. cbn. now apply lookup_insert_ne. }
    destruct (IH s1 w1 (valid_insert w l a fa1 Hv))
      as (h' & Hrun & Hout & Hnc & Hc).
    exists h'. split; [| split; [| split]].
    + cbn [for_each seen]. rewrite Ha. fold s1.
      run_body w (Ret (Next s1), w1) ltac:(apply (duplicate_turn a fa s w Ha)).
      rewrite <- (Hseen l). exact Hrun.
    + intros q Hq. apply not_elem_of_cons in Hq as [Hqa Hq].
      rewrite (Hout q Hq). apply Hw1. congruence.
    + intros q f Hq Hcf. apply Hnc; [| exact Hcf].
      destruct (decide (a = q)) as [<- | Hne].
      * assert (Hfa : fa = f) by congruence.
        rewrite Hw1a. unfold fa1. rewrite Hfa, Hcf. reflexivity.
      * rewrite (Hw1 q Hne). exact Hq.
    + intros l1 p l2 f Hl Hp Hcf.
      destruct l1 as [| a' l1]; cbn in Hl; injection Hl as Hap Hl.
      * assert (Hfa : fa = f) by congruence.
        cbn [seen]. split.
        -- intros Hin. rewrite <- Hap.
           apply (Hnc a (with_disabled f)); [| apply counted_with_disabled].
           rewrite Hw1a. unfold fa1.
           rewrite Hfa, Hcf, (bool_decide_eq_true_2 _ Hin). reflexivity.
        -- intros Hnin Hnl. rewrite <- Hap. rewrite Hl in Hout.
           rewrite <- Hap in Hnl.
           rewrite (Hout a Hnl), Hw1a. unfold fa1.
           rewrite Hfa, Hcf, (bool_decide_eq_false_2 _ Hnin). reflexivity.
      * cbn [seen]. rewrite <- Hap, Ha. fold s1.
        destruct (decide (a = p)) as [Heq | Hne].
        -- assert (Hfa : fa = f) by congruence.
           assert (Hes1 : _expr_order f ∈ seen w l1 s1).
           { apply seen_spec. left. rewrite <- Hfa. apply Hs1.
             now rewrite Hfa. }
           split; [| intros Hnin; contradiction].
           intros _. rewrite <- Heq.
           destruct (decide (_expr_order fa ∈ s)) as [Hes | Hes].
           ++ apply (Hnc a (with_disabled f)); [| apply counted_with_disabled].
              rewrite Hw1a. unfold fa1.
              rewrite (bool_decide_eq_true_2 _ Hes), Hfa, Hcf. reflexivity.
           ++ assert (Hw1f : heap w1 !! a = Some f).
              { rewrite Hw1a. unfold fa1.
                rewrite (bool_decide_eq_false_2 _ Hes), andb_false_r.
                now rewrite Hfa. }
              rewrite Heq in Hw1f |- *.
              apply (proj1 (Hc l1 p l2 f Hl Hw1f Hcf)).
              rewrite (Hseen l1). exact Hes1.
        -- assert (Hw1p : heap w1 !! p = Some f).
           { rewrite (Hw1 p Hne). exact Hp. }
           destruct (Hc l1 p l2 f Hl Hw1p Hcf) as [Hd Hk].
           rewrite (Hseen l1) in Hd, Hk. split; assumption.
Qed.

(** C6 (amended): in the first loop of [disable_meaningless_filters], over a
    group without null pointers, in which a handle may occur more than once,
    every active IN filter that needs size sync, or whose declared type is
    not the hybrid one, is counted: its [expr_order] is in the set the loop
    builds, and the filter is marked disabled when a counted filter on the
    same [expr_order] comes before it in the group or when its own handle
    occurs again later in the group, and left as it is otherwise.  An active
    IN filter of hybrid declared type that does not need size sync is passed
    over: it is left as it is and contributes nothing to the set. *)
Theorem C6_first_loop_counts :
  forall (this : VRuntimeFilterSlots) (w : World),
    valid w (_runtime_filters this) ->
    exists (s : gset Z) (h' : gmap addr IRuntimeFilter),
      VRuntimeFilterSlots.disable_duplicate_in_filters this w
      = (Ret (Next s), set_heap h' w) /\
      (forall e, e ∈ s <->
         exists q f, q ∈ _runtime_filters this /\ heap w !! q = Some f /\
                     counted f = true /\ _expr_order f = e) /\
      (forall l1 p l2 f,
         _runtime_filters this = l1 ++ p :: l2 ->
         heap w !! p = Some f ->
         active f = true ->
         _real_type f = IN_FILTER ->
         ((_need_sync_filter_size f = true \/
           _runtime_filter_type f <> IN_OR_BLOOM_FILTER) ->
          _expr_order f ∈ s /\
          ((exists y, y ∈ l1 /\ counts_on w (_expr_order f) y = true) ->
           h' !! p = Some (with_disabled f)) /\
          (p ∈ l2 -> h' !! p = Some (with_disabled f)) /\
          ((forall y, y ∈ l1 -> counts_on w (_expr_order f) y <> true) ->
           p ∉ l2 -> h' !! p = Some f)) /\
         (_need_sync_filter_size f = false ->
          _runtime_filter_type f = IN_OR_BLOOM_FILTER ->
          h' !! p = Some f /\ counted f = false)).
Proof.
  intros this w Hv.
  destruct (duplicate_loop_any (_runtime_filters this) ∅ w Hv)
    as (h' & Hrun & Hout & Hnc & Hc).
  exists (seen w (_runtime_filters this) ∅), h'.
  split; [exact Hrun |]. split.
  - intros e. rewrite seen_spec. split.
    + intros [H | H]; [now apply not_elem_of_empty in H | exact H].
    + intros H. now right.
  - intros l1 p l2 f Hl Hp Hact Hreal. split.
    + intros Hcountable.
      assert (Hcf : counted f = true) by (apply counted_iff; auto).
      destruct (Hc l1 p l2 f Hl Hp Hcf) as [Hd Hk].
      split; [| split; [| split]].
      * apply seen_spec. right. exists p, f. repeat split; auto.
        rewrite Hl. apply elem_of_app. right. apply list_elem_of_here.
      * intros Hex. apply Hd. apply seen_before. exact Hex.
      * intros Hpl2.
        destruct (list_elem_of_split l2 p Hpl2) as (l2a & l2b & Hl2).
        assert (Hl' : _runtime_filters this = (l1 ++ p :: l2a) ++ p :: l2b).
        { rewrite Hl, Hl2, <- app_assoc. reflexivity. }
        apply (proj1 (Hc _ p l2b f Hl' Hp Hcf)).
        apply seen_before. exists p. split.
        -- apply elem_of_app. right. apply list_elem_of_here.
        -- apply counts_on_spec. exists f. auto.
      * intros Hno Hnl. apply Hk; [| exact Hnl].
        intros Hs. apply seen_before in Hs as (y & Hy & Hcy).
        exact (Hno y Hy Hcy).
    + intros Hns Hty.
      assert (Hcf : counted f = false).
      { unfold counted. rewrite Hns, (bool_decide_eq_true_2 _ Hty). cbn.
        apply andb_false_r. }
      split; [exact (Hnc p f Hp Hcf) | exact Hcf].
Qed.

Lemma C6_first_loop_counts_witness :
  let this := mkVRuntimeFilterSlots [mkVExprContext 0] [0; 1; 2; 0] in
  let w := world_of [plain_filter 7 0 IN_FILTER IN_FILTER;
                     plain_filter 8 0 IN_OR_BLOOM_FILTER IN_FILTER;
                     plain_filter 9 0 IN_FILTER IN_FILTER] always_ok in
  valid w (_runtime_filters this) /\
  exists (s : gset Z) (h' : gmap addr IRuntimeFilter),
    VRuntimeFilterSlots.disable_duplicate_in_filters this w
    = (Ret (Next s), set_heap h' w) /\
    (forall e, e ∈ s <->
       exists q f, q ∈ _runtime_filters this /\ heap w !! q = Some f /\
                   counted f = true /\ _expr_order f = e) /\
    (forall l1 p l2 f,
       _runtime_filters this = l1 ++ p :: l2 ->
       heap w !! p = Some f ->
       active f = true ->
       _real_type f = IN_FILTER ->
       ((_need_sync_filter_size f = true \/
         _runtime_filter_type f <> IN_OR_BLOOM_FILTER) ->
        _expr_order f ∈ s /\
        ((exists y, y ∈ l1 /\ counts_on w (_expr_order f) y = true) ->
         h' !! p = Some (with_disabled f)) /\
        (p ∈ l2 -> h' !! p = Some (with_disabled f)) /\
        ((forall y, y ∈ l1 -> counts_on w (_expr_order f) y <> true) ->
         p ∉ l2 -> h' !! p = Some f)) /\
       (_need_sync_filter_size f = false ->
        _runtime_filter_type f = IN_OR_BLOOM_FILTER ->
        h' !! p = Some f /\ counted f = false)).
Proof.
  intros this w.
  assert (H1 : valid w (_runtime_filters this)).
  { repeat constructor; eexists; reflexivity. }
  split; [exact H1 |].
  exact (C6_first_loop_counts this w H1).
Defined.

(** C6 as stated fails: an active IN filter of hybrid declared type that
    does not need size sync is neither put into the set nor disabled. *)
Lemma C6_counterexample :
  ~ (forall (this : VRuntimeFilterSlots) (w : World) (p : addr)
            (f : IRuntimeFilter),
        NoDup (_runtime_filters this) ->
        valid w (_runtime_filters this) ->
        p ∈ _runtime_filters this ->
        heap w !! p = Some f ->
        active f = true ->
        _real_type f = IN_FILTER ->
        _need_sync_filter_size f = false ->
        exists (s : gset Z) (w' : World),
          VRuntimeFilterSlots.disable_duplicate_in_filters this w
          = (Ret (Next s), w') /\
          (_expr_order f ∈ s \/
           exists f', heap w' !! p = Some f' /\ _disabled f' = true)).
Proof.
  intros H.
  pose (f := plain_filter 7 0 IN_OR_BLOOM_FILTER IN_FILTER).
  destruct (H (mkVRuntimeFilterSlots [mkVExprContext 0] [0])
              (world_of [f] always_ok) 0 f) as (s & w' & Hrun & Hcount);
    try reflexivity.
  - apply (bool_decide_unpack _). vm_compute. exact I.
  - repeat constructor. eexists. reflexivity.
  - apply list_elem_of_here.
  - assert (Hconc : VRuntimeFilterSlots.disable_duplicate_in_filters
                      (mkVRuntimeFilterSlots [mkVExprContext 0] [0])
                      (world_of [f] always_ok)
                    = (Ret (Next ∅), world_of [f] always_ok))
      by (vm_compute; reflexivity).
    rewrite Hconc in Hrun. injection Hrun as <- <-.
    destruct Hcount as [Hin | (f' & Hf' & Hd)].
    + now apply not_elem_of_empty in Hin.
    + vm_compute in Hf'. injection Hf' as <-. discriminate Hd.
Qed.

(** What both loops make of a counted handle, by its place in the group. *)
Lemma counted_outcome this state w :
  NoDup (_runtime_filters this) -> valid w (_runtime_filters this) ->
  exists h',
    VRuntimeFilterSlots.disable_meaningless_filters this state w
    = (Ret OK, set_heap h' w) /\
    (forall q f, q ∈ _runtime_filters this -> heap w !! q = Some f ->
       h' !! q = Some f \/ h' !! q = Some (with_disabled f)) /\
    (forall l1 p l2 f,
       _runtime_filters this = l1 ++ p :: l2 ->
       heap w !! p = Some f ->
       counted f = true ->
       ((exists y, y ∈ l1 /\ counts_on w (_expr_order f) y = true) ->
        h' !! p = Some (with_disabled f)) /\
       ((forall y, y ∈ l1 -> counts_on w (_expr_order f) y <> true) ->
        h' !! p = Some f)).
Proof.
  intros Hnd Hv.
  destruct (disable_meaningless_filters_run this state w Hnd Hv)
    as (h' & Hrun & _ & Hin).
  exists h'. split; [exact Hrun |]. split.
  - intros q f Hq Hf.
    destruct (proj1 (list_elem_of_lookup _ _) Hq) as (i & Hi).
    rewrite (Hin i q f Hi Hf). cbn zeta.
    destruct (counted f && _); destruct (dominated _ _); auto.
  - intros l1 p l2 f Hl Hp Hc.
    assert (Hi : _runtime_filters this !! length l1 = Some p).
    { rewrite Hl. apply list_lookup_middle. reflexivity. }
    pose proof (Hin (length l1) p f Hi Hp) as Hh. cbn zeta in Hh.
    rewrite Hc in Hh. cbn [andb] in Hh.
    replace (take (length l1) (_runtime_filters this)) with l1 in Hh
      by (rewrite Hl; now rewrite take_app_length).
    split.
    + intros Hex. apply seen_before in Hex.
      rewrite (bool_decide_eq_true_2 _ Hex) in Hh.
      now rewrite dominated_with_disabled in Hh.
    + intros Hno. rewrite bool_decide_eq_false_2 in Hh.
      * now rewrite (dominated_counted _ _ Hc) in Hh.
      * intros Hs. apply seen_before in Hs as (y & Hy & Hcy).
        exact (Hno y Hy Hcy).
Qed.

(** C1 (amended): after [disable_meaningless_filters] on a group of distinct
    handles, none of them null, for every [expr_order] at most one counted
    IN filter on it remains active, where the counted IN filters are those
    that need size sync or whose declared type is not the hybrid one.  If
    the group holds k such filters on the same [expr_order] that are active
    before, the first of them in group order is left as it is, hence
    active, and the other k-1 are disabled. *)
Theorem C1_one_counted_in_filter_per_expr :
  forall (this : VRuntimeFilterSlots) (state : RuntimeState) (w : World)
         (e : Z),
    NoDup (_runtime_filters this) ->
    valid w (_runtime_filters this) ->
    let r := VRuntimeFilterSlots.disable_meaningless_filters this state w in
    r.1 = Ret OK /\
    (forall p q fp fq,
       p ∈ _runtime_filters this -> q ∈ _runtime_filters this ->
       heap r.2 !! p = Some fp -> heap r.2 !! q = Some fq ->
       counted fp = true -> counted fq = true ->
       _expr_order fp = e -> _expr_order fq = e ->
       p = q) /\
    (forall p0 rest,
       counted_on w e (_runtime_filters this) = p0 :: rest ->
       (exists f0, heap w !! p0 = Some f0 /\ heap r.2 !! p0 = Some f0 /\
                   active f0 = true /\ _real_type f0 = IN_FILTER) /\
       (forall q, q ∈ rest ->
          exists fq, heap r.2 !! q = Some fq /\ _disabled fq = true)).
Proof.
  intros this state w e Hnd Hv r. subst r.
  destruct (counted_outcome this state w Hnd Hv) as (h' & Hrun & Honly & Hplace).
  rewrite Hrun. cbn [fst snd heap set_heap].
  assert (Hfirst : forall p0 rest,
             counted_on w e (_runtime_filters this) = p0 :: rest ->
             (exists f0, heap w !! p0 = Some f0 /\ h' !! p0 = Some f0 /\
                         active f0 = true /\ _real_type f0 = IN_FILTER) /\
             (forall q, q ∈ rest ->
                exists fq, heap w !! q = Some fq /\
                           h' !! q = Some (with_disabled fq))).
  { intros p0 rest Hon. unfold counted_on in Hon.
    destruct (filter_first _ _ _ _ Hon) as (l1 & l2 & Hl & Hl1 & Hp0 & Hrest).
    apply counts_on_spec in Hp0 as (f0 & Hf0 & Hc0 & He0). split.
    - exists f0. split; [exact Hf0 |]. split.
      + apply (proj2 (Hplace l1 p0 l2 f0 Hl Hf0 Hc0)).
        intros y Hy. rewrite He0.
        exact (proj1 (Forall_forall _ _) Hl1 y Hy).
      + apply counted_iff in Hc0. tauto.
    - intros q Hq. rewrite <- Hrest in Hq.
      apply list_elem_of_filter in Hq as [Hcq Hq].
      apply counts_on_spec in Hcq as (fq & Hfq & Hcq & Heq).
      exists fq. split; [exact Hfq |].
      destruct (list_elem_of_split _ _ Hq) as (l2a & l2b & ->).
      apply (proj1 (Hplace (l1 ++ p0 :: l2a) q l2b fq
                      ltac:(rewrite Hl; now rewrite <- app_assoc) Hfq Hcq)).
      exists p0. split.
      + apply elem_of_app. right. apply list_elem_of_here.
      + rewrite Heq. apply counts_on_spec. eauto. }
  split; [reflexivity |]. split.
  - assert (Hone : forall p fp,
               p ∈ _runtime_filters this -> h' !! p = Some fp ->
               counted fp = true -> _expr_order fp = e ->
               exists rest, counted_on w e (_runtime_filters this) = p :: rest).
    { intros p fp Hp Hfp Hc He.
      destruct (proj1 (Forall_forall _ _) Hv p Hp) as (f & Hf).
      assert (fp = f) as ->.
      { destruct (Honly p f Hp Hf) as [Hh | Hh]; rewrite Hh in Hfp;
          injection Hfp as <-; [reflexivity |].
        now rewrite counted_with_disabled in Hc. }
      assert (Hmem : p ∈ counted_on w e (_runtime_filters this)).
      { apply list_elem_of_filter. split; [| exact Hp].
        apply counts_on_spec. eauto. }
      destruct (counted_on w e (_runtime_filters this)) as [| p0 rest] eqn:Hon;
        [inversion Hmem |].
      apply elem_of_cons in Hmem as [-> | Hmem]; [now exists rest |].
      destruct (Hfirst p0 rest eq_refl) as [_ Hrest].
      destruct (Hrest p Hmem) as (f' & Hf' & Hh).
      rewrite Hf in Hf'. injection Hf' as <-.
      rewrite Hh in Hfp. injection Hfp as Hfp.
      rewrite <- Hfp, counted_with_disabled in Hc. discriminate. }
    intros p q fp fq Hp Hq Hfp Hfq Hcp Hcq Hep Heq.
    destruct (Hone p fp Hp Hfp Hcp Hep) as (rest1 & H1).
    destruct (Hone q fq Hq Hfq Hcq Heq) as (rest2 & H2).
    congruence.
  - intros p0 rest Hon. destruct (Hfirst p0 rest Hon) as [Hp0 Hrest].
    split; [exact Hp0 |]. intros q Hq.
    destruct (Hrest q Hq) as (fq & _ & Hh).
    exists (with_disabled fq). split; [exact Hh | reflexivity].
Qed.

Lemma C1_one_counted_in_filter_per_expr_witness :
  let this := mkVRuntimeFilterSlots [mkVExprContext 0] [0; 1; 2; 3] in
  let w := world_of [plain_filter 7 0 IN_FILTER IN_FILTER;
                     plain_filter 8 0 MINMAX_FILTER MINMAX_FILTER;
                     plain_filter 9 0 IN_FILTER IN_FILTER;
                     plain_filter 10 1 IN_FILTER IN_FILTER] always_ok in
  let r := VRuntimeFilterSlots.disable_meaningless_filters this
             (mkRuntimeState 1000) w in
  (NoDup (_runtime_filters this) /\ valid w (_runtime_filters this)) /\
  r.1 = Ret OK /\
  (forall p q fp fq,
     p ∈ _runtime_filters this -> q ∈ _runtime_filters this ->
     heap r.2 !! p = Some fp -> heap r.2 !! q = Some fq ->
     counted fp = true -> counted fq = true ->
     _expr_order fp = 0%Z -> _expr_order fq = 0%Z ->
     p = q) /\
  (forall p0 rest,
     counted_on w 0 (_runtime_filters this) = p0 :: rest ->
     (exists f0, heap w !! p0 = Some f0 /\ heap r.2 !! p0 = Some f0 /\
                 active f0 = true /\ _real_type f0 = IN_FILTER) /\
     (forall q, q ∈ rest ->
        exists fq, heap r.2 !! q = Some fq /\ _disabled fq = true)).
Proof.
  intros this w r.
  assert (H1 : NoDup (_runtime_filters this)).
  { apply (bool_decide_unpack _). vm_compute. exact I. }
  assert (H2 : valid w (_runtime_filters this)).
  { repeat constructor; eexists; reflexivity. }
  split; [split; assumption |].
  exact (C1_one_counted_in_filter_per_expr this (mkRuntimeState 1000) w 0
           H1 H2).
Defined.

(** C1 as stated fails: two active IN filters of hybrid declared type that
    do not need size sync, on the same [expr_order], both remain active. *)
Lemma C1_counterexample :
  ~ (forall (this : VRuntimeFilterSlots) (state : RuntimeState) (w : World),
        NoDup (_runtime_filters this) ->
        valid w (_runtime_filters this) ->
        let r := VRuntimeFilterSlots.disable_meaningless_filters this state w in
        forall p q fp fq,
          p ∈ _runtime_filters this -> q ∈ _runtime_filters this ->
          heap r.2 !! p = Some fp -> heap r.2 !! q = Some fq ->
          active fp = true -> active fq = true ->
          _real_type fp = IN_FILTER -> _real_type fq = IN_FILTER ->
          _expr_order fp = _expr_order fq ->
          p = q).
Proof.
  intros H.
  pose (f0 := plain_filter 7 0 IN_OR_BLOOM_FILTER IN_FILTER).
  pose (f1 := plain_filter 8 0 IN_OR_BLOOM_FILTER IN_FILTER).
  assert (Heq : 0 = 1); [| discriminate Heq].
  apply (H (mkVRuntimeFilterSlots [mkVExprContext 0] [0; 1])
           (mkRuntimeState 1000) (world_of [f0; f1] always_ok))
    with (fp := f0) (fq := f1); try reflexivity.
  - apply (bool_decide_unpack _). vm_compute. exact I.
  - repeat constructor; eexists; reflexivity.
  - apply list_elem_of_here.
  - apply list_elem_of_further, list_elem_of_here.
Qed.

(** ** Scenarios *)

(** An IN filter and a min/max filter on expression 0 and an IN filter on
    expression 1: pruning keeps both IN filters and disables the min/max
    one. *)
Example prune_in_minmax_in :
  let this := mkVRuntimeFilterSlots [mkVExprContext 0; mkVExprContext 1] [0; 1; 2] in
  let w := world_of [plain_filter 7 0 IN_FILTER IN_FILTER;
                     plain_filter 8 0 MINMAX_FILTER MINMAX_FILTER;
                     plain_filter 9 1 IN_FILTER IN_FILTER] always_ok in
  let r := VRuntimeFilterSlots.disable_meaningless_filters this
             (mkRuntimeState 1000) w in
  r.1 = Ret OK /\
  _disabled <$> heap r.2 !! 0 = Some false /\
  _disabled <$> heap r.2 !! 1 = Some true /\
  _disabled <$> heap r.2 !! 2 = Some false.
Proof. repeat split; reflexivity. Qed.

(** A group that holds the same handle twice disables it: the second visit
    finds the [expr_order] the first visit recorded.  This is why the
    pruning theorems ask for distinct handles. *)
Example prune_aliased_handle :
  let this := mkVRuntimeFilterSlots [mkVExprContext 0] [0; 0] in
  let w := world_of [plain_filter 7 0 IN_FILTER IN_FILTER] always_ok in
  let r := VRuntimeFilterSlots.disable_meaningless_filters this
             (mkRuntimeState 1000) w in
  r.1 = Ret OK /\ _disabled <$> heap r.2 !! 0 = Some true.
Proof. split; reflexivity. Qed.

(** A hybrid filter that needs size sync, threshold 1000, local cardinality
    1500, synced size 4500: it becomes a bloom filter sized 4500. *)
Example materialize_synced_hybrid :
  let this := mkVRuntimeFilterSlots [mkVExprContext 0] [0] in
  let f := mkIRuntimeFilter 7 0 IN_OR_BLOOM_FILTER IN_FILTER false false true 4500 0 in
  let w := world_of [f] always_ok in
  let r := VRuntimeFilterSlots.init_filters this (mkRuntimeState 1000) 1500 w in
  r.1 = Ret OK /\
  _real_type <$> heap r.2 !! 0 = Some BLOOM_FILTER /\
  trace r.2 = [EvChangeToBloomFilter 0; EvInitBloomFilter 0 4500].
Proof. repeat split; reflexivity. Qed.

(** A hybrid filter at the threshold stays an IN filter and nothing is
    allocated. *)
Example materialize_at_threshold :
  let this := mkVRuntimeFilterSlots [mkVExprContext 0] [0] in
  let w := world_of [plain_filter 7 0 IN_OR_BLOOM_FILTER IN_FILTER] always_ok in
  let r := VRuntimeFilterSlots.init_filters this (mkRuntimeState 1000) 1000 w in
  r.1 = Ret OK /\
  _real_type <$> heap r.2 !! 0 = Some IN_FILTER /\
  trace r.2 = [].
Proof. repeat split; reflexivity. Qed.

(** A transition that fails aborts [init_filters]: the status is passed on
    and the handles after the failing one are not visited. *)
Example materialize_failure :
  let this := mkVRuntimeFilterSlots [mkVExprContext 0] [0; 1] in
  let w := world_of [plain_filter 7 0 IN_OR_BLOOM_FILTER IN_FILTER;
                     plain_filter 8 0 IN_OR_BLOOM_FILTER IN_FILTER]
             (mkCollaborators (fun _ _ _ => OK)
                (fun _ _ => Failure "out of memory")
                (fun _ _ _ => OK) (fun _ _ _ => OK)) in
  let r := VRuntimeFilterSlots.init_filters this (mkRuntimeState 1000) 1500 w in
  r.1 = Ret (Failure "out of memory") /\
  _real_type <$> heap r.2 !! 1 = Some IN_FILTER /\
  trace r.2 = [EvChangeToBloomFilter 0].
Proof. repeat split; reflexivity. Qed.

(** Export by one group, import by a sibling group with the same filter
    identities: the sibling's handles hold the exporter's references. *)
Example export_then_import :
  let exporter := mkVRuntimeFilterSlots [mkVExprContext 0] [0; 1] in
  let sibling := mkVRuntimeFilterSlots [mkVExprContext 0] [2; 3] in
  let w := sharing 5 ∅
             (world_of [mkIRuntimeFilter 7 0 IN_FILTER IN_FILTER false false false 0 50;
                        mkIRuntimeFilter 8 0 MINMAX_FILTER MINMAX_FILTER false false false 0 51;
                        plain_filter 7 0 IN_FILTER IN_FILTER;
                        plain_filter 8 0 MINMAX_FILTER MINMAX_FILTER] always_ok) in
  let w1 := (VRuntimeFilterSlots.copy_to_shared_context exporter 5 w).2 in
  let r := VRuntimeFilterSlots.copy_from_shared_context sibling 5 w1 in
  r.1 = Ret OK /\
  _shared_context <$> heap r.2 !! 2 = Some 50 /\
  _shared_context <$> heap r.2 !! 3 = Some 51.
Proof. repeat split; reflexivity. Qed.

(** A report that fails stops the negotiation; the registrations stay. *)
Example negotiation_failure :
  let this := mkVRuntimeFilterSlots [mkVExprContext 0] [0; 1] in
  let f0 := mkIRuntimeFilter 7 0 IN_FILTER IN_FILTER false false true 0 0 in
  let f1 := mkIRuntimeFilter 8 0 IN_FILTER IN_FILTER false false true 0 0 in
  let w := world_of [f0; f1]
             (mkCollaborators (fun _ _ _ => Failure "rpc failed")
                (fun _ _ => OK) (fun _ _ _ => OK) (fun _ _ _ => OK)) in
  let r := VRuntimeFilterSlots.send_filter_size this (mkRuntimeState 1000)
             1500 9 w in
  r.1 = Ret (Failure "rpc failed") /\
  trace r.2 = [EvSetFinishDependency 0 9; EvSetFinishDependency 1 9;
               EvSendFilterSize 0 1500].
Proof. split; reflexivity. Qed.

(** * Further properties of the coordinator *)

(** ** The two overrides *)

(** A loop that stores [g f] for every handle it visits. *)
Lemma update_loop (g : IRuntimeFilter -> IRuntimeFilter)
    (body : addr -> unit -> M (Flow unit)) :
  (forall f, g (g f) = g f) ->
  (forall p f w, heap w !! p = Some f ->
     body p tt w = (Ret (Next tt), set_heap (<[p := g f]> (heap w)) w)) ->
  forall l w,
    valid w l ->
    exists h',
      for_each body l tt w = (Ret (Next tt), set_heap h' w) /\
      (forall q f, q ∈ l -> heap w !! q = Some f -> h' !! q = Some (g f)) /\
      (forall q, q ∉ l -> h' !! q = heap w !! q).
Proof.
  intros Hidem Hbody. induction l as [| a l IH]; intros w Hv.
  - exists (heap w). cbn. rewrite set_heap_id. repeat split; auto.
    intros q f Hq. inversion Hq.
  - apply Forall_cons in Hv as [[fa Ha] Hv].
    set (w1 := set_heap (<[a := g fa]> (heap w)) w).
    destruct (IH w1 (valid_insert w l a (g fa) Hv)) as (h' & Hrun & Hin & Hout).
    exists h'. split; [| split].
    + cbn [for_each]. rewrite (bind_eq _ _ w _ (Hbody a fa w Ha)). exact Hrun.
    + intros q f Hq Hf. destruct (decide (q ∈ l)) as [Hql | Hql].
      * destruct (decide (q = a)) as [-> | Hne].
        -- replace f with fa by congruence.
           rewrite (Hin a (g fa) Hql); [now rewrite Hidem |].
           cbn. apply lookup_insert_eq.
        -- apply (Hin q f Hql). cbn. now rewrite lookup_insert_ne by congruence.
      * apply elem_of_cons in Hq as [-> | Hq]; [| contradiction].
        replace f with fa by congruence.
        rewrite (Hout a Hql). cbn. apply lookup_insert_eq.
    + intros q Hq. apply not_elem_of_cons in Hq as [Hne Hq].
      rewrite (Hout q Hq). cbn. now apply lookup_insert_ne.
Qed.

Lemma ignore_all_filters_run this w :
  valid w (_runtime_filters this) ->
  exists h',
    VRuntimeFilterSlots.ignore_all_filters this w = (Ret OK, set_heap h' w) /\
    (forall q f, q ∈ _runtime_filters this -> heap w !! q = Some f ->
       h' !! q = Some (with_ignored f)) /\
    (forall q, q ∉ _runtime_filters this -> h' !! q = heap w !! q).
Proof.
  intros Hv.
  destruct (update_loop with_ignored
              (fun filter (_ : unit) =>
                 IRuntimeFilter.set_ignored filter ;;;
                 VRuntimeFilterSlots.continue tt)
              ltac:(reflexivity)
              ltac:(intros p f w0 Hp; unfold VRuntimeFilterSlots.continue;
                    now calls Hp)
              (_runtime_filters this) w Hv) as (h' & Hrun & Hin & Hout).
  exists h'. split; [| split; assumption].
  unfold VRuntimeFilterSlots.ignore_all_filters.
  now rewrite (bind_eq _ _ w _ Hrun).
Qed.

Lemma disable_all_filters_run this w :
  valid w (_runtime_filters this) ->
  exists h',
    VRuntimeFilterSlots.disable_all_filters this w = (Ret OK, set_heap h' w) /\
    (forall q f, q ∈ _runtime_filters this -> heap w !! q = Some f ->
       h' !! q = Some (with_disabled f)) /\
    (forall q, q ∉ _runtime_filters this -> h' !! q = heap w !! q).
Proof.
  intros Hv.
  destruct (update_loop with_disabled
              (fun filter (_ : unit) =>
                 IRuntimeFilter.set_disabled filter ;;;
                 VRuntimeFilterSlots.continue tt)
              ltac:(reflexivity)
              ltac:(intros p f w0 Hp; unfold VRuntimeFilterSlots.continue;
                    now calls Hp)
              (_runtime_filters this) w Hv) as (h' & Hrun & Hin & Hout).
  exists h'. split; [| split; assumption].
  unfold VRuntimeFilterSlots.disable_all_filters.
  now rewrite (bind_eq _ _ w _ Hrun).
Qed.

(** X1: on a group without null pointers [ignore_all_filters] returns OK and
    sets the [ignored] flag of every handle of the group, also of one that
    occurs twice; it changes nothing else of those handles, no other filter
    object, no shared context, and calls no collaborator. *)
Theorem X1_ignore_all_filters :
  forall (this : VRuntimeFilterSlots) (w : World),
    valid w (_runtime_filters this) ->
    exists h' : gmap addr IRuntimeFilter,
      VRuntimeFilterSlots.ignore_all_filters this w = (Ret OK, set_heap h' w) /\
      (forall q f, q ∈ _runtime_filters this -> heap w !! q = Some f ->
         h' !! q = Some (with_ignored f)) /\
      (forall q, q ∉ _runtime_filters this -> h' !! q = heap w !! q).
Proof.
  intros this w Hv.
  destruct (update_loop with_ignored
              (fun filter (_ : unit) =>
                 IRuntimeFilter.set_ignored filter ;;;
                 VRuntimeFilterSlots.continue tt)
              ltac:(reflexivity)
              ltac:(intros p f w0 Hp; unfold VRuntimeFilterSlots.continue;
                    now calls Hp)
              (_runtime_filters this) w Hv) as (h' & Hrun & Hin & Hout).
  exists h'. split; [| split; assumption].
  unfold VRuntimeFilterSlots.ignore_all_filters.
  now rewrite (bind_eq _ _ w _ Hrun).
Qed.

Lemma X1_ignore_all_filters_witness :
  let this := mkVRuntimeFilterSlots [mkVExprContext 0] [0; 1; 0] in
  let w := world_of [plain_filter 7 0 IN_FILTER IN_FILTER;
                     mkIRuntimeFilter 8 0 MINMAX_FILTER MINMAX_FILTER false true false 0 0;
                     plain_filter 9 1 IN_FILTER IN_FILTER] always_ok in
  valid w (_runtime_filters this) /\
  exists h' : gmap addr IRuntimeFilter,
    VRuntimeFilterSlots.ignore_all_filters this w = (Ret OK, set_heap h' w) /\
    (forall q f, q ∈ _runtime_filters this -> heap w !! q = Some f ->
       h' !! q = Some (with_ignored f)) /\
    (forall q, q ∉ _runtime_filters this -> h' !! q = heap w !! q).
Proof.
  intros this w.
  assert (H1 : valid w (_runtime_filters this)).
  { repeat constructor; eexists; reflexivity. }
  split; [exact H1 |]. exact (X1_ignore_all_filters this w H1).
Defined.

(** X2: on a group without null pointers [disable_all_filters] returns OK
    and sets the [disabled] flag of every handle of the group; it changes
    nothing else of those handles (the [ignored] flag included), no other
    filter object, no shared context, and calls no collaborator. *)
Theorem X2_disable_all_filters :
  forall (this : VRuntimeFilterSlots) (w : World),
    valid w (_runtime_filters this) ->
    exists h' : gmap addr IRuntimeFilter,
      VRuntimeFilterSlots.disable_all_filters this w = (Ret OK, set_heap h' w) /\
      (forall q f, q ∈ _runtime_filters this -> heap w !! q = Some f ->
         h' !! q = Some (with_disabled f)) /\
      (forall q, q ∉ _runtime_filters this -> h' !! q = heap w !! q).
Proof.
  intros this w Hv.
  destruct (update_loop with_disabled
              (fun filter (_ : unit) =>
                 IRuntimeFilter.set_disabled filter ;;;
                 VRuntimeFilterSlots.continue tt)
              ltac:(reflexivity)
              ltac:(intros p f w0 Hp; unfold VRuntimeFilterSlots.continue;
                    now calls Hp)
              (_runtime_filters this) w Hv) as (h' & Hrun & Hin & Hout).
  exists h'. split; [| split; assumption].
  unfold VRuntimeFilterSlots.disable_all_filters.
  now rewrite (bind_eq _ _ w _ Hrun).
Qed.

Lemma X2_disable_all_filters_witness :
  let this := mkVRuntimeFilterSlots [mkVExprContext 0] [0; 1] in
  let w := world_of [plain_filter 7 0 IN_FILTER IN_FILTER;
                     mkIRuntimeFilter 8 0 MINMAX_FILTER MINMAX_FILTER true false false 0 0;
                     plain_filter 9 1 IN_FILTER IN_FILTER] always_ok in
  valid w (_runtime_filters this) /\
  exists h' : gmap addr IRuntimeFilter,
    VRuntimeFilterSlots.disable_all_filters this w = (Ret OK, set_heap h' w) /\
    (forall q f, q ∈ _runtime_filters this -> heap w !! q = Some f ->
       h' !! q = Some (with_disabled f)) /\
    (forall q, q ∉ _runtime_filters this -> h' !! q = heap w !! q).
Proof.
  intros this w.
  assert (H1 : valid w (_runtime_filters this)).
  { repeat constructor; eexists; reflexivity. }
  split; [exact H1 |]. exact (X2_disable_all_filters this w H1).
Defined.

(** ** A group whose handles are all flagged *)

(** [init_filters] passes over ignored handles. *)
Lemma init_filters_ignored exprs state n :
  forall l w,
    (forall q, q ∈ l ->
       exists f, heap w !! q = Some f /\ _ignored f = true) ->
    VRuntimeFilterSlots.init_filters (mkVRuntimeFilterSlots exprs l) state n w
    = (Ret OK, w).
Proof.
  induction l as [| a l IH]; intros w Hall; [reflexivity |].
  destruct (Hall a (list_elem_of_here _ _)) as (fa & Ha & Hig).
  specialize (IH w (fun q Hq => Hall q (list_elem_of_further _ _ _ Hq))).
  unfold VRuntimeFilterSlots.init_filters in *.
  cbn [_runtime_filters for_each] in *.
  rewrite bind_assoc, (bind_eq _ _ w _ (init_body state n a fa w Ha)), Hig.
  exact IH.
Qed.

(** Neither loop of [disable_meaningless_filters] touches a handle that is
    ignored or disabled. *)
Lemma duplicate_loop_flagged exprs :
  forall l (s : gset Z) w,
    (forall q, q ∈ l ->
       exists f, heap w !! q = Some f /\ flagged f = true) ->
    for_each (fun filter (has_in_filter : gset Z) =>
        skip <- orM (IRuntimeFilter.get_ignored filter)
                    (IRuntimeFilter.get_disabled filter) ;;
        if skip then VRuntimeFilterSlots.continue has_in_filter else
        real <- IRuntimeFilter.get_real_type filter ;;
        if bool_decide (real <> IN_FILTER)
        then VRuntimeFilterSlots.continue has_in_filter else
        skip <- andM (b <- IRuntimeFilter.need_sync_filter_size filter ;;
                      ret (negb b))
                     (ty <- IRuntimeFilter.type filter ;;
                      ret (bool_decide (ty = IN_OR_BLOOM_FILTER))) ;;
        if skip then VRuntimeFilterSlots.continue has_in_filter else
        order <- IRuntimeFilter.expr_order filter ;;
        if bool_decide (order ∈ has_in_filter)
        then (IRuntimeFilter.set_disabled filter ;;;
              VRuntimeFilterSlots.continue has_in_filter)
        else VRuntimeFilterSlots.continue ({[order]} ∪ has_in_filter))
      (_runtime_filters (mkVRuntimeFilterSlots exprs l)) s w
    = (Ret (Next s), w).
Proof.
  induction l as [| a l IH]; intros s w Hall; [reflexivity |].
  destruct (Hall a (list_elem_of_here _ _)) as (fa & Ha & Hf).
  specialize (IH s w (fun q Hq => Hall q (list_elem_of_further _ _ _ Hq))).
  cbn [_runtime_filters for_each] in *.
  rewrite (bind_eq _ _ w _ (duplicate_body a fa s w Ha)).
  assert (Hc : counted fa = false).
  { unfold counted, active. unfold flagged in Hf.
    destruct (_ignored fa), (_disabled fa); try discriminate; reflexivity. }
  rewrite Hc. exact IH.
Qed.

Lemma dominated_loop_flagged exprs (s : gset Z) :
  forall l w,
    (forall q, q ∈ l ->
       exists f, heap w !! q = Some f /\ flagged f = true) ->
    VRuntimeFilterSlots.disable_dominated_filters
      (mkVRuntimeFilterSlots exprs l) s w
    = (Ret (Next tt), w).
Proof.
  induction l as [| a l IH]; intros w Hall; [reflexivity |].
  destruct (Hall a (list_elem_of_here _ _)) as (fa & Ha & Hf).
  specialize (IH w (fun q Hq => Hall q (list_elem_of_further _ _ _ Hq))).
  unfold VRuntimeFilterSlots.disable_dominated_filters in *.
  cbn [_runtime_filters for_each] in *.
  rewrite (bind_eq _ _ w _ (dominated_body a fa s w Ha)).
  assert (Hc : dominated s fa = false).
  { unfold dominated, active. unfold flagged in Hf.
    destruct (_ignored fa), (_disabled fa); try discriminate; reflexivity. }
  rewrite Hc. exact IH.
Qed.

Lemma disable_meaningless_filters_flagged this state w :
  (forall q, q ∈ _runtime_filters this ->
     exists f, heap w !! q = Some f /\ flagged f = true) ->
  VRuntimeFilterSlots.disable_meaningless_filters this state w = (Ret OK, w).
Proof.
  destruct this as [exprs l]. cbn [_runtime_filters]. intros Hall.
  unfold VRuntimeFilterSlots.disable_meaningless_filters,
    VRuntimeFilterSlots.disable_duplicate_in_filters.
  rewrite (bind_eq _ _ w _ (duplicate_loop_flagged exprs l ∅ w Hall)).
  cbn beta iota.
  now rewrite (bind_eq _ _ w _ (dominated_loop_flagged exprs ∅ l w Hall)).
Qed.

Lemma insert_flagged this block w :
  (forall q, q ∈ _runtime_filters this ->
     exists f, heap w !! q = Some f /\ flagged f = true) ->
  (VRuntimeFilterSlots.insert this block w).2 = w.
Proof.
  intros Hall.
  destruct (insert_emits this block (_runtime_filters this) w) as (t & Hw & Ht).
  assert (t = []) as ->.
  { destruct t as [| e t]; [reflexivity |].
    inversion Ht as [| ? ? (q & fq & column & _ & Hq & Hfq & Hun & _) _].
    destruct (Hall q Hq) as (f & Hf & Hfl). congruence. }
  rewrite insert_eq.
  destruct (for_each _ _ _ w) as [[r | e] w1]; cbn in *;
    now rewrite Hw, set_trace_id.
Qed.

(** X3: once [ignore_all_filters] has run on a group without null pointers,
    materialization, pruning and ingestion by that group do nothing:
    [init_filters] and [disable_meaningless_filters] return OK and leave the
    world as it is (no handle changes type, nothing is allocated, nothing is
    disabled), and [insert] appends no batch and changes nothing. *)
Theorem X3_ignored_group_is_inert :
  forall (this : VRuntimeFilterSlots) (state : RuntimeState) (n : N)
         (block : Block) (w : World),
    valid w (_runtime_filters this) ->
    let w1 := (VRuntimeFilterSlots.ignore_all_filters this w).2 in
    VRuntimeFilterSlots.init_filters this state n w1 = (Ret OK, w1) /\
    VRuntimeFilterSlots.disable_meaningless_filters this state w1
      = (Ret OK, w1) /\
    (VRuntimeFilterSlots.insert this block w1).2 = w1.
Proof.
  intros this state n block w Hv w1. subst w1.
  destruct (ignore_all_filters_run this w Hv) as (h' & Hrun & Hin & _).
  rewrite Hrun. cbn [snd].
  assert (Hig : forall q, q ∈ _runtime_filters this ->
                  exists f, heap (set_heap h' w) !! q = Some f /\
                            _ignored f = true).
  { intros q Hq. destruct (proj1 (Forall_forall _ _) Hv q Hq) as (f & Hf).
    exists (with_ignored f). split; [exact (Hin q f Hq Hf) | reflexivity]. }
  assert (Hfl : forall q, q ∈ _runtime_filters this ->
                  exists f, heap (set_heap h' w) !! q = Some f /\
                            flagged f = true).
  { intros q Hq. destruct (Hig q Hq) as (f & Hf & Hi). exists f.
    split; [exact Hf |]. unfold flagged. now rewrite Hi. }
  split; [| split].
  - destruct this as [exprs l]. now apply init_filters_ignored.
  - now apply disable_meaningless_filters_flagged.
  - now apply insert_flagged.
Qed.

Lemma X3_ignored_group_is_inert_witness :
  let this := mkVRuntimeFilterSlots [mkVExprContext 0] [0; 1] in
  let w := world_of [plain_filter 7 0 IN_OR_BLOOM_FILTER IN_FILTER;
                     plain_filter 8 0 MINMAX_FILTER MINMAX_FILTER] always_ok in
  let state := mkRuntimeState 1000 in
  let w1 := (VRuntimeFilterSlots.ignore_all_filters this w).2 in
  valid w (_runtime_filters this) /\
  VRuntimeFilterSlots.init_filters this state 5000 w1 = (Ret OK, w1) /\
  VRuntimeFilterSlots.disable_meaningless_filters this state w1
    = (Ret OK, w1) /\
  (VRuntimeFilterSlots.insert this [[1; 2; 3]%Z] w1).2 = w1.
Proof.
  intros this w state w1.
  assert (H1 : valid w (_runtime_filters this)).
  { repeat constructor; eexists; reflexivity. }
  split; [exact H1 |].
  exact (X3_ignored_group_is_inert this state 5000 [[1; 2; 3]%Z] w H1).
Defined.

(** X4: once [disable_all_filters] has run on a group without null
    pointers, [disable_meaningless_filters] returns OK and leaves the world
    as it is, and [insert] appends no batch and changes nothing. *)
Theorem X4_disabled_group_is_not_fed :
  forall (this : VRuntimeFilterSlots) (state : RuntimeState)
         (block : Block) (w : World),
    valid w (_runtime_filters this) ->
    let w1 := (VRuntimeFilterSlots.disable_all_filters this w).2 in
    VRuntimeFilterSlots.disable_meaningless_filters this state w1
      = (Ret OK, w1) /\
    (VRuntimeFilterSlots.insert this block w1).2 = w1.
Proof.
  intros this state block w Hv w1. subst w1.
  destruct (disable_all_filters_run this w Hv) as (h' & Hrun & Hin & _).
  rewrite Hrun. cbn [snd].
  assert (Hfl : forall q, q ∈ _runtime_filters this ->
                  exists f, heap (set_heap h' w) !! q = Some f /\
                            flagged f = true).
  { intros q Hq. destruct (proj1 (Forall_forall _ _) Hv q Hq) as (f & Hf).
    exists (with_disabled f). split; [exact (Hin q f Hq Hf) |].
    unfold flagged. cbn. apply orb_true_r. }
  split.
  - now apply disable_meaningless_filters_flagged.
  - now apply insert_flagged.
Qed.

Lemma X4_disabled_group_is_not_fed_witness :
  let this := mkVRuntimeFilterSlots [mkVExprContext 0] [0; 1] in
  let w := world_of [plain_filter 7 0 IN_FILTER IN_FILTER;
                     plain_filter 8 0 MINMAX_FILTER MINMAX_FILTER] always_ok in
  let state := mkRuntimeState 1000 in
  let w1 := (VRuntimeFilterSlots.disable_all_filters this w).2 in
  valid w (_runtime_filters this) /\
  VRuntimeFilterSlots.disable_meaningless_filters this state w1
    = (Ret OK, w1) /\
  (VRuntimeFilterSlots.insert this [[1; 2; 3]%Z] w1).2 = w1.
Proof.
  intros this w state w1.
  assert (H1 : valid w (_runtime_filters this)).
  { repeat constructor; eexists; reflexivity. }
  split; [exact H1 |].
  exact (X4_disabled_group_is_not_fed this state [[1; 2; 3]%Z] w H1).
Defined.

(** Unlike an ignored handle, a disabled one is still materialized. *)
Example disabled_handle_is_materialized :
  let this := mkVRuntimeFilterSlots [mkVExprContext 0] [0] in
  let w := world_of [plain_filter 7 0 IN_OR_BLOOM_FILTER IN_FILTER] always_ok in
  let w1 := (VRuntimeFilterSlots.disable_all_filters this w).2 in
  let r := VRuntimeFilterSlots.init_filters this (mkRuntimeState 1000) 5000 w1 in
  r.1 = Ret OK /\
  _real_type <$> heap r.2 !! 0 = Some BLOOM_FILTER /\
  trace r.2 = [EvChangeToBloomFilter 0; EvInitBloomFilter 0 5000].
Proof. repeat split; reflexivity. Qed.

(** ** More on redundancy pruning *)

Lemma counted_real_type f : counted f = true -> _real_type f = IN_FILTER.
Proof. intros Hc. apply counted_iff in Hc. tauto. Qed.

Lemma not_counted_other_type f : _real_type f <> IN_FILTER -> counted f = false.
Proof.
  intros Hr. destruct (counted f) eqn:Hc; [| reflexivity].
  destruct Hr. now apply counted_real_type.
Qed.

(** X5: after [disable_meaningless_filters] on a group of distinct handles,
    none of them null, an active filter whose effective type is not IN is
    disabled exactly when some counted IN filter of the group (active, of
    effective type IN, needing size sync or not declared hybrid) targets the
    same [expr_order], wherever in the group that IN filter stands; otherwise
    it is left as it is. *)
Theorem X5_dominated_filters_disabled :
  forall (this : VRuntimeFilterSlots) (state : RuntimeState) (w : World)
         (p : addr) (f : IRuntimeFilter),
    NoDup (_runtime_filters this) ->
    valid w (_runtime_filters this) ->
    p ∈ _runtime_filters this ->
    heap w !! p = Some f ->
    active f = true ->
    _real_type f <> IN_FILTER ->
    let r := VRuntimeFilterSlots.disable_meaningless_filters this state w in
    ((exists q fq, q ∈ _runtime_filters this /\ heap w !! q = Some fq /\
                   counted fq = true /\ _expr_order fq = _expr_order f) ->
     heap r.2 !! p = Some (with_disabled f)) /\
    ((forall q fq, q ∈ _runtime_filters this -> heap w !! q = Some fq ->
                   counted fq = true -> _expr_order fq <> _expr_order f) ->
     heap r.2 !! p = Some f).
Proof.
  intros this state w p f Hnd Hv Hp Hf Hact Hreal r. subst r.
  destruct (disable_meaningless_filters_run this state w Hnd Hv)
    as (h' & Hrun & _ & Hin).
  rewrite Hrun. cbn [snd heap set_heap].
  destruct (proj1 (list_elem_of_lookup _ _) Hp) as (i & Hi).
  rewrite (Hin i p f Hi Hf). cbn zeta.
  rewrite (not_counted_other_type f Hreal). cbn [andb].
  unfold dominated. rewrite Hact, (bool_decide_eq_false_2 _ Hreal).
  cbn [andb negb]. split.
  - intros (q & fq & Hq & Hfq & Hc & He).
    rewrite bool_decide_eq_true_2; [reflexivity |].
    apply seen_spec. right. exists q, fq. auto.
  - intros Hno. rewrite bool_decide_eq_false_2; [reflexivity |].
    intros Hs. apply seen_spec in Hs as [Hs | (q & fq & Hq & Hfq & Hc & He)].
    + now apply not_elem_of_empty in Hs.
    + exact (Hno q fq Hq Hfq Hc He).
Qed.

Lemma X5_dominated_filters_disabled_witness :
  let this := mkVRuntimeFilterSlots [mkVExprContext 0] [0; 1; 2] in
  let f0 := plain_filter 7 0 BLOOM_FILTER BLOOM_FILTER in
  let f1 := plain_filter 8 1 MINMAX_FILTER MINMAX_FILTER in
  let f2 := plain_filter 9 0 IN_FILTER IN_FILTER in
  let w := world_of [f0; f1; f2] always_ok in
  let r := VRuntimeFilterSlots.disable_meaningless_filters this
             (mkRuntimeState 1000) w in
  (NoDup (_runtime_filters this) /\ valid w (_runtime_filters this) /\
   0 ∈ _runtime_filters this /\ heap w !! 0 = Some f0 /\
   active f0 = true /\ _real_type f0 <> IN_FILTER /\
   exists q fq, q ∈ _runtime_filters this /\ heap w !! q = Some fq /\
                counted fq = true /\ _expr_order fq = _expr_order f0) /\
  heap r.2 !! 0 = Some (with_disabled f0).
Proof.
  intros this f0 f1 f2 w r.
  assert (H1 : NoDup (_runtime_filters this)).
  { apply (bool_decide_unpack _). vm_compute. exact I. }
  assert (H2 : valid w (_runtime_filters this)).
  { repeat constructor; eexists; reflexivity. }
  assert (H3 : 0 ∈ _runtime_filters this) by apply list_elem_of_here.
  assert (H4 : heap w !! 0 = Some f0) by reflexivity.
  assert (H5 : active f0 = true) by reflexivity.
  assert (H6 : _real_type f0 <> IN_FILTER) by discriminate.
  assert (H7 : exists q fq, q ∈ _runtime_filters this /\
                 heap w !! q = Some fq /\ counted fq = true /\
                 _expr_order fq = _expr_order f0).
  { exists 2, f2. repeat split.
    apply list_elem_of_further, list_elem_of_further, list_elem_of_here. }
  split; [repeat split; assumption |].
  exact (proj1 (X5_dominated_filters_disabled this (mkRuntimeState 1000) w 0
                  f0 H1 H2 H3 H4 H5 H6) H7).
Defined.

(** X6: [disable_meaningless_filters] on a group of distinct handles, none
    of them null, returns OK and does nothing but set [disabled] flags: each
    handle of the group is left as it is or has only that flag set; a handle
    that is already ignored or disabled, and an active IN filter of hybrid
    declared type without size sync, are left as they are; filter objects
    outside the group, the shared contexts and the trace do not change. *)
Theorem X6_pruning_only_disables :
  forall (this : VRuntimeFilterSlots) (state : RuntimeState) (w : World),
    NoDup (_runtime_filters this) ->
    valid w (_runtime_filters this) ->
    exists h' : gmap addr IRuntimeFilter,
      VRuntimeFilterSlots.disable_meaningless_filters this state w
      = (Ret OK, set_heap h' w) /\
      (forall q, q ∉ _runtime_filters this -> h' !! q = heap w !! q) /\
      (forall q f, q ∈ _runtime_filters this -> heap w !! q = Some f ->
         (h' !! q = Some f \/ h' !! q = Some (with_disabled f)) /\
         (flagged f = true -> h' !! q = Some f) /\
         (_real_type f = IN_FILTER ->
          _need_sync_filter_size f = false ->
          _runtime_filter_type f = IN_OR_BLOOM_FILTER ->
          h' !! q = Some f)).
Proof.
  intros this state w Hnd Hv.
  destruct (disable_meaningless_filters_run this state w Hnd Hv)
    as (h' & Hrun & Hout & Hin).
  exists h'. split; [exact Hrun |]. split; [exact Hout |].
  intros q f Hq Hf.
  destruct (proj1 (list_elem_of_lookup _ _) Hq) as (i & Hi).
  rewrite (Hin i q f Hi Hf). cbn zeta. split; [| split].
  - destruct (counted f && _); destruct (dominated _ _); auto.
  - intros Hfl.
    assert (Hc : counted f = false).
    { unfold counted, active. unfold flagged in Hfl.
      destruct (_ignored f), (_disabled f); try discriminate; reflexivity. }
    assert (Hd : forall s, dominated s f = false).
    { intros s. unfold dominated, active. unfold flagged in Hfl.
      destruct (_ignored f), (_disabled f); try discriminate; reflexivity. }
    now rewrite Hc, Hd.
  - intros Hreal Hns Hty.
    assert (Hc : counted f = false).
    { unfold counted. rewrite Hns, (bool_decide_eq_true_2 _ Hty). cbn.
      apply andb_false_r. }
    assert (Hd : forall s, dominated s f = false).
    { intros s. unfold dominated. rewrite (bool_decide_eq_true_2 _ Hreal).
      cbn. now rewrite andb_false_r. }
    now rewrite Hc, Hd.
Qed.

Lemma X6_pruning_only_disables_witness :
  let this := mkVRuntimeFilterSlots [mkVExprContext 0] [0; 1; 2] in
  let w := world_of [plain_filter 7 0 IN_FILTER IN_FILTER;
                     plain_filter 8 0 IN_OR_BLOOM_FILTER IN_FILTER;
                     mkIRuntimeFilter 9 0 MINMAX_FILTER MINMAX_FILTER true false false 0 0;
                     plain_filter 10 0 MINMAX_FILTER MINMAX_FILTER] always_ok in
  (NoDup (_runtime_filters this) /\ valid w (_runtime_filters this)) /\
  exists h' : gmap addr IRuntimeFilter,
    VRuntimeFilterSlots.disable_meaningless_filters this (mkRuntimeState 1000) w
    = (Ret OK, set_heap h' w) /\
    (forall q, q ∉ _runtime_filters this -> h' !! q = heap w !! q) /\
    (forall q f, q ∈ _runtime_filters this -> heap w !! q = Some f ->
       (h' !! q = Some f \/ h' !! q = Some (with_disabled f)) /\
       (flagged f = true -> h' !! q = Some f) /\
       (_real_type f = IN_FILTER ->
        _need_sync_filter_size f = false ->
        _runtime_filter_type f = IN_OR_BLOOM_FILTER ->
        h' !! q = Some f)).
Proof.
  intros this w.
  assert (H1 : NoDup (_runtime_filters this)).
  { apply (bool_decide_unpack _). vm_compute. exact I. }
  assert (H2 : valid w (_runtime_filters this)).
  { repeat constructor; eexists; reflexivity. }
  split; [split; assumption |].
  exact (X6_pruning_only_disables this (mkRuntimeState 1000) w H1 H2).
Defined.

(** The set of the first loop can only shrink when counted handles are
    taken away. *)
Lemma seen_sub w1 w l (s : gset Z) e :
  (forall q g, q ∈ l -> heap w1 !! q = Some g -> counted g = true ->
               heap w !! q = Some g) ->
  e ∈ seen w1 l s -> e ∈ seen w l s.
Proof.
  intros Hsame Hs. apply seen_spec in Hs. apply seen_spec.
  destruct Hs as [Hs | (q & g & Hq & Hg & Hc & He)]; [now left |].
  right. exists q, g. repeat split; auto.
Qed.

(** X7: [disable_meaningless_filters] is idempotent on a group of distinct
    handles, none of them null: run on the world a first run has left, it
    returns OK and changes nothing. *)
Theorem X7_pruning_idempotent :
  forall (this : VRuntimeFilterSlots) (state state' : RuntimeState)
         (w : World),
    NoDup (_runtime_filters this) ->
    valid w (_runtime_filters this) ->
    let w1 := (VRuntimeFilterSlots.disable_meaningless_filters this state w).2 in
    VRuntimeFilterSlots.disable_meaningless_filters this state' w1
    = (Ret OK, w1).
Proof.
  intros this state state' w Hnd Hv w1. subst w1.
  destruct (disable_meaningless_filters_run this state w Hnd Hv)
    as (h1 & Hrun1 & Hout1 & Hin1).
  rewrite Hrun1. cbn [snd].
  set (l := _runtime_filters this) in *.
  set (w1 := set_heap h1 w).
  assert (Hv1 : valid w1 l).
  { apply Forall_forall. intros q Hq.
    destruct (proj1 (list_elem_of_lookup _ _) Hq) as (i & Hi).
    destruct (proj1 (Forall_forall _ _) Hv q Hq) as (f & Hf).
    cbn. rewrite (Hin1 i q f Hi Hf). eauto. }
  destruct (disable_meaningless_filters_run this state' w1 Hnd Hv1)
    as (h2 & Hrun2 & Hout2 & Hin2).
  fold l in Hrun2, Hout2, Hin2.
  rewrite Hrun2. f_equal.
  assert (Hkept : forall q g, q ∈ l -> heap w1 !! q = Some g ->
                    counted g = true -> heap w !! q = Some g).
  { intros q g Hq Hg Hc.
    destruct (proj1 (list_elem_of_lookup _ _) Hq) as (i & Hi).
    destruct (proj1 (Forall_forall _ _) Hv q Hq) as (f & Hf).
    cbn in Hg. rewrite (Hin1 i q f Hi Hf) in Hg. cbn zeta in Hg.
    injection Hg as <-. rewrite Hf. f_equal. revert Hc.
    destruct (counted f && _).
    - rewrite dominated_with_disabled. now rewrite counted_with_disabled.
    - destruct (dominated _ f); [now rewrite counted_with_disabled | auto]. }
  assert (Heq : h2 = h1); [| rewrite Heq; now destruct w].
  apply map_eq. intros q.
  destruct (decide (q ∈ l)) as [Hq | Hq]; [| exact (Hout2 q Hq)].
  destruct (proj1 (list_elem_of_lookup _ _) Hq) as (i & Hi).
  destruct (proj1 (Forall_forall _ _) Hv q Hq) as (f & Hf).
  pose proof (Hin1 i q f Hi Hf) as H1. cbn zeta in H1.
  rewrite (Hin2 i q _ Hi H1), H1. f_equal. cbn zeta.
  destruct (counted f && bool_decide (_expr_order f ∈ seen w (take i l) ∅))
    eqn:Hc1.
  { rewrite (dominated_with_disabled (seen w l ∅)).
    rewrite counted_with_disabled. cbn [andb].
    now rewrite dominated_with_disabled. }
  destruct (dominated (seen w l ∅) f) eqn:Hc2.
  { rewrite counted_with_disabled. cbn [andb].
    now rewrite dominated_with_disabled. }
  assert (Hc1' : counted f
                 && bool_decide (_expr_order f ∈ seen w1 (take i l) ∅) = false).
  { destruct (counted f); [| reflexivity]. cbn [andb] in *.
    apply bool_decide_eq_false_1 in Hc1. apply bool_decide_eq_false_2.
    intros Hs. apply Hc1. eapply seen_sub; [| exact Hs].
    intros q' g Hq'. apply Hkept. exact (subseteq_take i l q' Hq'). }
  rewrite Hc1'.
  assert (Hc2' : dominated (seen w1 l ∅) f = false).
  { unfold dominated in *.
    destruct (active f && negb (bool_decide (_real_type f = IN_FILTER)));
      [| reflexivity].
    cbn [andb] in *. apply bool_decide_eq_false_1 in Hc2.
    apply bool_decide_eq_false_2. intros Hs. apply Hc2.
    eapply seen_sub; [| exact Hs]. exact Hkept. }
  now rewrite Hc2'.
Qed.

Lemma X7_pruning_idempotent_witness :
  let this := mkVRuntimeFilterSlots [mkVExprContext 0] [0; 1; 2; 3] in
  let w := world_of [plain_filter 7 0 IN_FILTER IN_FILTER;
                     plain_filter 8 0 MINMAX_FILTER MINMAX_FILTER;
                     plain_filter 9 0 IN_FILTER IN_FILTER;
                     plain_filter 10 1 BLOOM_FILTER BLOOM_FILTER] always_ok in
  let w1 := (VRuntimeFilterSlots.disable_meaningless_filters this
               (mkRuntimeState 1000) w).2 in
  (NoDup (_runtime_filters this) /\ valid w (_runtime_filters this)) /\
  VRuntimeFilterSlots.disable_meaningless_filters this (mkRuntimeState 5) w1
  = (Ret OK, w1).
Proof.
  intros this w w1.
  assert (H1 : NoDup (_runtime_filters this)).
  { apply (bool_decide_unpack _). vm_compute. exact I. }
  assert (H2 : valid w (_runtime_filters this)).
  { repeat constructor; eexists; reflexivity. }
  split; [split; assumption |].
  exact (X7_pruning_idempotent this (mkRuntimeState 1000) (mkRuntimeState 5)
           w H1 H2).
Defined.

(** ** Export to and import from the shared context *)

Lemma set_shared_insert_twice context (c1 c2 : SharedHashTableContext) w :
  set_shared
    (<[context := c2]> (shared (set_shared (<[context := c1]> (shared w)) w)))
    (set_shared (<[context := c1]> (shared w)) w)
  = set_shared (<[context := c2]> (shared w)) w.
Proof. unfold set_shared. cbn. now rewrite insert_insert_eq. Qed.

(** What [copy_to_shared_context] leaves in the context: for every identity
    the reference of the last handle of the group that carries it, and the
    former entry for an identity no handle carries. *)
Lemma export_run exprs context :
  forall l w c,
    shared w !! context = Some c ->
    valid w l ->
    exists slot' : gmap Z addr,
      VRuntimeFilterSlots.copy_to_shared_context
        (mkVRuntimeFilterSlots exprs l) context w
      = (Ret tt,
         set_shared (<[context := mkSharedHashTableContext slot']> (shared w))
           w) /\
      (forall id,
         (forall q f, q ∈ l -> heap w !! q = Some f -> _filter_id f <> id) ->
         slot' !! id = runtime_filters c !! id) /\
      (forall l1 q l2 f,
         l = l1 ++ q :: l2 ->
         heap w !! q = Some f ->
         (forall q2 f2, q2 ∈ l2 -> heap w !! q2 = Some f2 ->
                        _filter_id f2 <> _filter_id f) ->
         slot' !! _filter_id f = Some (_shared_context f)).
Proof.
  induction l as [| a l IH]; intros w c Hc Hv.
  - exists (runtime_filters c). split; [| split].
    + cbn. f_equal. destruct w as [h sh t e]. unfold set_shared. cbn in *.
      f_equal. rewrite insert_id; [reflexivity |]. now destruct c.
    + reflexivity.
    + intros l1 q l2 f Hl. now destruct l1.
  - apply Forall_cons in Hv as [[fa Ha] Hv].
    set (c1 := mkSharedHashTableContext
                 (<[_filter_id fa := _shared_context fa]> (runtime_filters c))).
    set (w1 := set_shared (<[context := c1]> (shared w)) w).
    destruct (IH w1 c1) as (slot' & Hrun & Hother & Hlast).
    { cbn. apply lookup_insert_eq. }
    { exact Hv. }
    exists slot'. split; [| split].
    + unfold VRuntimeFilterSlots.copy_to_shared_context in *.
      cbn [_runtime_filters for_each] in *. rewrite bind_assoc.
      run_body w (Ret (Next tt), w1)
        ltac:(exec Ha; unfold runtime_filters_assign; now rewrite Hc).
      rewrite Hrun. unfold w1. now rewrite set_shared_insert_twice.
    + intros id Hno. rewrite (Hother id).
      * cbn. apply lookup_insert_ne.
        apply (Hno a fa (list_elem_of_here _ _) Ha).
      * intros q f Hq. apply Hno. now apply list_elem_of_further.
    + intros l1 q l2 f Hl Hf Hlater. destruct l1 as [| b l1]; cbn in Hl.
      * injection Hl as <- <-. assert (f = fa) as -> by congruence.
        rewrite (Hother (_filter_id fa)).
        -- cbn. apply lookup_insert_eq.
        -- intros q2 f2 Hq2 Hf2. apply (Hlater q2 f2 Hq2 Hf2).
      * injection Hl as <- ->. exact (Hlast l1 q l2 f eq_refl Hf Hlater).
Qed.

Lemma export_run_any (this : VRuntimeFilterSlots) context c w :
  shared w !! context = Some c ->
  valid w (_runtime_filters this) ->
  exists slot' : gmap Z addr,
    VRuntimeFilterSlots.copy_to_shared_context this context w
    = (Ret tt,
       set_shared (<[context := mkSharedHashTableContext slot']> (shared w))
         w) /\
    (forall id,
       (forall q f, q ∈ _runtime_filters this -> heap w !! q = Some f ->
                    _filter_id f <> id) ->
       slot' !! id = runtime_filters c !! id) /\
    (forall l1 q l2 f,
       _runtime_filters this = l1 ++ q :: l2 ->
       heap w !! q = Some f ->
       (forall q2 f2, q2 ∈ l2 -> heap w !! q2 = Some f2 ->
                      _filter_id f2 <> _filter_id f) ->
       slot' !! _filter_id f = Some (_shared_context f)).
Proof.
  destruct this as [exprs l]. cbn [_runtime_filters]. intros Hc Hv.
  exact (export_run exprs context l w c Hc Hv).
Qed.

(** X8: [copy_to_shared_context] on a group without null pointers and a
    context that is not null writes, for every handle, its state reference
    under its filter identity; when several handles carry one identity the
    last in group order wins.  Entries of identities no handle carries stay,
    and no filter object, no other context and no trace entry changes. *)
Theorem X8_export_writes_every_identity :
  forall (this : VRuntimeFilterSlots) (context : addr)
         (c : SharedHashTableContext) (w : World),
    shared w !! context = Some c ->
    valid w (_runtime_filters this) ->
    exists slot' : gmap Z addr,
      VRuntimeFilterSlots.copy_to_shared_context this context w
      = (Ret tt,
         set_shared (<[context := mkSharedHashTableContext slot']> (shared w))
           w) /\
      (forall id,
         (forall q f, q ∈ _runtime_filters this -> heap w !! q = Some f ->
                      _filter_id f <> id) ->
         slot' !! id = runtime_filters c !! id) /\
      (forall l1 q l2 f,
         _runtime_filters this = l1 ++ q :: l2 ->
         heap w !! q = Some f ->
         (forall q2 f2, q2 ∈ l2 -> heap w !! q2 = Some f2 ->
                        _filter_id f2 <> _filter_id f) ->
         slot' !! _filter_id f = Some (_shared_context f)).
Proof.
  intros [exprs l] context c w Hc Hv. cbn [_runtime_filters] in *.
  destruct (export_run exprs context l w c Hc Hv) as (slot' & H1 & H2 & H3).
  exists slot'. repeat split; assumption.
Qed.

Lemma X8_export_writes_every_identity_witness :
  let this := mkVRuntimeFilterSlots [mkVExprContext 0] [0; 1] in
  let w := sharing 5 {[ 3%Z := 40 ]}
             (world_of [mkIRuntimeFilter 7 0 IN_FILTER IN_FILTER false false false 0 50;
                        mkIRuntimeFilter 8 0 MINMAX_FILTER MINMAX_FILTER false false false 0 51]
                always_ok) in
  let c := mkSharedHashTableContext {[ 3%Z := 40 ]} in
  (shared w !! 5 = Some c /\ valid w (_runtime_filters this)) /\
  exists slot' : gmap Z addr,
    VRuntimeFilterSlots.copy_to_shared_context this 5 w
    = (Ret tt,
       set_shared (<[5 := mkSharedHashTableContext slot']> (shared w)) w) /\
    (forall id,
       (forall q f, q ∈ _runtime_filters this -> heap w !! q = Some f ->
                    _filter_id f <> id) ->
       slot' !! id = runtime_filters c !! id) /\
    (forall l1 q l2 f,
       _runtime_filters this = l1 ++ q :: l2 ->
       heap w !! q = Some f ->
       (forall q2 f2, q2 ∈ l2 -> heap w !! q2 = Some f2 ->
                      _filter_id f2 <> _filter_id f) ->
       slot' !! _filter_id f = Some (_shared_context f)).
Proof.
  intros this w c.
  assert (H1 : shared w !! 5 = Some c) by reflexivity.
  assert (H2 : valid w (_runtime_filters this)).
  { repeat constructor; eexists; reflexivity. }
  split; [split; assumption |].
  exact (X8_export_writes_every_identity this 5 c w H1 H2).
Defined.

(** The loop of [copy_from_shared_context] when every identity is found. *)
Lemma import_run exprs context c :
  forall l w,
    shared w !! context = Some c ->
    (forall q, q ∈ l ->
       exists f ref, heap w !! q = Some f /\
                     runtime_filters c !! _filter_id f = Some ref) ->
    exists h' : gmap addr IRuntimeFilter,
      VRuntimeFilterSlots.copy_from_shared_context
        (mkVRuntimeFilterSlots exprs l) context w
      = (Ret OK, set_heap h' w) /\
      (forall q f, q ∈ l -> heap w !! q = Some f ->
         exists ref, runtime_filters c !! _filter_id f = Some ref /\
                     h' !! q = Some (with_shared_context ref f)) /\
      (forall q, q ∉ l -> h' !! q = heap w !! q).
Proof.
  induction l as [| a l IH]; intros w Hc Hpre.
  - exists (heap w). cbn. rewrite set_heap_id. repeat split; auto.
    intros q f Hq. inversion Hq.
  - destruct (Hpre a (list_elem_of_here _ _)) as (fa & ra & Ha & Hra).
    set (w1 := set_heap (<[a := with_shared_context ra fa]> (heap w)) w).
    destruct (IH w1) as (h' & Hrun & Hin & Hout).
    { exact Hc. }
    { intros q Hq. cbn. destruct (decide (q = a)) as [-> | Hqa].
      - rewrite lookup_insert_eq. exists (with_shared_context ra fa), ra.
        split; [reflexivity | exact Hra].
      - rewrite lookup_insert_ne by congruence.
        apply Hpre. now apply list_elem_of_further. }
    exists h'. split; [| split].
    + unfold VRuntimeFilterSlots.copy_from_shared_context in *.
      cbn [_runtime_filters for_each] in *. rewrite bind_assoc.
      run_body w (Ret (Next tt), w1)
        ltac:(exec Ha; unfold runtime_filters_find; rewrite Hc; cbn;
              rewrite Hra; now rewrite Ha).
      exact Hrun.
    + intros q f Hq Hf. destruct (decide (q = a)) as [-> | Hqa].
      * assert (f = fa) as -> by congruence. exists ra.
        split; [exact Hra |].
        destruct (decide (a ∈ l)) as [Hal | Hal].
        -- destruct (Hin a (with_shared_context ra fa) Hal) as (ref & Href & Hh).
           { cbn. now rewrite lookup_insert_eq. }
           cbn in Href. rewrite Hra in Href. injection Href as <-.
           exact Hh.
        -- rewrite (Hout a Hal). cbn. now rewrite lookup_insert_eq.
      * apply elem_of_cons in Hq as [-> | Hq]; [congruence |].
        apply (Hin q f Hq). cbn. now rewrite lookup_insert_ne by congruence.
    + intros q Hq. apply not_elem_of_cons in Hq as [Hqa Hq].
      rewrite (Hout q Hq). cbn. now rewrite lookup_insert_ne by congruence.
Qed.

(** X9: when the shared context holds an entry for the identity of every
    handle of the group, [copy_from_shared_context] returns OK and every
    handle of the group holds the reference stored under its identity; it
    changes nothing else of those handles, no other filter object, no shared
    context, and calls no collaborator. *)
Theorem X9_import_replaces_every_reference :
  forall (this : VRuntimeFilterSlots) (context : addr)
         (c : SharedHashTableContext) (w : World),
    shared w !! context = Some c ->
    (forall q, q ∈ _runtime_filters this ->
       exists f ref, heap w !! q = Some f /\
                     runtime_filters c !! _filter_id f = Some ref) ->
    exists h' : gmap addr IRuntimeFilter,
      VRuntimeFilterSlots.copy_from_shared_context this context w
      = (Ret OK, set_heap h' w) /\
      (forall q f, q ∈ _runtime_filters this -> heap w !! q = Some f ->
         exists ref, runtime_filters c !! _filter_id f = Some ref /\
                     h' !! q = Some (with_shared_context ref f)) /\
      (forall q, q ∉ _runtime_filters this -> h' !! q = heap w !! q).
Proof.
  intros [exprs l] context c w Hc Hpre. cbn [_runtime_filters] in *.
  destruct (import_run exprs context c l w Hc Hpre) as (h' & H1 & H2 & H3).
  exists h'. repeat split; assumption.
Qed.

Lemma X9_import_replaces_every_reference_witness :
  let this := mkVRuntimeFilterSlots [mkVExprContext 0] [0; 1] in
  let c := mkSharedHashTableContext {[ 7%Z := 50; 8%Z := 51 ]} in
  let w := sharing 5 {[ 7%Z := 50; 8%Z := 51 ]}
             (world_of [plain_filter 7 0 IN_FILTER IN_FILTER;
                        plain_filter 8 0 MINMAX_FILTER MINMAX_FILTER]
                always_ok) in
  (shared w !! 5 = Some c /\
   forall q, q ∈ _runtime_filters this ->
     exists f ref, heap w !! q = Some f /\
                   runtime_filters c !! _filter_id f = Some ref) /\
  exists h' : gmap addr IRuntimeFilter,
    VRuntimeFilterSlots.copy_from_shared_context this 5 w
    = (Ret OK, set_heap h' w) /\
    (forall q f, q ∈ _runtime_filters this -> heap w !! q = Some f ->
       exists ref, runtime_filters c !! _filter_id f = Some ref /\
                   h' !! q = Some (with_shared_context ref f)) /\
    (forall q, q ∉ _runtime_filters this -> h' !! q = heap w !! q).
Proof.
  intros this c w.
  assert (H1 : shared w !! 5 = Some c) by reflexivity.
  assert (H2 : forall q, q ∈ _runtime_filters this ->
             exists f ref, heap w !! q = Some f /\
                           runtime_filters c !! _filter_id f = Some ref).
  { intros q Hq. apply elem_of_cons in Hq as [-> | Hq].
    - exists (plain_filter 7 0 IN_FILTER IN_FILTER), 50. split; reflexivity.
    - apply list_elem_of_singleton in Hq as ->.
      exists (plain_filter 8 0 MINMAX_FILTER MINMAX_FILTER), 51.
      split; reflexivity. }
  split; [split; assumption |].
  exact (X9_import_replaces_every_reference this 5 c w H1 H2).
Defined.

(** Among the handles that carry an identity there is a last one. *)
Lemma last_with_identity w (id : Z) :
  forall l,
    valid w l ->
    (exists q f, q ∈ l /\ heap w !! q = Some f /\ _filter_id f = id) ->
    exists l1 q l2 f,
      l = l1 ++ q :: l2 /\ heap w !! q = Some f /\ _filter_id f = id /\
      forall q2 f2, q2 ∈ l2 -> heap w !! q2 = Some f2 -> _filter_id f2 <> id.
Proof.
  induction l as [| a l IH]; intros Hv (q & f & Hq & Hf & Hid).
  - inversion Hq.
  - apply Forall_cons in Hv as [[fa Ha] Hv].
    destruct (decide (Exists (fun q => _filter_id <$> heap w !! q = Some id) l))
      as [Hex | Hno].
    + apply Exists_exists in Hex as (q' & Hq' & Hid').
      destruct (heap w !! q') as [f' |] eqn:Hf'; [| discriminate].
      injection Hid' as Hid'.
      destruct (IH Hv) as (l1 & q1 & l2 & f1 & -> & H1 & H2 & H3);
        [now exists q', f' |].
      exists (a :: l1), q1, l2, f1. repeat split; assumption.
    + assert (Hnone : forall q2 f2, q2 ∈ l -> heap w !! q2 = Some f2 ->
                        _filter_id f2 <> id).
      { intros q2 f2 Hq2 Hf2 Hid2. apply Hno. apply Exists_exists.
        exists q2. split; [exact Hq2 |]. now rewrite Hf2, <- Hid2. }
      apply elem_of_cons in Hq as [-> | Hq].
      * exists [], a, l, f. repeat split; assumption.
      * destruct (Hnone q f Hq Hf Hid).
Qed.

(** X10: export followed by import shares state.  After
    [copy_to_shared_context] by one group into a context, a
    [copy_from_shared_context] from that context by a sibling group, each of
    whose identities is carried by some handle of the exporting group,
    returns OK, and every handle of the sibling holds the very reference of
    the exporting handle with the same identity (the last such handle in the
    exporter's order). *)
Theorem X10_export_then_import_shares :
  forall (exporter sibling : VRuntimeFilterSlots) (context : addr)
         (c : SharedHashTableContext) (w : World),
    shared w !! context = Some c ->
    valid w (_runtime_filters exporter) ->
    valid w (_runtime_filters sibling) ->
    (forall q f, q ∈ _runtime_filters sibling -> heap w !! q = Some f ->
       exists q1 f1, q1 ∈ _runtime_filters exporter /\
                     heap w !! q1 = Some f1 /\ _filter_id f1 = _filter_id f) ->
    let w1 := (VRuntimeFilterSlots.copy_to_shared_context exporter context w).2 in
    let r := VRuntimeFilterSlots.copy_from_shared_context sibling context w1 in
    r.1 = Ret OK /\
    forall q f l1 q1 l2 f1,
      q ∈ _runtime_filters sibling ->
      heap w !! q = Some f ->
      _runtime_filters exporter = l1 ++ q1 :: l2 ->
      heap w !! q1 = Some f1 ->
      _filter_id f1 = _filter_id f ->
      (forall q2 f2, q2 ∈ l2 -> heap w !! q2 = Some f2 ->
                     _filter_id f2 <> _filter_id f1) ->
      heap r.2 !! q = Some (with_shared_context (_shared_context f1) f).
Proof.
  intros exporter sibling context c w Hc Hve Hvs Hids w1 r. subst r w1.
  destruct (export_run_any exporter context c w Hc Hve)
    as (slot' & Hrun & _ & Hlast).
  rewrite Hrun. cbn [snd].
  set (w1 := set_shared _ w).
  assert (Hc1 : shared w1 !! context = Some (mkSharedHashTableContext slot')).
  { cbn. apply lookup_insert_eq. }
  assert (Hpre : forall q, q ∈ _runtime_filters sibling ->
            exists f ref, heap w1 !! q = Some f /\
              runtime_filters (mkSharedHashTableContext slot')
                !! _filter_id f = Some ref).
  { intros q Hq. destruct (proj1 (Forall_forall _ _) Hvs q Hq) as (f & Hf).
    destruct (last_with_identity w (_filter_id f) _ Hve (Hids q f Hq Hf))
      as (l1 & q1 & l2 & f1 & Hl & Hf1 & Hid & Hlater).
    exists f, (_shared_context f1). split; [exact Hf |]. cbn.
    rewrite <- Hid. apply (Hlast l1 q1 l2 f1 Hl Hf1).
    intros q2 f2 Hq2 Hf2. rewrite Hid. exact (Hlater q2 f2 Hq2 Hf2). }
  destruct sibling as [exprs l]. cbn [_runtime_filters] in *.
  destruct (import_run exprs context _ l w1 Hc1 Hpre) as (h' & Hrun2 & Hin & _).
  rewrite Hrun2. split; [reflexivity |].
  intros q f l1 q1 l2 f1 Hq Hf Hl Hf1 Hid Hlater.
  destruct (Hin q f Hq Hf) as (ref & Href & Hh).
  cbn in Href. rewrite <- Hid, (Hlast l1 q1 l2 f1 Hl Hf1 Hlater) in Href.
  injection Href as <-. exact Hh.
Qed.

Lemma X10_export_then_import_shares_witness :
  let exporter := mkVRuntimeFilterSlots [mkVExprContext 0] [0; 1] in
  let sibling := mkVRuntimeFilterSlots [mkVExprContext 0] [2; 3] in
  let e0 := mkIRuntimeFilter 7 0 IN_FILTER IN_FILTER false false false 0 50 in
  let e1 := mkIRuntimeFilter 8 0 MINMAX_FILTER MINMAX_FILTER false false false 0 51 in
  let s0 := plain_filter 7 0 IN_FILTER IN_FILTER in
  let s1 := plain_filter 8 0 MINMAX_FILTER MINMAX_FILTER in
  let w := sharing 5 ∅ (world_of [e0; e1; s0; s1] always_ok) in
  let w1 := (VRuntimeFilterSlots.copy_to_shared_context exporter 5 w).2 in
  let r := VRuntimeFilterSlots.copy_from_shared_context sibling 5 w1 in
  (shared w !! 5 = Some (mkSharedHashTableContext ∅) /\
   valid w (_runtime_filters exporter) /\
   valid w (_runtime_filters sibling) /\
   forall q f, q ∈ _runtime_filters sibling -> heap w !! q = Some f ->
     exists q1 f1, q1 ∈ _runtime_filters exporter /\
                   heap w !! q1 = Some f1 /\ _filter_id f1 = _filter_id f) /\
  r.1 = Ret OK /\
  heap r.2 !! 2 = Some (with_shared_context 50 s0).
Proof.
  intros exporter sibling e0 e1 s0 s1 w w1 r.
  assert (H1 : shared w !! 5 = Some (mkSharedHashTableContext ∅))
    by reflexivity.
  assert (H2 : valid w (_runtime_filters exporter)).
  { repeat constructor; eexists; reflexivity. }
  assert (H3 : valid w (_runtime_filters sibling)).
  { repeat constructor; eexists; reflexivity. }
  assert (H4 : forall q f, q ∈ _runtime_filters sibling ->
             heap w !! q = Some f ->
             exists q1 f1, q1 ∈ _runtime_filters exporter /\
                           heap w !! q1 = Some f1 /\
                           _filter_id f1 = _filter_id f).
  { intros q f Hq Hf. apply elem_of_cons in Hq as [-> | Hq].
    - exists 0, e0. split; [apply list_elem_of_here |].
      split; [reflexivity |]. vm_compute in Hf. now injection Hf as <-.
    - apply list_elem_of_singleton in Hq as ->.
      exists 1, e1. split; [apply list_elem_of_further, list_elem_of_here |].
      split; [reflexivity |]. vm_compute in Hf. now injection Hf as <-. }
  split; [repeat split; assumption |].
  destruct (X10_export_then_import_shares exporter sibling 5
              (mkSharedHashTableContext ∅) w H1 H2 H3 H4) as [Hok Href].
  split; [exact Hok |].
  apply (Href 2 s0 [] 0 [1] e0).
  - apply list_elem_of_here.
  - reflexivity.
  - reflexivity.
  - reflexivity.
  - reflexivity.
  - intros q2 f2 Hq2 Hf2. apply list_elem_of_singleton in Hq2 as ->.
    vm_compute in Hf2. injection Hf2 as <-. discriminate.
Defined.

(** ** Publication stops at the first failure *)

(** The loop of [publish] on a group whose first handle to fail is [p]. *)
Lemma publish_stops exprs state publish_local p l2 :
  forall l1 w,
    valid w (l1 ++ [p]) ->
    (forall la q lb, l1 = la ++ q :: lb ->
       ok (publish_result (env w)
             (trace w ++ map (fun x => EvPublish x publish_local) la)
             q publish_local) = true) ->
    ok (publish_result (env w)
          (trace w ++ map (fun x => EvPublish x publish_local) l1)
          p publish_local) = false ->
    VRuntimeFilterSlots.publish (mkVRuntimeFilterSlots exprs (l1 ++ p :: l2))
      state publish_local w
    = (Ret (publish_result (env w)
              (trace w ++ map (fun x => EvPublish x publish_local) l1)
              p publish_local),
       set_trace
         (trace w ++ map (fun x => EvPublish x publish_local) (l1 ++ [p])) w).
Proof.
  induction l1 as [| a l1 IH]; intros w Hv Hok Hfail.
  - apply Forall_cons in Hv as [[f Hp] _].
    cbn [app map] in *. rewrite app_nil_r in Hfail. rewrite app_nil_r.
    unfold VRuntimeFilterSlots.publish. cbn [_runtime_filters for_each].
    rewrite bind_assoc.
    set (st := publish_result (env w) (trace w) p publish_local) in *.
    run_body w (Ret (@Return unit st),
                set_trace (trace w ++ [EvPublish p publish_local]) w)
      ltac:(exec Hp; fold st; now rewrite Hfail).
    reflexivity.
  - cbn [app] in Hv. apply Forall_cons in Hv as [[fa Ha] Hv].
    set (w1 := set_trace (trace w ++ [EvPublish a publish_local]) w).
    assert (Hoka : ok (publish_result (env w) (trace w) a publish_local) = true).
    { specialize (Hok [] a l1 eq_refl). cbn in Hok.
      now rewrite app_nil_r in Hok. }
    specialize (IH w1 Hv).
    unfold VRuntimeFilterSlots.publish in *.
    cbn [app _runtime_filters for_each] in *. rewrite bind_assoc.
    run_body w (Ret (Next tt), w1)
      ltac:(exec Ha; fold w1; now rewrite Hoka).
    cbn [map]. 
    replace (trace w ++ EvPublish a publish_local
               :: map (fun x => EvPublish x publish_local) l1)
      with (trace w1 ++ map (fun x => EvPublish x publish_local) l1)
      by (cbn; now rewrite <- app_assoc).
    replace (set_trace
               (trace w ++ EvPublish a publish_local
                  :: map (fun x => EvPublish x publish_local) (l1 ++ [p])) w)
      with (set_trace
              (trace w1 ++ map (fun x => EvPublish x publish_local) (l1 ++ [p]))
              w1)
      by (unfold w1, set_trace; cbn; now rewrite <- app_assoc).
    apply IH.
    + intros la q lb Hl. specialize (Hok (a :: la) q lb).
      cbn in Hok. cbn. rewrite <- app_assoc. apply Hok. now rewrite Hl.
    + cbn. rewrite <- app_assoc. exact Hfail.
Qed.

(** X11: [publish] stops at the first failure.  In a group whose handles up
    to and including [p] are not null, if the publish operation of every
    handle before [p] succeeds and that of [p] fails, then [publish] returns
    the status of [p]; the handles before [p] and [p] itself have been
    published, in group order, and no handle after [p] has; no filter object
    and no shared context changes. *)
Theorem X11_publish_stops_at_first_failure :
  forall (this : VRuntimeFilterSlots) (state : RuntimeState)
         (publish_local : bool) (w : World) (l1 l2 : list addr) (p : addr),
    _runtime_filters this = l1 ++ p :: l2 ->
    valid w (l1 ++ [p]) ->
    (forall la q lb, l1 = la ++ q :: lb ->
       ok (publish_result (env w)
             (trace w ++ map (fun x => EvPublish x publish_local) la)
             q publish_local) = true) ->
    ok (publish_result (env w)
          (trace w ++ map (fun x => EvPublish x publish_local) l1)
          p publish_local) = false ->
    VRuntimeFilterSlots.publish this state publish_local w
    = (Ret (publish_result (env w)
              (trace w ++ map (fun x => EvPublish x publish_local) l1)
              p publish_local),
       set_trace
         (trace w ++ map (fun x => EvPublish x publish_local) (l1 ++ [p])) w).
Proof.
  intros [exprs l] state publish_local w l1 l2 p Hl Hv Hok Hfail.
  cbn [_runtime_filters] in Hl. subst l.
  now apply publish_stops.
Qed.

Lemma X11_publish_stops_at_first_failure_witness :
  let this := mkVRuntimeFilterSlots [mkVExprContext 0] [0; 1; 2] in
  let failing := mkCollaborators (fun _ _ _ => OK) (fun _ _ => OK)
                   (fun _ _ _ => OK)
                   (fun _ q _ => if Nat.eqb q 1 then Failure "rpc failed"
                                 else OK) in
  let w := world_of [plain_filter 7 0 IN_FILTER IN_FILTER;
                     plain_filter 8 0 MINMAX_FILTER MINMAX_FILTER;
                     plain_filter 9 1 IN_FILTER IN_FILTER] failing in
  (_runtime_filters this = [0] ++ 1 :: [2] /\
   valid w ([0] ++ [1]) /\
   (forall la q lb, [0] = la ++ q :: lb ->
      ok (publish_result (env w)
            (trace w ++ map (fun x => EvPublish x true) la) q true) = true) /\
   ok (publish_result (env w)
         (trace w ++ map (fun x => EvPublish x true) [0]) 1 true) = false) /\
  VRuntimeFilterSlots.publish this (mkRuntimeState 1000) true w
  = (Ret (Failure "rpc failed"),
     set_trace (trace w ++ [EvPublish 0 true; EvPublish 1 true]) w).
Proof.
  intros this failing w.
  assert (H1 : _runtime_filters this = [0] ++ 1 :: [2]) by reflexivity.
  assert (H2 : valid w ([0] ++ [1])).
  { repeat constructor; eexists; reflexivity. }
  assert (H3 : forall la q lb, [0] = la ++ q :: lb ->
             ok (publish_result (env w)
                   (trace w ++ map (fun x => EvPublish x true) la) q true)
             = true).
  { intros [| x la] q lb Hl; cbn in Hl.
    - injection Hl as <- _. reflexivity.
    - injection Hl as _ Hl. now destruct la. }
  assert (H4 : ok (publish_result (env w)
                     (trace w ++ map (fun x => EvPublish x true) [0]) 1 true)
               = false) by reflexivity.
  split; [repeat split; assumption |].
  exact (X11_publish_stops_at_first_failure this (mkRuntimeState 1000) true w
           [0] [2] 1 H1 H2 H3 H4).
Defined.

(** ** The calls of size negotiation *)

Lemma sync_handles_cons w a l :
  sync_handles w (a :: l)
  = if needs_sync w a then a :: sync_handles w l else sync_handles w l.
Proof.
  unfold sync_handles. rewrite filter_cons.
  destruct (needs_sync w a); [now rewrite decide_True | now rewrite decide_False].
Qed.

Lemma sync_handles_set_trace t w l :
  sync_handles (set_trace t w) l = sync_handles w l.
Proof. reflexivity. Qed.

(** The registration loop on a group without null pointers. *)
Lemma registration_run dependency :
  forall l w,
    valid w l ->
    for_each (fun runtime_filter (_ : unit) =>
        b <- IRuntimeFilter.need_sync_filter_size runtime_filter ;;
        if b
        then (IRuntimeFilter.set_finish_dependency runtime_filter dependency ;;;
              VRuntimeFilterSlots.continue tt)
        else VRuntimeFilterSlots.continue tt) l tt w
    = (Ret (Next tt),
       set_trace
         (trace w ++ map (fun q => EvSetFinishDependency q dependency)
                       (sync_handles w l)) w).
Proof.
  induction l as [| a l IH]; intros w Hv.
  - cbn. now rewrite set_trace_id.
  - apply Forall_cons in Hv as [[fa Ha] Hv]. cbn [for_each].
    rewrite sync_handles_cons. unfold needs_sync at 1. rewrite Ha.
    destruct (_need_sync_filter_size fa) eqn:Hs.
    + set (w1 := set_trace (trace w ++ [EvSetFinishDependency a dependency]) w).
      run_body w (Ret (Next tt), w1)
        ltac:(now exec Ha; rewrite Hs; cbn; rewrite Ha).
      rewrite (IH w1 Hv). unfold w1 at 2. rewrite sync_handles_set_trace.
      unfold w1, set_trace. cbn. now rewrite <- app_assoc.
    + run_body w (Ret (Next tt), w) ltac:(now exec Ha; rewrite Hs).
      exact (IH w Hv).
Qed.

(** The report loop on a group without null pointers: reports go out in
    group order until one fails. *)
Lemma report_run state n :
  forall l w,
    valid w l ->
    exists k res,
      for_each (fun runtime_filter (_ : unit) =>
          b <- IRuntimeFilter.need_sync_filter_size runtime_filter ;;
          if b
          then RETURN_IF_ERROR
                 (IRuntimeFilter.send_filter_size runtime_filter state n)
                 (VRuntimeFilterSlots.continue tt)
          else VRuntimeFilterSlots.continue tt) l tt w
      = (Ret res,
         set_trace
           (trace w ++ map (fun q => EvSendFilterSize q n)
                         (take k (sync_handles w l))) w) /\
      k <= length (sync_handles w l) /\
      ((res = Next tt /\ k = length (sync_handles w l)) \/
       (exists st, res = Return st /\ ok st = false /\ 0 < k)).
Proof.
  induction l as [| a l IH]; intros w Hv.
  - exists 0, (Next tt). cbn. rewrite set_trace_id. repeat split; auto.
  - apply Forall_cons in Hv as [[fa Ha] Hv]. cbn [for_each].
    rewrite sync_handles_cons. unfold needs_sync at 1 2 3. rewrite Ha.
    destruct (_need_sync_filter_size fa) eqn:Hs.
    + set (st := send_filter_size_result (env w) (trace w) a n).
      set (w1 := set_trace (trace w ++ [EvSendFilterSize a n]) w).
      destruct (ok st) eqn:Hok.
      * destruct (IH w1 Hv) as (k & res & Hrun & Hk & Hres).
        change (sync_handles w1 l) with (sync_handles w l) in Hrun, Hk, Hres.
        exists (S k), res.
        run_body w (Ret (Next tt), w1)
          ltac:(exec Ha; rewrite Hs; cbn; rewrite Ha; cbn; fold st; fold w1;
                now rewrite Hok).
        split; [| split].
        -- rewrite Hrun. unfold w1, set_trace. cbn. now rewrite <- app_assoc.
        -- cbn. lia.
        -- destruct Hres as [[-> ->] | (st' & -> & Hst' & Hpos)].
           ++ left. split; reflexivity.
           ++ right. exists st'. repeat split; auto.
      * exists 1, (Return st).
        run_body w (Ret (@Return unit st), w1)
          ltac:(exec Ha; rewrite Hs; cbn; rewrite Ha; cbn; fold st; fold w1;
                now rewrite Hok).
        split; [| split].
        -- cbn. now rewrite take_0.
        -- cbn. lia.
        -- right. exists st. repeat split; auto.
    + destruct (IH w Hv) as (k & res & Hrun & Hk & Hres).
      exists k, res.
      run_body w (Ret (Next tt), w) ltac:(now exec Ha; rewrite Hs).
      repeat split; assumption.
Qed.

(** X12: the calls of [send_filter_size] on a group without null pointers.
    With [S] the handles of the group that need size sync, in group order:
    the dependency is registered on every handle of [S], then size reports go
    out for the first [k] handles of [S], and nothing else is called (a
    handle that does not need size sync gets neither).  The operation
    returns OK after reporting for all of [S]; otherwise it returns a status
    that is not OK, after at least one report, and the registrations stay.
    No filter object and no shared context changes. *)
Theorem X12_negotiation_calls :
  forall (this : VRuntimeFilterSlots) (state : RuntimeState)
         (hash_table_size : N) (dependency : addr) (w : World),
    valid w (_runtime_filters this) ->
    let S := sync_handles w (_runtime_filters this) in
    exists (k : nat) (st : Status),
      VRuntimeFilterSlots.send_filter_size this state hash_table_size
        dependency w
      = (Ret st,
         set_trace
           (trace w
            ++ map (fun q => EvSetFinishDependency q dependency) S
            ++ map (fun q => EvSendFilterSize q hash_table_size) (take k S))
           w) /\
      k <= length S /\
      ((st = OK /\ k = length S) \/ (ok st = false /\ 0 < k)).
Proof.
  intros this state n dependency w Hv S.
  unfold VRuntimeFilterSlots.send_filter_size, VRuntimeFilterSlots.empty.
  rewrite bind_ret_l. case_bool_decide as Hempty.
  - exists 0, OK. subst S. rewrite Hempty. cbn.
    rewrite set_trace_id. repeat split; auto.
  - rewrite (bind_eq _ _ w _ (registration_run dependency _ w Hv)).
    cbn beta iota. fold S.
    set (w1 := set_trace _ w).
    destruct (report_run state n (_runtime_filters this) w1 Hv)
      as (k & res & Hrun & Hk & Hres).
    change (sync_handles w1 (_runtime_filters this)) with S in Hrun, Hk, Hres.
    rewrite (bind_eq _ _ w1 _ Hrun). cbn beta iota.
    assert (Hw : set_trace
                   (trace w1
                    ++ map (fun q => EvSendFilterSize q n) (take k S)) w1
                 = set_trace
                     (trace w
                      ++ map (fun q => EvSetFinishDependency q dependency) S
                      ++ map (fun q => EvSendFilterSize q n) (take k S)) w).
    { unfold w1, set_trace. cbn. now rewrite <- app_assoc. }
    destruct Hres as [[-> ->] | (st & -> & Hst & Hpos)].
    + exists (length S), OK. split; [rewrite <- Hw; reflexivity |].
      split; [reflexivity | left; split; reflexivity].
    + exists k, st. split; [rewrite <- Hw; reflexivity |].
      split; [exact Hk | right; split; assumption].
Qed.

Lemma X12_negotiation_calls_witness :
  let this := mkVRuntimeFilterSlots [mkVExprContext 0] [0; 1; 2] in
  let w := world_of [mkIRuntimeFilter 7 0 IN_FILTER IN_FILTER false false true 0 0;
                     plain_filter 8 0 MINMAX_FILTER MINMAX_FILTER;
                     mkIRuntimeFilter 9 1 IN_OR_BLOOM_FILTER IN_FILTER false false true 0 0]
             always_ok in
  let S := sync_handles w (_runtime_filters this) in
  valid w (_runtime_filters this) /\
  exists (k : nat) (st : Status),
    VRuntimeFilterSlots.send_filter_size this (mkRuntimeState 1000) 1500 9 w
    = (Ret st,
       set_trace
         (trace w
          ++ map (fun q => EvSetFinishDependency q 9) S
          ++ map (fun q => EvSendFilterSize q 1500) (take k S))
         w) /\
    k <= length S /\
    ((st = OK /\ k = length S) \/ (ok st = false /\ 0 < k)).
Proof.
  intros this w S.
  assert (H1 : valid w (_runtime_filters this)).
  { repeat constructor; eexists; reflexivity. }
  split; [exact H1 |].
  exact (X12_negotiation_calls this (mkRuntimeState 1000) 1500 9 w H1).
Defined.

(** ** What ingestion appends *)

Lemma batch_of_set_trace this block t w q :
  batch_of this block (set_trace t w) q = batch_of this block w q.
Proof. reflexivity. Qed.

(** The loop of [insert] on a group without null pointers whose columns are
    all found. *)
Lemma insert_run this block :
  forall l w,
    (forall q, q ∈ l ->
       exists f column, heap w !! q = Some f /\
                        result_column this block (_expr_order f) = inr column) ->
    for_each (fun filter (_ : unit) =>
        order <- IRuntimeFilter.expr_order filter ;;
        ctx <- vector_at ExprOutOfRange (_build_expr_context this) order ;;
        let result_column_id := get_last_result_column_id ctx in
        column <- get_by_position block result_column_id ;;
        skip <- orM (IRuntimeFilter.get_ignored filter)
                    (IRuntimeFilter.get_disabled filter) ;;
        if skip then VRuntimeFilterSlots.continue tt else
        IRuntimeFilter.insert_batch filter column 1 ;;;
        VRuntimeFilterSlots.continue tt) l tt w
    = (Ret (Next tt),
       set_trace (trace w ++ omap (batch_of this block w) l) w).
Proof.
  induction l as [| a l IH]; intros w Hall.
  - cbn. now rewrite set_trace_id.
  - destruct (Hall a (list_elem_of_here _ _)) as (fa & column & Ha & Hc).
    pose proof (insert_body this block a fa w Ha) as Hb. rewrite Hc in Hb.
    assert (Hbatch : omap (batch_of this block w) (a :: l)
                     = if flagged fa then omap (batch_of this block w) l
                       else EvInsertBatch a column 1
                              :: omap (batch_of this block w) l).
    { change (omap (batch_of this block w) (a :: l))
        with (match batch_of this block w a with
              | Some y => y :: omap (batch_of this block w) l
              | None => omap (batch_of this block w) l
              end).
      unfold batch_of at 1. rewrite Ha, Hc. now destruct (flagged fa). }
    rewrite Hbatch. cbn [for_each].
    destruct (flagged fa).
    + run_body w (Ret (Next tt), w) ltac:(exact Hb).
      apply IH. intros q Hq. apply Hall. now apply list_elem_of_further.
    + set (w1 := set_trace (trace w ++ [EvInsertBatch a column 1]) w).
      run_body w (Ret (Next tt), w1) ltac:(exact Hb).
      etransitivity.
      * apply (IH w1). intros q Hq. apply Hall.
        now apply list_elem_of_further.
      * change (batch_of this block w1) with (batch_of this block w).
        unfold w1, set_trace. cbn. now rewrite <- app_assoc.
Qed.

(** X13: when no handle of the group is null and the result column of
    every handle is found in the block, [insert] returns normally and
    appends exactly one batch per handle that is neither ignored nor
    disabled, in group order: the column at the last result position of the
    build expression the handle targets.  It changes no filter object and no
    shared context. *)
Theorem X13_insert_appends_active_columns :
  forall (this : VRuntimeFilterSlots) (block : Block) (w : World),
    (forall q, q ∈ _runtime_filters this ->
       exists f column, heap w !! q = Some f /\
                        result_column this block (_expr_order f) = inr column) ->
    VRuntimeFilterSlots.insert this block w
    = (Ret tt,
       set_trace
         (trace w ++ omap (batch_of this block w) (_runtime_filters this)) w).
Proof.
  intros this block w Hall. rewrite insert_eq.
  now rewrite (insert_run this block (_runtime_filters this) w Hall).
Qed.

Lemma X13_insert_appends_active_columns_witness :
  let this := mkVRuntimeFilterSlots [mkVExprContext 1; mkVExprContext 0] [0; 1; 2] in
  let block := [[1; 2; 3]%Z; [4; 5]%Z] in
  let f0 := plain_filter 7 0 IN_FILTER IN_FILTER in
  let f1 := mkIRuntimeFilter 8 0 MINMAX_FILTER MINMAX_FILTER false true false 0 0 in
  let f2 := plain_filter 9 1 BLOOM_FILTER BLOOM_FILTER in
  let w := world_of [f0; f1; f2] always_ok in
  (forall q, q ∈ _runtime_filters this ->
     exists f column, heap w !! q = Some f /\
                      result_column this block (_expr_order f) = inr column) /\
  VRuntimeFilterSlots.insert this block w
  = (Ret tt,
     set_trace
       (trace w ++ [EvInsertBatch 0 [4; 5]%Z 1; EvInsertBatch 2 [1; 2; 3]%Z 1])
       w).
Proof.
  intros this block f0 f1 f2 w.
  assert (H1 : forall q, q ∈ _runtime_filters this ->
             exists f column, heap w !! q = Some f /\
               result_column this block (_expr_order f) = inr column).
  { intros q Hq. apply elem_of_cons in Hq as [-> | Hq].
    { exists f0, [4; 5]%Z. split; reflexivity. }
    apply elem_of_cons in Hq as [-> | Hq].
    { exists f1, [4; 5]%Z. split; reflexivity. }
    apply list_elem_of_singleton in Hq as ->.
    exists f2, [1; 2; 3]%Z. split; reflexivity. }
  split; [exact H1 |].
  exact (X13_insert_appends_active_columns this block w H1).
Defined.

(** ** What materialization may change, whatever it returns *)

(** One turn of the loop of [init_filters], whatever it yields. *)
Lemma init_body_any state n a fa w :
  heap w !! a = Some fa ->
  exists out ta fa1,
    (ig <- IRuntimeFilter.get_ignored a ;;
     if ig then VRuntimeFilterSlots.continue tt else
     over <- andM (ty <- IRuntimeFilter.type a ;;
                   ret (bool_decide (ty = IN_OR_BLOOM_FILTER)))
                  (size <- VRuntimeFilterSlots.get_real_size a n ;;
                   ret (runtime_filter_max_in_num state <? size)%N) ;;
     RETURN_IF_ERROR
       (if over then IRuntimeFilter.change_to_bloom_filter a else ret OK)
       (real <- IRuntimeFilter.get_real_type a ;;
        if bool_decide (real = BLOOM_FILTER)
        then RETURN_IF_ERROR
               (size <- VRuntimeFilterSlots.get_real_size a n ;;
                IRuntimeFilter.init_bloom_filter a size)
               (VRuntimeFilterSlots.continue tt)
        else VRuntimeFilterSlots.continue tt)) w
    = (Ret out,
       set_trace (trace w ++ ta) (set_heap (<[a := fa1]> (heap w)) w)) /\
    (fa1 = fa \/
     (_ignored fa = false /\ over_threshold state fa n = true /\
      fa1 = with_real_type BLOOM_FILTER fa)) /\
    Forall (fun e => _ignored fa = false /\
                     (e = EvChangeToBloomFilter a \/
                      e = EvInitBloomFilter a (real_size fa n))) ta.
Proof.
  intros Ha. rewrite (init_body state n a fa w Ha).
  assert (Hsame : forall t, set_trace (trace w ++ t) w
                  = set_trace (trace w ++ t)
                      (set_heap (<[a := fa]> (heap w)) w)).
  { intros t. now rewrite (set_heap_insert_id w a fa Ha). }
  destruct (_ignored fa) eqn:Hig.
  { exists (Next tt), [], fa. rewrite <- Hsame, set_trace_id.
    repeat split; auto. }
  cbn zeta. destruct (over_threshold state fa n) eqn:Hover.
  - destruct (ok (change_to_bloom_filter_result _ _ _)).
    + eexists _, [EvChangeToBloomFilter a; EvInitBloomFilter a (real_size fa n)],
        (with_real_type BLOOM_FILTER fa).
      split; [| split].
      * unfold set_trace, set_heap. cbn. rewrite <- app_assoc. reflexivity.
      * right. auto.
      * repeat (apply Forall_cons; split; [split; auto |]). constructor.
    + eexists _, [EvChangeToBloomFilter a], fa.
      rewrite <- Hsame. split; [reflexivity |]. split; [now left |].
      repeat (apply Forall_cons; split; [split; auto |]). constructor.
  - case_bool_decide.
    + eexists _, [EvInitBloomFilter a (real_size fa n)], fa.
      rewrite <- Hsame. split; [reflexivity |]. split; [now left |].
      repeat (apply Forall_cons; split; [split; auto |]). constructor.
    + exists (Next tt), [], fa. rewrite <- Hsame, set_trace_id.
      repeat split; auto.
Qed.

(** The loop of [init_filters], whatever it yields. *)
Lemma init_loop_any state n :
  forall l w,
    exists t h',
      (for_each (fun filter (_ : unit) =>
          ig <- IRuntimeFilter.get_ignored filter ;;
          if ig then VRuntimeFilterSlots.continue tt else
          over <- andM (ty <- IRuntimeFilter.type filter ;;
                        ret (bool_decide (ty = IN_OR_BLOOM_FILTER)))
                       (size <- VRuntimeFilterSlots.get_real_size filter n ;;
                        ret (runtime_filter_max_in_num state <? size)%N) ;;
          RETURN_IF_ERROR
            (if over then IRuntimeFilter.change_to_bloom_filter filter
             else ret OK)
            (real <- IRuntimeFilter.get_real_type filter ;;
             if bool_decide (real = BLOOM_FILTER)
             then RETURN_IF_ERROR
                    (size <- VRuntimeFilterSlots.get_real_size filter n ;;
                     IRuntimeFilter.init_bloom_filter filter size)
                    (VRuntimeFilterSlots.continue tt)
             else VRuntimeFilterSlots.continue tt)) l tt w).2
      = set_trace (trace w ++ t) (set_heap h' w) /\
      (forall q g, heap w !! q = Some g ->
         exists g',
           h' !! q = Some g' /\
           (g' = g \/
            (q ∈ l /\ _ignored g = false /\
             over_threshold state g n = true /\
             g' = with_real_type BLOOM_FILTER g))) /\
      Forall (fun e => exists q g,
                heap w !! q = Some g /\ q ∈ l /\ _ignored g = false /\
                (e = EvChangeToBloomFilter q \/
                 e = EvInitBloomFilter q (real_size g n))) t.
Proof.
  induction l as [| a l IH]; intros w.
  - exists [], (heap w). cbn. rewrite set_heap_id, set_trace_id.
    split; [reflexivity |]. split; [eauto | constructor].
  - cbn [for_each].
    destruct (heap w !! a) as [fa |] eqn:Ha.
    2:{ exists [], (heap w).
        run_body w (@Crash (Flow unit) (NullFilter a), w) ltac:(now exec Ha).
        cbn. rewrite set_heap_id, set_trace_id.
        split; [reflexivity |]. split; [eauto | constructor]. }
    destruct (init_body_any state n a fa w Ha)
      as (out & ta & fa1 & Hbody & Hfa1 & Hta).
    set (w1 := set_trace (trace w ++ ta) (set_heap (<[a := fa1]> (heap w)) w))
      in *.
    rewrite (bind_eq _ _ w _ Hbody). cbn beta iota.
    assert (Hstep : forall q g, heap w !! q = Some g ->
              exists g1, heap w1 !! q = Some g1 /\
                (g1 = g \/
                 (q = a /\ _ignored g = false /\
                  over_threshold state g n = true /\
                  g1 = with_real_type BLOOM_FILTER g))).
    { intros q g Hq. cbn. destruct (decide (q = a)) as [-> | Hne].
      - rewrite lookup_insert_eq. exists fa1. split; [reflexivity |].
        assert (g = fa) as -> by congruence.
        destruct Hfa1 as [-> | (H1 & H2 & ->)]; auto.
      - rewrite lookup_insert_ne by congruence. eauto. }
    assert (Hta' : Forall (fun e => exists q g,
                heap w !! q = Some g /\ q ∈ a :: l /\ _ignored g = false /\
                (e = EvChangeToBloomFilter q \/
                 e = EvInitBloomFilter q (real_size g n))) ta).
    { eapply Forall_impl; [exact Hta |]. cbn beta. intros e [Hig He].
      exists a, fa. repeat split; auto. apply list_elem_of_here. }
    destruct out as [[] | st].
    2:{ exists ta, (<[a := fa1]> (heap w)). split; [reflexivity |].
        split; [| exact Hta'].
        intros q g Hq. destruct (Hstep q g Hq) as (g1 & Hg1 & Hrel).
        exists g1. split; [exact Hg1 |].
        destruct Hrel as [-> | (-> & H1 & H2 & ->)]; [now left |].
        right. repeat split; auto. apply list_elem_of_here. }
    destruct (IH w1) as (t' & h'' & Hw & Hall & Ht').
    exists (ta ++ t'), h''. split; [| split].
    + etransitivity; [exact Hw |].
      unfold w1, set_trace, set_heap. cbn. now rewrite <- app_assoc.
    + intros q g Hq. destruct (Hstep q g Hq) as (g1 & Hg1 & Hrel).
      destruct (Hall q g1 Hg1) as (g' & Hg' & Hrel').
      exists g'. split; [exact Hg' |].
      destruct Hrel as [-> | (-> & H1 & H2 & ->)].
      * destruct Hrel' as [-> | (H3 & H4 & H5 & ->)]; [now left |].
        right. repeat split; auto. now apply list_elem_of_further.
      * right. split; [apply list_elem_of_here |].
        repeat split; auto.
        destruct Hrel' as [-> | (_ & _ & _ & ->)]; reflexivity.
    + apply Forall_app. split; [exact Hta' |].
      eapply Forall_impl; [exact Ht' |]. cbn beta.
      intros e (q & g1 & Hg1 & Hq & Hig & He).
      cbn in Hg1. destruct (decide (q = a)) as [-> | Hne].
      * rewrite lookup_insert_eq in Hg1. injection Hg1 as <-.
        exists a, fa. split; [exact Ha |].
        split; [now apply list_elem_of_further |].
        destruct Hfa1 as [-> | (H1 & H2 & ->)]; auto.
      * rewrite lookup_insert_ne in Hg1 by congruence.
        exists q, g1. repeat split; auto. now apply list_elem_of_further.
Qed.

(** X14: what [init_filters] may change, whatever it returns (OK, a
    failure, or a stop at a null pointer).  A filter object either stays as
    it is or has only its effective type set to the bloom filter, the latter
    only for a handle of the group that is not ignored, is declared hybrid
    and whose resolved size exceeds the threshold.  Every call it makes is a
    [change_to_bloom_filter] or an [init_bloom_filter] with the resolved
    size, on a handle of the group that is not ignored.  No flag and no
    shared context changes. *)
Theorem X14_materialization_changes_only_types :
  forall (this : VRuntimeFilterSlots) (state : RuntimeState) (n : N)
         (w : World),
    let r := VRuntimeFilterSlots.init_filters this state n w in
    shared r.2 = shared w /\
    (forall q g, heap w !! q = Some g ->
       exists g',
         heap r.2 !! q = Some g' /\
         (g' = g \/
          (q ∈ _runtime_filters this /\ _ignored g = false /\
           _runtime_filter_type g = IN_OR_BLOOM_FILTER /\
           (runtime_filter_max_in_num state < real_size g n)%N /\
           g' = with_real_type BLOOM_FILTER g))) /\
    Forall (fun e => exists q g,
              heap w !! q = Some g /\ q ∈ _runtime_filters this /\
              _ignored g = false /\
              (e = EvChangeToBloomFilter q \/
               e = EvInitBloomFilter q (real_size g n)))
      (emitted (VRuntimeFilterSlots.init_filters this state n) w).
Proof.
  intros this state n w r.
  destruct (init_loop_any state n (_runtime_filters this) w)
    as (t & h' & Hw & Hall & Ht).
  assert (Hr : r.2 = set_trace (trace w ++ t) (set_heap h' w)).
  { subst r. rewrite init_filters_eq.
    destruct (for_each _ _ _ w) as [[[[] | e] | e] w1]; exact Hw. }
  split; [now rewrite Hr |]. split.
  - intros q g Hq. destruct (Hall q g Hq) as (g' & Hg' & Hrel).
    exists g'. split; [now rewrite Hr |].
    destruct Hrel as [-> | (H1 & H2 & H3 & ->)]; [now left |].
    right. unfold over_threshold in H3.
    apply andb_true_iff in H3 as [Hty Hlt].
    apply bool_decide_eq_true_1 in Hty. apply N.ltb_lt in Hlt.
    repeat split; auto.
  - rewrite (emitted_app _ w t); [exact Ht |]. fold r. now rewrite Hr.
Qed.

(** ** What the operations keep *)

Section Keeps.

Context (R : World -> World -> Prop).
Hypothesis R_refl : forall w, R w w.
Hypothesis R_trans : forall w1 w2 w3, R w1 w2 -> R w2 w3 -> R w1 w3.

Lemma keeps_ret {A} (a : A) : keeps R (ret a).
Proof. intros w. apply R_refl. Qed.

Lemma keeps_crash {A} e : keeps R (@crash A e).
Proof. intros w. apply R_refl. Qed.

Lemma keeps_bind {A B} (m : M A) (k : A -> M B) :
  keeps R m -> (forall a, keeps R (k a)) -> keeps R (bind m k).
Proof.
  intros Hm Hk w. unfold bind. specialize (Hm w).
  destruct (m w) as [[a | e] w1]; cbn in *.
  - eapply R_trans; [exact Hm | apply Hk].
  - exact Hm.
Qed.

Lemma keeps_for_each {A S} (body : A -> S -> M (Flow S)) l :
  (forall a s, keeps R (body a s)) -> forall s, keeps R (for_each body l s).
Proof.
  intros Hb. induction l as [| a l IH]; intros s; cbn [for_each].
  - apply keeps_ret.
  - apply keeps_bind; [apply Hb |].
    intros [s' | st]; [apply IH | apply keeps_ret].
Qed.

Lemma keeps_deref p : keeps R (IRuntimeFilter.deref p).
Proof.
  intros w. unfold IRuntimeFilter.deref. destruct (heap w !! p); apply R_refl.
Qed.

Lemma keeps_runtime_filters_find c id : keeps R (runtime_filters_find c id).
Proof.
  intros w. unfold runtime_filters_find.
  destruct (shared w !! c); apply R_refl.
Qed.

Lemma keeps_vector_at {A} fault (v : list A) i : keeps R (vector_at fault v i).
Proof.
  unfold vector_at. destruct (_ <? _)%Z; [| apply keeps_crash].
  destruct (v !! _); [apply keeps_ret | apply keeps_crash].
Qed.

End Keeps.

Lemma unchanged_refl {B} (part : World -> B) w : unchanged part w w.
Proof. reflexivity. Qed.

Lemma unchanged_trans {B} (part : World -> B) w1 w2 w3 :
  unchanged part w1 w2 -> unchanged part w2 w3 -> unchanged part w1 w3.
Proof. unfold unchanged. congruence. Qed.

Lemma same_types_refl w : same_types w w.
Proof. intros p f Hp. eauto. Qed.

Lemma same_types_trans w1 w2 w3 :
  same_types w1 w2 -> same_types w2 w3 -> same_types w1 w3.
Proof.
  intros H1 H2 p f Hp. destruct (H1 p f Hp) as (f1 & Hp1 & Ht1 & Hr1).
  destruct (H2 p f1 Hp1) as (f2 & Hp2 & Ht2 & Hr2).
  exists f2. repeat split; congruence.
Qed.

Lemma type_ordered_refl w : type_ordered w w.
Proof. intros p f Hp. eauto. Qed.

Lemma type_ordered_trans w1 w2 w3 :
  type_ordered w1 w2 -> type_ordered w2 w3 -> type_ordered w1 w3.
Proof.
  intros H1 H2 p f Hp. destruct (H1 p f Hp) as (f1 & Hp1 & Ht1 & Hr1).
  destruct (H2 p f1 Hp1) as (f2 & Hp2 & Ht2 & Hr2).
  exists f2. split; [exact Hp2 |]. split; [congruence |].
  destruct Hr2 as [Hr2 | [Hty Hr2]].
  - destruct Hr1 as [Hr1 | [Hty Hr1]]; [left | right; split]; congruence.
  - right. split; congruence.
Qed.

Lemma same_types_ordered w w' : same_types w w' -> type_ordered w w'.
Proof.
  intros H p f Hp. destruct (H p f Hp) as (f' & Hp' & Ht & Hr).
  exists f'. auto.
Qed.

(** Calls into collaborators touch the trace only. *)
Lemma keeps_heap_emit e : keeps (unchanged heap) (emit e).
Proof. intros w. reflexivity. Qed.

Lemma keeps_shared_emit e : keeps (unchanged shared) (emit e).
Proof. intros w. reflexivity. Qed.

Lemma keeps_types_emit e : keeps same_types (emit e).
Proof. intros w p f Hp. cbn. eauto. Qed.

Lemma keeps_heap_oracle (result : World -> Status) (e : Event) :
  keeps (unchanged heap)
    (fun w => (Ret (result w), set_trace (trace w ++ [e]) w)).
Proof. intros w. reflexivity. Qed.

Lemma keeps_shared_oracle (result : World -> Status) (e : Event) :
  keeps (unchanged shared)
    (fun w => (Ret (result w), set_trace (trace w ++ [e]) w)).
Proof. intros w. reflexivity. Qed.

Lemma keeps_types_oracle (result : World -> Status) (e : Event) :
  keeps same_types
    (fun w => (Ret (result w), set_trace (trace w ++ [e]) w)).
Proof. intros w p f Hp. cbn. eauto. Qed.

(** Stores into the heap touch the heap only. *)
Lemma keeps_trace_assign p f : keeps (unchanged trace) (IRuntimeFilter.assign p f).
Proof. intros w. reflexivity. Qed.

Lemma keeps_shared_assign p f :
  keeps (unchanged shared) (IRuntimeFilter.assign p f).
Proof. intros w. reflexivity. Qed.

(** Writes into a shared context touch the contexts only. *)
Lemma keeps_heap_runtime_filters_assign c id ref :
  keeps (unchanged heap) (runtime_filters_assign c id ref).
Proof.
  intros w. unfold runtime_filters_assign.
  destruct (shared w !! c); reflexivity.
Qed.

Lemma keeps_trace_runtime_filters_assign c id ref :
  keeps (unchanged trace) (runtime_filters_assign c id ref).
Proof.
  intros w. unfold runtime_filters_assign.
  destruct (shared w !! c); reflexivity.
Qed.

Lemma keeps_types_runtime_filters_assign c id ref :
  keeps same_types (runtime_filters_assign c id ref).
Proof.
  intros w p f Hp. unfold runtime_filters_assign.
  destruct (shared w !! c); cbn; eauto.
Qed.

(** Storing an object of the same types as the one just read. *)
Lemma keeps_types_update p (g : IRuntimeFilter -> IRuntimeFilter) :
  (forall f, _runtime_filter_type (g f) = _runtime_filter_type f /\
             _real_type (g f) = _real_type f) ->
  keeps same_types
    (f <- IRuntimeFilter.deref p ;; IRuntimeFilter.assign p (g f)).
Proof.
  intros Hg w. unfold bind, IRuntimeFilter.deref, IRuntimeFilter.assign.
  destruct (heap w !! p) as [f |] eqn:E; cbn; [| apply same_types_refl].
  intros q fq Hq. cbn. destruct (decide (p = q)) as [-> | Hne].
  - rewrite lookup_insert_eq. exists (g f). split; [reflexivity |].
    assert (fq = f) as -> by congruence. apply Hg.
  - rewrite lookup_insert_ne by assumption. eauto.
Qed.

Create HintDb keeps.

#[local] Hint Resolve keeps_ret keeps_crash keeps_deref
  keeps_runtime_filters_find keeps_vector_at
  unchanged_refl unchanged_trans same_types_refl same_types_trans
  keeps_heap_emit keeps_shared_emit keeps_types_emit
  keeps_heap_oracle keeps_shared_oracle keeps_types_oracle
  keeps_trace_assign keeps_shared_assign
  keeps_heap_runtime_filters_assign keeps_trace_runtime_filters_assign
  keeps_types_runtime_filters_assign : keeps.

(** What a computation keeps follows the shape of the program. *)
Ltac keeps_step :=
  match goal with
  | |- keeps same_types (bind (IRuntimeFilter.deref ?p)
                           (fun f => IRuntimeFilter.assign ?p _)) =>
      apply (keeps_types_update p); intros; split; reflexivity
  | |- keeps _ (bind _ _) =>
      apply keeps_bind; [solve [eauto with keeps] | | intros ?]
  | |- keeps _ (for_each _ _ _) =>
      apply keeps_for_each;
      [solve [eauto with keeps] | solve [eauto with keeps] | intros ? ?]
  | |- keeps _ (if ?b then _ else _) => destruct b
  | |- keeps _ (match ?x with _ => _ end) => destruct x
  | |- keeps _ _ => solve [eauto with keeps]
  end.

Ltac unfold_operations :=
  unfold perform, discard,
    VRuntimeFilterSlots.send_filter_size,
    VRuntimeFilterSlots.get_real_size,
    VRuntimeFilterSlots.disable_meaningless_filters,
    VRuntimeFilterSlots.disable_duplicate_in_filters,
    VRuntimeFilterSlots.disable_dominated_filters,
    VRuntimeFilterSlots.ignore_all_filters,
    VRuntimeFilterSlots.disable_all_filters,
    VRuntimeFilterSlots.init_filters,
    VRuntimeFilterSlots.insert,
    VRuntimeFilterSlots.publish,
    VRuntimeFilterSlots.copy_to_shared_context,
    VRuntimeFilterSlots.copy_from_shared_context,
    VRuntimeFilterSlots.empty,
    VRuntimeFilterSlots.finish, VRuntimeFilterSlots.continue,
    RETURN_IF_ERROR, orM, andM, get_by_position,
    IRuntimeFilter.filter_id, IRuntimeFilter.expr_order,
    IRuntimeFilter.type, IRuntimeFilter.get_real_type,
    IRuntimeFilter.get_ignored, IRuntimeFilter.get_disabled,
    IRuntimeFilter.set_ignored, IRuntimeFilter.set_disabled,
    IRuntimeFilter.need_sync_filter_size, IRuntimeFilter.get_synced_size,
    IRuntimeFilter.get_shared_context_ref,
    IRuntimeFilter.set_shared_context_ref,
    IRuntimeFilter.set_finish_dependency,
    IRuntimeFilter.send_filter_size, IRuntimeFilter.init_bloom_filter,
    IRuntimeFilter.insert_batch, IRuntimeFilter.publish.

Ltac keeps_tac := unfold_operations; repeat keeps_step.

(** X17: what the operations never touch, on any group and in any world,
    whatever they return.  Size negotiation, ingestion and publication
    change no filter object and no shared context; pruning and the two
    overrides call no collaborator and change no shared context; export
    changes no filter object and import no shared context, and neither calls
    a collaborator; [get_real_size] changes nothing at all. *)
Theorem X17_untouched_parts :
  forall (this : VRuntimeFilterSlots) (state : RuntimeState) (n : N)
         (dependency context filter : addr) (block : Block)
         (publish_local : bool) (w : World),
    (heap (VRuntimeFilterSlots.send_filter_size this state n dependency w).2
       = heap w /\
     shared (VRuntimeFilterSlots.send_filter_size this state n dependency w).2
       = shared w) /\
    (heap (VRuntimeFilterSlots.insert this block w).2 = heap w /\
     shared (VRuntimeFilterSlots.insert this block w).2 = shared w) /\
    (heap (VRuntimeFilterSlots.publish this state publish_local w).2 = heap w /\
     shared (VRuntimeFilterSlots.publish this state publish_local w).2
       = shared w) /\
    (trace (VRuntimeFilterSlots.disable_meaningless_filters this state w).2
       = trace w /\
     shared (VRuntimeFilterSlots.disable_meaningless_filters this state w).2
       = shared w) /\
    (trace (VRuntimeFilterSlots.ignore_all_filters this w).2 = trace w /\
     shared (VRuntimeFilterSlots.ignore_all_filters this w).2 = shared w) /\
    (trace (VRuntimeFilterSlots.disable_all_filters this w).2 = trace w /\
     shared (VRuntimeFilterSlots.disable_all_filters this w).2 = shared w) /\
    (heap (VRuntimeFilterSlots.copy_to_shared_context this context w).2
       = heap w /\
     trace (VRuntimeFilterSlots.copy_to_shared_context this context w).2
       = trace w) /\
    (shared (VRuntimeFilterSlots.copy_from_shared_context this context w).2
       = shared w /\
     trace (VRuntimeFilterSlots.copy_from_shared_context this context w).2
       = trace w) /\
    (VRuntimeFilterSlots.get_real_size filter n w).2 = w.
Proof.
  intros this state n dependency context filter block publish_local w.
  assert (H1 : keeps (unchanged heap)
                 (VRuntimeFilterSlots.send_filter_size this state n dependency))
    by keeps_tac.
  assert (H2 : keeps (unchanged shared)
                 (VRuntimeFilterSlots.send_filter_size this state n dependency))
    by keeps_tac.
  assert (H3 : keeps (unchanged heap) (VRuntimeFilterSlots.insert this block))
    by keeps_tac.
  assert (H4 : keeps (unchanged shared) (VRuntimeFilterSlots.insert this block))
    by keeps_tac.
  assert (H5 : keeps (unchanged heap)
                 (VRuntimeFilterSlots.publish this state publish_local))
    by keeps_tac.
  assert (H6 : keeps (unchanged shared)
                 (VRuntimeFilterSlots.publish this state publish_local))
    by keeps_tac.
  assert (H7 : keeps (unchanged trace)
                 (VRuntimeFilterSlots.disable_meaningless_filters this state))
    by keeps_tac.
  assert (H8 : keeps (unchanged shared)
                 (VRuntimeFilterSlots.disable_meaningless_filters this state))
    by keeps_tac.
  assert (H9 : keeps (unchanged trace)
                 (VRuntimeFilterSlots.ignore_all_filters this)) by keeps_tac.
  assert (H10 : keeps (unchanged shared)
                  (VRuntimeFilterSlots.ignore_all_filters this)) by keeps_tac.
  assert (H11 : keeps (unchanged trace)
                  (VRuntimeFilterSlots.disable_all_filters this)) by keeps_tac.
  assert (H12 : keeps (unchanged shared)
                  (VRuntimeFilterSlots.disable_all_filters this)) by keeps_tac.
  assert (H13 : keeps (unchanged heap)
                  (VRuntimeFilterSlots.copy_to_shared_context this context))
    by keeps_tac.
  assert (H14 : keeps (unchanged trace)
                  (VRuntimeFilterSlots.copy_to_shared_context this context))
    by keeps_tac.
  assert (H15 : keeps (unchanged shared)
                  (VRuntimeFilterSlots.copy_from_shared_context this context))
    by keeps_tac.
  assert (H16 : keeps (unchanged trace)
                  (VRuntimeFilterSlots.copy_from_shared_context this context))
    by keeps_tac.
  assert (H17 : keeps (unchanged (fun x => x))
                  (VRuntimeFilterSlots.get_real_size filter n)) by keeps_tac.
  repeat split;
    [ apply (H1 w) | apply (H2 w) | apply (H3 w) | apply (H4 w)
    | apply (H5 w) | apply (H6 w) | apply (H7 w) | apply (H8 w)
    | apply (H9 w) | apply (H10 w) | apply (H11 w) | apply (H12 w)
    | apply (H13 w) | apply (H14 w) | apply (H15 w) | apply (H16 w)
    | apply (H17 w) ].
Qed.

(** ** Across sequences of calls *)

(** X15: no sequence of coordinator calls, by any coordinators over the
    same heap, changes the identity, the target expression, the declared
    type, the need for size sync or the synced size of a filter object; none
    creates or removes a filter object; and the calls made so far stay at
    the head of the trace. *)
Theorem X15_calls_keep_handle_attributes :
  forall (calls : list (VRuntimeFilterSlots * Operation)) (w : World),
    (exists t, trace (run calls w) = trace w ++ t) /\
    (forall p, heap w !! p = None -> heap (run calls w) !! p = None) /\
    (forall p f, heap w !! p = Some f ->
       exists f',
         heap (run calls w) !! p = Some f' /\
         _filter_id f' = _filter_id f /\
         _expr_order f' = _expr_order f /\
         _runtime_filter_type f' = _runtime_filter_type f /\
         _need_sync_filter_size f' = _need_sync_filter_size f /\
         _synced_size f' = _synced_size f).
Proof.
  intros calls w. destruct (evolves_run calls w) as [_ Ht Hh Hn].
  split; [exact Ht |]. split; [exact Hn |].
  intros p f Hp. destruct (Hh p f Hp) as (f' & Hp' & []).
  exists f'. repeat split; assumption.
Qed.

Lemma discard_snd {A} (m : M A) w : (discard m w).2 = (m w).2.
Proof. unfold discard, bind. now destruct (m w) as [[a | e] w1]. Qed.

(** Only [init_filters] changes an effective type, and only that of a
    hybrid filter, to the bloom filter. *)
Lemma perform_type_ordered this op w : type_ordered w (perform this op w).2.
Proof.
  destruct op;
    try (apply same_types_ordered;
         match goal with
         | |- same_types _ (?m w).2 =>
             let H := fresh in
             assert (H : keeps same_types m) by keeps_tac; exact (H w)
         end).
  cbn [perform]. rewrite discard_snd.
  destruct (init_loop_any state local_hash_table_size (_runtime_filters this) w)
    as (t & h' & Hw & Hall & _).
  assert (Hr : (VRuntimeFilterSlots.init_filters this state
                  local_hash_table_size w).2
               = set_trace (trace w ++ t) (set_heap h' w)).
  { rewrite init_filters_eq.
    destruct (for_each _ _ _ w) as [[[[] | e] | e] w1]; exact Hw. }
  rewrite Hr. intros p f Hp. destruct (Hall p f Hp) as (f' & Hp' & Hrel).
  exists f'. split; [exact Hp' |].
  destruct Hrel as [-> | (_ & _ & Hover & ->)]; [auto |].
  split; [reflexivity |]. right. split; [| reflexivity].
  unfold over_threshold in Hover. apply andb_true_iff in Hover as [Hty _].
  now apply bool_decide_eq_true_1 in Hty.
Qed.

Lemma run_type_ordered calls : forall w, type_ordered w (run calls w).
Proof.
  induction calls as [| [this op] calls IH]; intros w; cbn [run].
  - apply type_ordered_refl.
  - eapply type_ordered_trans; [apply perform_type_ordered | apply IH].
Qed.

(** X16: effective types move one way only.  Across every sequence of
    coordinator calls the effective type of a filter object is what it was
    or, for a filter declared hybrid, the bloom filter: a filter that is not
    declared hybrid keeps its effective type, and a bloom filter never turns
    back into an IN filter. *)
Theorem X16_effective_type_one_way :
  forall (calls : list (VRuntimeFilterSlots * Operation)) (w : World)
         (p : addr) (f : IRuntimeFilter),
    heap w !! p = Some f ->
    exists f',
      heap (run calls w) !! p = Some f' /\
      (_real_type f' = _real_type f \/
       (_runtime_filter_type f = IN_OR_BLOOM_FILTER /\
        _real_type f' = BLOOM_FILTER)) /\
      (_runtime_filter_type f <> IN_OR_BLOOM_FILTER ->
       _real_type f' = _real_type f) /\
      (_real_type f = BLOOM_FILTER -> _real_type f' = BLOOM_FILTER).
Proof.
  intros calls w p f Hp.
  destruct (run_type_ordered calls w p f Hp) as (f' & Hp' & _ & Hrel).
  exists f'. split; [exact Hp' |]. split; [exact Hrel |]. split.
  - intros Hty. destruct Hrel as [Hr | [Hh _]]; [exact Hr | contradiction].
  - intros Hb. destruct Hrel as [Hr | [_ Hr]]; congruence.
Qed.

Lemma X16_effective_type_one_way_witness :
  let this := mkVRuntimeFilterSlots [mkVExprContext 0] [0; 1] in
  let f := plain_filter 7 0 IN_OR_BLOOM_FILTER IN_FILTER in
  let w := world_of [f; plain_filter 8 0 MINMAX_FILTER MINMAX_FILTER]
             always_ok in
  let state := mkRuntimeState 1000 in
  let calls :=
    [(this, InitFilters state 1500);
     (this, DisableMeaninglessFilters state);
     (this, InitFilters state 10);
     (this, Insert [[1; 2; 3]%Z]);
     (this, Publish state true)] in
  heap w !! 0 = Some f /\
  exists f',
    heap (run calls w) !! 0 = Some f' /\
    (_real_type f' = _real_type f \/
     (_runtime_filter_type f = IN_OR_BLOOM_FILTER /\
      _real_type f' = BLOOM_FILTER)) /\
    (_runtime_filter_type f <> IN_OR_BLOOM_FILTER ->
     _real_type f' = _real_type f) /\
    (_real_type f = BLOOM_FILTER -> _real_type f' = BLOOM_FILTER).
Proof.
  intros this f w state calls.
  assert (H1 : heap w !! 0 = Some f) by reflexivity.
  split; [exact H1 |].
  exact (X16_effective_type_one_way calls w 0 f H1).
Defined.

(** X18: after [disable_meaningless_filters] on a group of distinct
    handles, none of them null, no active filter of another effective type
    is left on an [expr_order] on which an active counted IN filter is
    left. *)
Theorem X18_no_active_filter_beside_in_filter :
  forall (this : VRuntimeFilterSlots) (state : RuntimeState) (w : World)
         (p q : addr) (fp fq : IRuntimeFilter),
    NoDup (_runtime_filters this) ->
    valid w (_runtime_filters this) ->
    let r := VRuntimeFilterSlots.disable_meaningless_filters this state w in
    p ∈ _runtime_filters this ->
    q ∈ _runtime_filters this ->
    heap r.2 !! p = Some fp ->
    heap r.2 !! q = Some fq ->
    counted fq = true ->
    active fp = true ->
    _real_type fp <> IN_FILTER ->
    _expr_order fp <> _expr_order fq.
Proof.
  intros this state w p q fp fq Hnd Hv r Hp Hq Hfp Hfq Hcq Hap Hrp Heo.
  subst r.
  destruct (disable_meaningless_filters_run this state w Hnd Hv)
    as (h' & Hrun & _ & Hin).
  rewrite Hrun in Hfp, Hfq. cbn [snd heap set_heap] in Hfp, Hfq.
  destruct (proj1 (list_elem_of_lookup _ _) Hp) as (i & Hi).
  destruct (proj1 (list_elem_of_lookup _ _) Hq) as (j & Hj).
  destruct (proj1 (Forall_forall _ _) Hv p Hp) as (gp & Hgp).
  destruct (proj1 (Forall_forall _ _) Hv q Hq) as (gq & Hgq).
  rewrite (Hin i p gp Hi Hgp) in Hfp. rewrite (Hin j q gq Hj Hgq) in Hfq.
  cbn zeta in Hfp, Hfq. injection Hfp as Hfp. injection Hfq as Hfq.
  assert (Hq0 : fq = gq).
  { rewrite <- Hfq in Hcq |- *. revert Hcq.
    destruct (counted gq && _).
    - rewrite dominated_with_disabled. now rewrite counted_with_disabled.
    - destruct (dominated _ gq); [now rewrite counted_with_disabled | auto]. }
  rewrite Hq0 in Hcq, Heo. clear Hq0 Hfq.
  assert (Hinactive : forall g, active (with_disabled g) = false).
  { intros g. unfold active. cbn. apply andb_false_r. }
  assert (Hp0 : fp = gp /\ dominated (seen w (_runtime_filters this) ∅) gp
                           = false).
  { rewrite <- Hfp in Hap |- *. revert Hap.
    destruct (counted gp && _).
    - rewrite dominated_with_disabled. now rewrite Hinactive.
    - destruct (dominated _ gp); [now rewrite Hinactive | auto]. }
  destruct Hp0 as [Hp0 Hdom]. rewrite Hp0 in Hap, Hrp, Heo. clear Hp0 Hfp.
  unfold dominated in Hdom.
  rewrite Hap, (bool_decide_eq_false_2 _ Hrp) in Hdom. cbn in Hdom.
  apply bool_decide_eq_false_1 in Hdom. apply Hdom.
  apply seen_spec. right. exists q, gq.
  split; [exact Hq |]. split; [exact Hgq |]. split; [exact Hcq |].
  symmetry. exact Heo.
Qed.

Lemma X18_no_active_filter_beside_in_filter_witness :
  let this := mkVRuntimeFilterSlots [mkVExprContext 0; mkVExprContext 1] [0; 1] in
  let f0 := plain_filter 7 1 MINMAX_FILTER MINMAX_FILTER in
  let f1 := plain_filter 8 0 IN_FILTER IN_FILTER in
  let w := world_of [f0; f1] always_ok in
  let r := VRuntimeFilterSlots.disable_meaningless_filters this
             (mkRuntimeState 1000) w in
  (NoDup (_runtime_filters this) /\ valid w (_runtime_filters this) /\
   0 ∈ _runtime_filters this /\ 1 ∈ _runtime_filters this /\
   heap r.2 !! 0 = Some f0 /\ heap r.2 !! 1 = Some f1 /\
   counted f1 = true /\ active f0 = true /\ _real_type f0 <> IN_FILTER) /\
  _expr_order f0 <> _expr_order f1.
Proof.
  intros this f0 f1 w r.
  assert (H1 : NoDup (_runtime_filters this)).
  { apply (bool_decide_unpack _). vm_compute. exact I. }
  assert (H2 : valid w (_runtime_filters this)).
  { repeat constructor; eexists; reflexivity. }
  assert (H3 : 0 ∈ _runtime_filters this) by apply list_elem_of_here.
  assert (H4 : 1 ∈ _runtime_filters this)
    by apply list_elem_of_further, list_elem_of_here.
  assert (H5 : heap r.2 !! 0 = Some f0) by reflexivity.
  assert (H6 : heap r.2 !! 1 = Some f1) by reflexivity.
  assert (H7 : counted f1 = true) by reflexivity.
  assert (H8 : active f0 = true) by reflexivity.
  assert (H9 : _real_type f0 <> IN_FILTER) by discriminate.
  split; [repeat split; assumption |].
  exact (X18_no_active_filter_beside_in_filter this (mkRuntimeState 1000) w
           0 1 f0 f1 H1 H2 H3 H4 H5 H6 H7 H8 H9).
Defined.
